(** * BBS_Steam_Account_Fix: a shallow embedding of [BBS_Steam_Account_Fix.py]

    The script repairs one registry value of the game key
    [Software\KLab\BleachBraveSouls]: it looks for an older copy of the
    value in System Restore points and Volume Shadow Copy snapshots and
    writes it back under a new value name.  It is a linear
    orchestration of operating-system commands ([reg], [vssadmin],
    [winreg]) and of text processing on exported [.reg] files.

    Layout:
    - [PyStr]: the Python string methods the script calls, over
      [string] (a character is a code point below 256);
    - the text processing of [export_and_save];
    - [prog]: programs as trees of operating-system calls with Python
      exceptions, and [run], their execution in an arbitrary
      environment, which records the calls made and their answers;
    - the functions of the script, in source order; [platform] holds
      the library functions whose code is not the script's
      ([strptime], [astimezone], [fromtimestamp], [abspath]), and
      [os.path.join] follows the code of [ntpath];
    - concrete machines, and the vocabulary of the properties;
    - lemmas and theorems.

    The functions [list_vss_snapshots] and [vss_is_before_cutoff],
    which the script never calls, come after the vocabulary of the
    properties. *)

From Stdlib Require Import List String Ascii Bool Arith ZArith QArith Qround Lia.
From Stdlib Require Import Sorting.Permutation Sorting.Sorted.
Import ListNotations.

Local Open Scope string_scope.
Local Open Scope list_scope.
Local Open Scope nat_scope.

(** String concatenation, Python's [+] on [str]. *)
Infix "+++" := String.append (right associativity, at level 60).

(* ================================================================== *)
(** * Python string methods *)
(* ================================================================== *)

Module PyStr.

(** A Python [str] is modelled by [string]; a character is a code point
    below 256. *)
Definition str := string.

Definition code (c : ascii) : nat := nat_of_ascii c.

(** [str.isspace] on one character: the white space of Unicode below
    256 is TAB..CR, FS..US, SPACE, NEL and NBSP. *)
Definition is_space (c : ascii) : bool :=
  let n := code c in
  ((9 <=? n) && (n <=? 13)) || ((28 <=? n) && (n <=? 32))
  || (n =? 133) || (n =? 160).

(** The line boundaries of [str.splitlines] below 256: LF, VT, FF, CR,
    FS, GS, RS and NEL. *)
Definition is_linebreak (c : ascii) : bool :=
  let n := code c in
  ((10 <=? n) && (n <=? 13)) || ((28 <=? n) && (n <=? 30)) || (n =? 133).

Definition LF : ascii := "010"%char.
Definition CR : ascii := "013"%char.
Definition dquote : ascii := "034"%char.
Definition backslash : ascii := "092"%char.

(** [s.lstrip()] *)
Fixpoint lstrip (s : str) : str :=
  match s with
  | EmptyString => EmptyString
  | String c s' => if is_space c then lstrip s' else s
  end.

(** [s.rstrip()] *)
Fixpoint rstrip (s : str) : str :=
  match s with
  | EmptyString => EmptyString
  | String c s' =>
      match rstrip s' with
      | EmptyString => if is_space c then EmptyString else String c EmptyString
      | r => String c r
      end
  end.

(** [s.strip()] *)
Definition strip (s : str) : str := rstrip (lstrip s).

(** [s.startswith(p)] *)
Definition startswith (s p : str) : bool := String.prefix p s.

(** [s.endswith(suf)] *)
Fixpoint endswith (s suf : str) : bool :=
  String.eqb s suf
  || match s with
     | EmptyString => false
     | String _ s' => endswith s' suf
     end.

(** [sub in s] *)
Fixpoint contains (sub s : str) : bool :=
  String.prefix sub s
  || match s with
     | EmptyString => false
     | String _ s' => contains sub s'
     end.

(** [sep.join(ls)] *)
Definition join (sep : str) (ls : list str) : str := String.concat sep ls.

(** [s.replace(old, new)] scans from the left and replaces the
    occurrences of [old] that do not overlap an earlier replaced one.
    [skip] counts the characters of a matched [old] still to be
    dropped. *)
Fixpoint replace_from (skip : nat) (s old new : str) : str :=
  match s with
  | EmptyString => EmptyString
  | String c s' =>
      match skip with
      | S k => replace_from k s' old new
      | O =>
          if String.prefix old s
          then new +++ replace_from (String.length old - 1) s' old new
          else String c (replace_from 0 s' old new)
      end
  end.

(** With an empty [old], Python puts [new] before every character and
    at the end. *)
Fixpoint replace_empty (s new : str) : str :=
  match s with
  | EmptyString => new
  | String c s' => new +++ String c (replace_empty s' new)
  end.

Definition replace (s old new : str) : str :=
  match old with
  | EmptyString => replace_empty s new
  | _ => replace_from 0 s old new
  end.

(** [s.splitlines()]: the lines of [s] without their line boundaries;
    CR LF is one boundary; a final boundary opens no empty last line. *)
Fixpoint splitlines (s : str) : list str :=
  match s with
  | EmptyString => []
  | String c s' =>
      if is_linebreak c then
        EmptyString ::
          match s' with
          | String d s'' =>
              if (Ascii.eqb c CR && Ascii.eqb d LF)%bool
              then splitlines s'' else splitlines s'
          | EmptyString => []
          end
      else
        match splitlines s' with
        | [] => [String c EmptyString]
        | l :: ls => String c l :: ls
        end
  end.

(** [s.split(sep)] for a non-empty [sep]. *)
Fixpoint split_from (skip : nat) (s sep : str) : list str :=
  match s with
  | EmptyString => [EmptyString]
  | String c s' =>
      match skip with
      | S k => split_from k s' sep
      | O =>
          if String.prefix sep s
          then EmptyString :: split_from (String.length sep - 1) s' sep
          else
            match split_from 0 s' sep with
            | [] => [String c EmptyString]
            | p :: ps => String c p :: ps
            end
      end
  end.

Definition split (s sep : str) : list str := split_from 0 s sep.

(** [s.split(sep)[-1]] *)
Definition split_last (s sep : str) : str := List.last (split s sep) EmptyString.

(** [s.lower()] on code points below 256: A..Z and the capital letters
    of Latin-1 (all of 192..222 but the multiplication sign 215). *)
Definition lower_char (c : ascii) : ascii :=
  let n := code c in
  if ((65 <=? n) && (n <=? 90))
     || ((192 <=? n) && (n <=? 222) && negb (n =? 215))
  then ascii_of_nat (n + 32) else c.

Fixpoint lower (s : str) : str :=
  match s with
  | EmptyString => EmptyString
  | String c s' => String (lower_char c) (lower s')
  end.

(** No character of [s] is a line boundary. *)
Fixpoint no_linebreak (s : str) : bool :=
  match s with
  | EmptyString => true
  | String c s' => negb (is_linebreak c) && no_linebreak s'
  end.

(** [u] put in front of the first line of [ls]. *)
Definition prepend_line (u : str) (ls : list str) : list str :=
  match ls with
  | [] => [u]
  | l :: ls' => (u +++ l) :: ls'
  end.

End PyStr.

Import PyStr.

(* ================================================================== *)
(** * Global variables of the script *)
(* ================================================================== *)

(** One backslash and one line feed, as strings. *)
Definition bs : str := String backslash EmptyString.
Definition nl : str := String LF EmptyString.

Definition TEMP_MOUNT_NAME : str := "TempHive".
Definition TARGET_REL_PATH : str := "Software\KLab\BleachBraveSouls".
Definition OLD_VALUE_NAME : str := "224515408_h90860828".
Definition NEW_VALUE_NAME : str := "-907038497_h2948477015".

(* ================================================================== *)
(** * The text processing of [export_and_save] *)
(* ================================================================== *)

(** [rf"[HKEY_USERS\{hive_mount_name}\{TARGET_REL_PATH}]"] *)
Definition hive_header (hive_mount_name : str) : str :=
  "[HKEY_USERS" +++ bs +++ hive_mount_name +++ bs +++ TARGET_REL_PATH +++ "]".

(** [rf"[HKEY_CURRENT_USER\{TARGET_REL_PATH}]"] *)
Definition hkcu_header : str :=
  "[HKEY_CURRENT_USER" +++ bs +++ TARGET_REL_PATH +++ "]".

(** The first [data.replace] of [export_and_save]. *)
Definition rewrite_header (hive_mount_name data : str) : str :=
  replace data (hive_header hive_mount_name) hkcu_header.

(** [f"\"{OLD_VALUE_NAME}\"="] *)
Definition old_value_prefix : str :=
  String dquote (OLD_VALUE_NAME +++ String dquote "=").

(** [line.strip().startswith(f"\"{OLD_VALUE_NAME}\"=")] *)
Definition is_old_value_line (line : str) : bool :=
  startswith (strip line) old_value_prefix.

(** [lines[j].strip().endswith("\\")] *)
Definition is_continuation (line : str) : bool :=
  endswith (strip line) bs.

(** The lines the inner [while] appends: [lines[i+1 .. j-1]], the
    longest run of lines after [lines[i]] that each end with a
    backslash. *)
Fixpoint block_continuations (ls : list str) : list str :=
  match ls with
  | l :: ls' => if is_continuation l then l :: block_continuations ls' else []
  | [] => []
  end.

(** The lines from index [j] on, where the outer loop resumes. *)
Fixpoint after_block (ls : list str) : list str :=
  match ls with
  | l :: ls' => if is_continuation l then after_block ls' else ls
  | [] => []
  end.

(** [new_block = "\n".join(block_lines).replace(OLD_VALUE_NAME, NEW_VALUE_NAME)] *)
Definition new_block (block_lines : list str) : str :=
  replace (join nl block_lines) OLD_VALUE_NAME NEW_VALUE_NAME.

(** The outer [while i < len(lines)] loop, on the lines from index [i]
    on; it returns what the loop appends to [new_lines].  Every
    iteration moves [i] forward, so [length lines] iterations suffice:
    [fuel] bounds them. *)
Fixpoint duplicate_loop (fuel : nat) (lines : list str) : list str :=
  match fuel with
  | O => []
  | S fuel' =>
      match lines with
      | [] => []
      | line :: rest =>
          if is_old_value_line line then
            let conts := block_continuations rest in
            line :: conts
              ++ new_block (line :: conts)
              :: duplicate_loop fuel' (after_block rest)
          else line :: duplicate_loop fuel' rest
      end
  end.

Definition duplicate_value_blocks (lines : list str) : list str :=
  duplicate_loop (List.length lines) lines.

(** [new_lines] of [export_and_save] for the exported text [data]. *)
Definition export_new_lines (hive_mount_name data : str) : list str :=
  duplicate_value_blocks (splitlines (rewrite_header hive_mount_name data)).

(** The text [export_and_save] writes to [OUTPUT_REG_FILE]. *)
Definition export_fixed_text (hive_mount_name data : str) : str :=
  join nl (export_new_lines hive_mount_name data).

(** ** What the duplication is required to do

    The requirement in its own words: a value block is its first line
    and the lines after it up to and including the first line that does
    not end with a backslash; the block is kept and a copy under the new
    name follows it. *)

(** The lines of the block after its first line, when the line before
    them ended with a backslash. *)
Fixpoint required_block_rest (ls : list str) : list str :=
  match ls with
  | l :: ls' =>
      if is_continuation l then l :: required_block_rest ls' else [l]
  | [] => []
  end.

Fixpoint required_after_block (ls : list str) : list str :=
  match ls with
  | l :: ls' => if is_continuation l then required_after_block ls' else ls'
  | [] => []
  end.

Fixpoint required_loop (fuel : nat) (lines : list str) : list str :=
  match fuel with
  | O => []
  | S fuel' =>
      match lines with
      | [] => []
      | line :: rest =>
          if is_old_value_line line then
            let block :=
              line :: (if is_continuation line
                       then required_block_rest rest else []) in
            block
              ++ List.map (fun l => replace l OLD_VALUE_NAME NEW_VALUE_NAME) block
              ++ required_loop fuel'
                   (if is_continuation line
                    then required_after_block rest else rest)
          else line :: required_loop fuel' rest
      end
  end.

Definition required_duplication (lines : list str) : list str :=
  required_loop (List.length lines) lines.

(** A three-line hex value, as [reg export] writes it. *)
Definition hex_value_lines : list str :=
  [ String dquote (OLD_VALUE_NAME +++ String dquote ("=hex:01,02," +++ bs));
    "  03,04," +++ bs;
    "  05,06" ].

Definition hex_value_export : str :=
  join nl ("Windows Registry Editor Version 5.00" :: ""
           :: hive_header TEMP_MOUNT_NAME :: hex_value_lines).


(* ================================================================== *)
(** * Operating-system calls and Python exceptions *)
(* ================================================================== *)

(** The exceptions the script can meet.  [CalledProcessError] is what
    [subprocess.run(..., check=True)] raises on a non-zero exit status;
    [OtherException] stands for every other subclass of [Exception]
    (PermissionError, UnicodeError, ValueError, TypeError, ...);
    [KeyboardInterrupt] and [SystemExit] derive from [BaseException]
    only. *)
Inductive exn : Type :=
| CalledProcessError (cmd : list str) (returncode : Z)
| FileNotFoundError (msg : str)
| RuntimeError (msg : str)
| OtherException (msg : str)
| KeyboardInterrupt
| SystemExit.

(** [isinstance(e, Exception)] *)
Definition is_Exception (e : exn) : bool :=
  match e with
  | KeyboardInterrupt | SystemExit => false
  | _ => true
  end.

Definition is_CalledProcessError (e : exn) : bool :=
  match e with CalledProcessError _ _ => true | _ => false end.

Definition is_FileNotFoundError (e : exn) : bool :=
  match e with FileNotFoundError _ => true | _ => false end.

Definition is_RuntimeError (e : exn) : bool :=
  match e with RuntimeError _ => true | _ => false end.

(** What [subprocess.run] returns. *)
Record completed_process : Type :=
  { returncode : Z; stdout : str }.

(** The data of a registry value as [winreg.QueryValueEx] returns it. *)
Inductive winreg_val : Type :=
| RegBytes (b : str)
| RegStr (s : str)
| RegInt (n : Z)
| RegNone.

(** An open registry key handle. *)
Definition hkey := Z.

(** [args.mode], one of the two [choices] of the parser. *)
Inductive run_mode : Type := simulation | live.

(** The namespace [parser.parse_args()] returns. *)
Record args : Type :=
  { mode : run_mode; regfile : option str }.

(** A [float] is modelled by the rational number it denotes. *)
Definition float := Q.

(** The calls into the operating system and the Python runtime. *)
Inductive call : Type :=
| Print (text : str)
    (** [print(text)] *)
| IsUserAnAdmin
    (** [ctypes.windll.shell32.IsUserAnAdmin()] *)
| Subprocess (argv : list str)
    (** [subprocess.run(argv, ...)], before [check] is applied *)
| IsFile (path : str)
    (** [os.path.isfile(path)] *)
| IsDir (path : str)
    (** [os.path.isdir(path)] *)
| PathExists (path : str)
    (** [os.path.exists(path)] *)
| Remove (path : str)
    (** [os.remove(path)] *)
| ReadText (path encoding : str)
    (** [open(path, "r", encoding=encoding)] and [f.read()] *)
| WriteText (path encoding data : str)
    (** [open(path, "w", encoding=encoding)] and [f.write(data)] *)
| Glob (pattern : str)
    (** [glob.iglob(pattern, recursive=True)], run to its end *)
| GetMTime (path : str)
    (** [os.path.getmtime(path)] *)
| ListDir (path : str)
    (** [os.listdir(path)] *)
| Sleep
    (** [time.sleep(SLEEP_AFTER_LOAD)] *)
| OpenKey (key_path : str)
    (** [winreg.OpenKey(winreg.HKEY_USERS, key_path, 0, winreg.KEY_ALL_ACCESS)] *)
| QueryValueEx (key : hkey) (name : str)
    (** [winreg.QueryValueEx(key, name)] *)
| SetValueEx (key : hkey) (name : str) (vtype : Z) (val : winreg_val)
    (** [winreg.SetValueEx(key, name, 0, vtype, val)] *)
| CloseKey (key : hkey)
    (** leaving the [with] block of an open key *)
| GetEnv (name : str)
    (** [os.environ.get(name)] *)
| ParseArgs
    (** building the parser and [parser.parse_args()] *).

(** What each call answers: a value, or the exception it raises. *)
Definition resp (c : call) : Type :=
  match c with
  | Print _ => unit
  | IsUserAnAdmin => exn + Z
  | Subprocess _ => exn + completed_process
  | IsFile _ | IsDir _ | PathExists _ => bool
  | Remove _ => exn + unit
  | ReadText _ _ => exn + str
  | WriteText _ _ _ => exn + unit
  | Glob _ => list str
  | GetMTime _ => exn + float
  | ListDir _ => exn + list str
  | Sleep => unit
  | OpenKey _ => exn + hkey
  | QueryValueEx _ _ => exn + (winreg_val * Z)
  | SetValueEx _ _ _ _ => exn + unit
  | CloseKey _ => unit
  | GetEnv _ => option str
  | ParseArgs => exn + args
  end.

(** A program: it returns, raises, or makes a call and goes on with
    the answer. *)
Inductive prog (A : Type) : Type :=
| Ret (a : A)
| Raise (e : exn)
| Call (c : call) (k : resp c -> prog A).

Arguments Ret {A} a.
Arguments Raise {A} e.
Arguments Call {A} c k.

Fixpoint bind {A B : Type} (p : prog A) (f : A -> prog B) : prog B :=
  match p with
  | Ret a => f a
  | Raise e => Raise e
  | Call c k => Call c (fun r => bind (k r) f)
  end.

Notation "x <- p ;; q" := (bind p (fun x => q))
  (at level 61, p at next level, right associativity).
Notation "p ;; q" := (bind p (fun _ => q))
  (at level 61, right associativity).

(** [try: p  except ...:] where [handler e] is the body of the first
    [except] clause that matches [e], or [None] when none does. *)
Fixpoint try_except {A : Type} (p : prog A) (handler : exn -> option (prog A))
  : prog A :=
  match p with
  | Ret a => Ret a
  | Raise e =>
      match handler e with
      | Some q => q
      | None => Raise e
      end
  | Call c k => Call c (fun r => try_except (k r) handler)
  end.

(** [except Exception:] *)
Definition except_Exception {A : Type} (body : exn -> prog A)
  : exn -> option (prog A) :=
  fun e => if is_Exception e then Some (body e) else None.

(** A bare [except:] *)
Definition except_all {A : Type} (body : prog A) : exn -> option (prog A) :=
  fun _ => Some body.

(** [p] followed by [cleanup] on every way out of [p], as the [with]
    statement does. *)
Fixpoint finally {A : Type} (p : prog A) (cleanup : prog unit) : prog A :=
  match p with
  | Ret a => cleanup ;; Ret a
  | Raise e => cleanup ;; Raise e
  | Call c k => Call c (fun r => finally (k r) cleanup)
  end.

(** The value of an answer, or its exception raised. *)
Definition lift {A : Type} (r : exn + A) : prog A :=
  match r with
  | inl e => Raise e
  | inr a => Ret a
  end.

Definition print (text : str) : prog unit :=
  Call (Print text) (fun _ => Ret tt).

(** [subprocess.run(argv, ..., check=check)] *)
Definition subprocess_run (argv : list str) (check : bool)
  : prog completed_process :=
  Call (Subprocess argv) (fun r =>
    cp <- lift r ;;
    if check && negb (returncode cp =? 0)%Z
    then Raise (CalledProcessError argv (returncode cp))
    else Ret cp).

(** ** Running a program in an environment *)

(** The answers of all calls in one type, for the record of a run. *)
Inductive answer : Type :=
| Done
| Fails (e : exn)
| ABool (b : bool)
| AInt (n : Z)
| AProcess (cp : completed_process)
| AText (data : str)
| ANames (names : list str)
| AFloat (t : float)
| AValue (val : winreg_val) (vtype : Z)
| AEnv (value : option str)
| AArgs (a : args).

Definition answer_or_exn {A : Type} (f : A -> answer) (r : exn + A) : answer :=
  match r with
  | inl e => Fails e
  | inr a => f a
  end.

Definition answer_of (c : call) : resp c -> answer :=
  match c with
  | Print _ => fun _ => Done
  | IsUserAnAdmin => answer_or_exn AInt
  | Subprocess _ => answer_or_exn AProcess
  | IsFile _ | IsDir _ | PathExists _ => ABool
  | Remove _ => answer_or_exn (fun _ => Done)
  | ReadText _ _ => answer_or_exn AText
  | WriteText _ _ _ => answer_or_exn (fun _ => Done)
  | Glob _ => ANames
  | GetMTime _ => answer_or_exn AFloat
  | ListDir _ => answer_or_exn ANames
  | Sleep => fun _ => Done
  | OpenKey _ => answer_or_exn AInt
  | QueryValueEx _ _ => answer_or_exn (fun v => AValue (fst v) (snd v))
  | SetValueEx _ _ _ _ => answer_or_exn (fun _ => Done)
  | CloseKey _ => fun _ => Done
  | GetEnv _ => AEnv
  | ParseArgs => answer_or_exn AArgs
  end.

(** One call with the answer it got. *)
Definition event : Type := call * answer.

(** How a run ends. *)
Inductive outcome (A : Type) : Type :=
| Returned (a : A)
| Raised (e : exn).

Arguments Returned {A} a.
Arguments Raised {A} e.

(** An environment with states [S] answers every call and moves to
    its next state. *)
Definition environment (S : Type) : Type :=
  forall c : call, S -> resp c * S.

(** [run env p s]: how [p] ends in [env] from state [s], the final
    state, and the calls made, in order. *)
Fixpoint run {S A : Type} (env : environment S) (p : prog A) (s : S)
  : outcome A * S * list event :=
  match p with
  | Ret a => (Returned a, s, [])
  | Raise e => (Raised e, s, [])
  | Call c k =>
      let (r, s1) := env c s in
      let '(o, s2, tr) := run env (k r) s1 in
      (o, s2, (c, answer_of c r) :: tr)
  end.

Definition result {S A : Type} (x : outcome A * S * list event) : outcome A :=
  fst (fst x).
Definition final {S A : Type} (x : outcome A * S * list event) : S :=
  snd (fst x).
Definition trace {S A : Type} (x : outcome A * S * list event) : list event :=
  snd x.

(** The calls of a trace. *)
Definition calls (tr : list event) : list call := List.map fst tr.

(* ================================================================== *)
(** * The platform: what the script takes from Python's libraries *)
(* ================================================================== *)

(** A naive [datetime], as [datetime.strptime] builds it. *)
Record naive_datetime : Type :=
  { year : Z; month : Z; day : Z; hour : Z; minute : Z; second : Z }.

(** An aware [datetime] in UTC is modelled by its microseconds since
    1970-01-01 00:00:00 UTC. *)
Definition utc_datetime := Z.

(** Library functions whose code is not part of the script, and the
    facts of the machine it runs on. *)
Record platform : Type :=
  { os_name : str;
      (** [os.name] *)
    abspath : str -> str;
      (** [os.path.abspath] *)
    fromtimestamp_utc : float -> exn + utc_datetime;
      (** [datetime.datetime.fromtimestamp(t, datetime.timezone.utc)] *)
    strptime : str -> str -> exn + naive_datetime;
      (** [datetime.datetime.strptime(date_string, format)] *)
    astimezone_utc : naive_datetime -> exn + utc_datetime;
      (** [dt.astimezone(datetime.timezone.utc)] of a naive local time *)
    str_datetime : utc_datetime -> str;
      (** [str(dt)] *)
    str_exn : exn -> str
      (** [str(e)] *) }.

(** Days from 1970-01-01 to a date of the proleptic Gregorian
    calendar. *)
Definition days_from_civil (y m d : Z) : Z :=
  let y' := if (m <=? 2)%Z then (y - 1)%Z else y in
  let era := (y' / 400)%Z in
  let yoe := (y' - era * 400)%Z in
  let mp := if (m <=? 2)%Z then (m + 9)%Z else (m - 3)%Z in
  let doy := ((153 * mp + 2) / 5 + d - 1)%Z in
  let doe := (yoe * 365 + yoe / 4 - yoe / 100 + doy)%Z in
  (era * 146097 + doe - 719468)%Z.

(** [datetime.datetime(y, m, d, H, M, S, tzinfo=datetime.timezone.utc)] *)
Definition datetime_utc (y m d H M S : Z) : utc_datetime :=
  ((((days_from_civil y m d * 24 + H) * 60 + M) * 60 + S) * 1000000)%Z.

(** ** [os.path.join] on Windows

    [ntpath.join] and [ntpath.splitdrive], after the code of the
    [ntpath] module of CPython 3.11. *)

(** [c in seps] *)
Definition is_sep (c : ascii) : bool :=
  (Ascii.eqb c backslash || Ascii.eqb c "/")%bool.

(** [s[:n]] and [s[n:]] *)
Fixpoint take (n : nat) (s : str) : str :=
  match n, s with
  | S n', String c s' => String c (take n' s')
  | _, _ => EmptyString
  end.

Fixpoint drop (n : nat) (s : str) : str :=
  match n, s with
  | S n', String _ s' => drop n' s'
  | _, _ => s
  end.

(** [s.find(c, start)] for a character [c]: [None] is Python's [-1]. *)
Fixpoint find_char (c : ascii) (s : str) (start : nat) : option nat :=
  match s with
  | EmptyString => None
  | String d s' =>
      match start with
      | S start' => option_map S (find_char c s' start')
      | O => if Ascii.eqb d c then Some 0 else option_map S (find_char c s' 0)
      end
  end.

(** [s.upper()] on the letters [a] to [z].  Of the other characters
    below 256 [str.upper] maps none to a character below 128, but the
    sharp s to [SS]; the result is compared with [\\?\UNC\] only. *)
Definition upper_char (c : ascii) : ascii :=
  let n := code c in
  if (97 <=? n) && (n <=? 122) then ascii_of_nat (n - 32) else c.

Fixpoint upper (s : str) : str :=
  match s with
  | EmptyString => EmptyString
  | String c s' => String (upper_char c) (upper s')
  end.

Definition unc_prefix : str := "\\?\UNC\".

(** [ntpath.splitdrive(p)]: the drive or UNC share of [p], and the
    rest. *)
Definition splitdrive (p : str) : str * str :=
  if 2 <=? String.length p then
    let normp := replace p "/" bs in
    if String.eqb (take 2 normp) (bs +++ bs) then
      (* UNC drives and device drives *)
      let start := if String.eqb (upper (take 8 normp)) unc_prefix then 8 else 2 in
      match find_char backslash normp start with
      | None => (p, EmptyString)
      | Some index =>
          match find_char backslash normp (index + 1) with
          | None => (p, EmptyString)
          | Some index2 => (take index2 p, drop index2 p)
          end
      end
    else if String.eqb (take 1 (drop 1 normp)) ":" then
      (* Drive-letter drives *)
      (take 2 p, drop 2 p)
    else (EmptyString, p)
  else (EmptyString, p).

Definition first_char (s : str) : option ascii :=
  match s with
  | EmptyString => None
  | String c _ => Some c
  end.

Fixpoint last_char (s : str) : option ascii :=
  match s with
  | EmptyString => None
  | String c EmptyString => Some c
  | String _ s' => last_char s'
  end.

(** [s and s[0] in seps], and [s and s[-1] not in seps] *)
Definition starts_with_sep (s : str) : bool :=
  match first_char s with Some c => is_sep c | None => false end.

Definition lacks_final_sep (s : str) : bool :=
  match last_char s with Some c => negb (is_sep c) | None => false end.

(** [s and s[-1:] != colon] *)
Definition lacks_final_colon (s : str) : bool :=
  match last_char s with Some c => negb (Ascii.eqb c ":") | None => false end.

Definition nonempty (s : str) : bool :=
  match s with EmptyString => false | _ => true end.

(** One turn of the loop of [ntpath.join] over the later components,
    on [(result_drive, result_path)]. *)
Definition join_component (result : str * str) (p : str) : str * str :=
  let '(result_drive, result_path) := result in
  let '(p_drive, p_path) := splitdrive p in
  if starts_with_sep p_path then
    (* Second path is absolute *)
    (if nonempty p_drive || negb (nonempty result_drive)
     then p_drive else result_drive,
     p_path)
  else if nonempty p_drive && negb (String.eqb p_drive result_drive)
          && negb (String.eqb (lower p_drive) (lower result_drive)) then
    (* Different drives => ignore the first path entirely *)
    (p_drive, p_path)
  else
    (* Same drive in different case *)
    let result_drive :=
      if nonempty p_drive && negb (String.eqb p_drive result_drive)
      then p_drive else result_drive in
    (* Second path is relative to the first *)
    let result_path :=
      if lacks_final_sep result_path then result_path +++ bs else result_path in
    (result_drive, result_path +++ p_path).

(** [os.path.join(path, *paths)] *)
Definition os_path_join (path : str) (paths : list str) : str :=
  let '(result_drive, result_path) :=
    fold_left join_component paths (splitdrive path) in
  (* add separator between UNC and non-absolute path *)
  if nonempty result_path && negb (starts_with_sep result_path)
     && lacks_final_colon result_drive
  then result_drive +++ bs +++ result_path
  else result_drive +++ result_path.

(** [os.path.join(a, b)] *)
Definition path_join (a b : str) : str := os_path_join a [b].

(** [str(b)] for a [bool]. *)
Definition str_bool (b : bool) : str := if b then "True" else "False".

(** [a < b] on [float]. *)
Definition float_ltb (a b : float) : bool := negb (Qle_bool b a).

(* ================================================================== *)
(** * Global variables, continued *)
(* ================================================================== *)

Definition OUTPUT_REG_FILE (P : platform) : str :=
  abspath P "BleachBraveSouls_from_VSS_PostUpdate_Fix.reg".
Definition LIVE_BACKUP_FILE (P : platform) : str :=
  abspath P "BleachBraveSouls_PostUpdate_Original.reg".
Definition SNAPSHOT_EXPORT_FILE (P : platform) : str :=
  abspath P "BleachBraveSouls_FromVSS.reg".

(** The file [process_regfile] writes. *)
Definition REGFILE_OUTPUT_FILE (P : platform) : str :=
  abspath P "BleachBraveSouls_from_REGBackup_File_PostUpdate_Fix.reg".

(** Cutoff datetime (UTC) *)
Definition CUTOFF_DATETIME : utc_datetime := datetime_utc 2025 10 4 9 10 16.

(* ================================================================== *)
(** * Utility functions *)
(* ================================================================== *)

Definition is_admin : prog bool :=
  try_except
    (Call IsUserAnAdmin (fun r => n <- lift r ;; Ret (negb (n =? 0)%Z)))
    (except_Exception (fun _ => Ret false)).

(** ** The regular expression of [get_user_sid]

    [re.search(r"(S-1-[0-9]-[0-9]+(?:-[0-9]+)+)", out)] *)

Definition is_digit (c : ascii) : bool :=
  (48 <=? code c) && (code c <=? 57).

(** The longest prefix of [s] of the shape [[0-9]+(?:-[0-9]+)*];
    [after_digit] tells whether the character before [s] was a digit
    of the match. *)
Fixpoint digit_groups (after_digit : bool) (s : str) : str :=
  match s with
  | EmptyString => EmptyString
  | String c s' =>
      if is_digit c then String c (digit_groups true s')
      else if (Ascii.eqb c "-" && after_digit)%bool then
        match s' with
        | String d _ =>
            if is_digit d then String c (digit_groups false s')
            else EmptyString
        | EmptyString => EmptyString
        end
      else EmptyString
  end.

(** The match of the pattern at the start of [s], if there is one. *)
Definition match_sid_here (s : str) : option str :=
  match s with
  | String "S" (String "-" (String "1" (String "-" (String d (String "-" rest))))) =>
      if is_digit d then
        let groups := digit_groups false rest in
        if contains "-" groups
        then Some ("S-1-" +++ String d ("-" +++ groups))
        else None
      else None
  | _ => None
  end.

(** [m.group(1)] of the leftmost match, or [None]. *)
Fixpoint search_sid (out : str) : option str :=
  match match_sid_here out with
  | Some m => Some m
  | None =>
      match out with
      | EmptyString => None
      | String _ out' => search_sid out'
      end
  end.

(** Return current user SID. *)
Definition get_user_sid : prog str :=
  found <-
    try_except
      (proc <- subprocess_run ["whoami"; "/user"] true ;;
       let out := stdout proc in
       Ret (search_sid out))
      (except_Exception (fun _ => Ret None)) ;;
  match found with
  | Some sid => Ret sid
  | None => Raise (RuntimeError "Could not determine user SID.")
  end.

(* ================================================================== *)
(** * Backup live HKCU key *)
(* ================================================================== *)

(** Backup the live HKCU\Software\KLab\BleachBraveSouls key. *)
Definition backup_live_hkcu_key (P : platform) : prog unit :=
  let full_key := "HKCU\Software\KLab\BleachBraveSouls" in
  try_except
    (subprocess_run ["reg"; "export"; full_key; LIVE_BACKUP_FILE P; "/y"] true ;;
     print ("Live registry key backed up to " +++ LIVE_BACKUP_FILE P))
    (fun e =>
       if is_CalledProcessError e
       then Some (print ("Failed to backup live key: " +++ str_exn P e))
       else None).

(* ================================================================== *)
(** * REG file handling *)
(* ================================================================== *)

(** [f"[HKEY_CURRENT_USER\\{TARGET_REL_PATH}]"] *)
Definition target_key_line : str :=
  "[HKEY_CURRENT_USER" +++ bs +++ TARGET_REL_PATH +++ "]".

(** [data.replace(OLD_VALUE_NAME, NEW_VALUE_NAME)] *)
Definition regfile_fixed_text (data : str) : str :=
  replace data OLD_VALUE_NAME NEW_VALUE_NAME.

Definition process_regfile (P : platform) (SIMULATION_MODE : bool)
    (regfile_path : str) : prog bool :=
  isfile <- Call (IsFile regfile_path) (fun b => Ret b) ;;
  if negb isfile then
    print ("REG file " +++ regfile_path +++ " does not exist.") ;;
    Ret false
  else
    data <-
      try_except
        (Call (ReadText regfile_path "utf-16") lift)
        (except_Exception (fun _ =>
           print ("Failed to read " +++ regfile_path
                  +++ " as UTF-16. Trying UTF-8...") ;;
           Call (ReadText regfile_path "utf-8") lift)) ;;
    if negb (contains target_key_line data) then
      print (target_key_line +++ " not found in " +++ regfile_path
             +++ ". Proceeding to restore point/VSS search.") ;;
      Ret false
    else
      (* Backup live HKCU key *)
      backup_live_hkcu_key P ;;
      (* Replace old value name with new value name *)
      let data_fixed := regfile_fixed_text data in
      let output_file := REGFILE_OUTPUT_FILE P in
      Call (WriteText output_file "utf-16" data_fixed) lift ;;
      print ("Fixed REG exported to " +++ output_file) ;;
      (* Merge if live *)
      (if negb SIMULATION_MODE then
         try_except
           (subprocess_run ["reg"; "import"; output_file] true ;;
            print ("Merged modified REG into live registry: " +++ output_file))
           (fun e =>
              if is_CalledProcessError e
              then Some (print ("Failed to merge registry: " +++ str_exn P e))
              else None)
       else Ret tt) ;;
      Ret true.

(* ================================================================== *)
(** * Restore points *)
(* ================================================================== *)

(** The body of the [for rp_dir in glob.iglob(...)] loop. *)
Fixpoint collect_snapshot_dirs (rp_dirs : list str) : prog (list (str * str)) :=
  match rp_dirs with
  | [] => Ret []
  | rp_dir :: more =>
      is_rp <- Call (IsDir rp_dir) (fun b => Ret b) ;;
      if is_rp then
        let snapshot_dir := path_join rp_dir "snapshot" in
        is_snap <- Call (IsDir snapshot_dir) (fun b => Ret b) ;;
        candidates <- collect_snapshot_dirs more ;;
        Ret (if is_snap then (rp_dir, snapshot_dir) :: candidates
             else candidates)
      else collect_snapshot_dirs more
  end.

Definition find_restore_point_snapshot_dirs : prog (list (str * str)) :=
  let base := "C:\System Volume Information" in
  let pattern := os_path_join base ["**"; "RP*"] in
  rp_dirs <- Call (Glob pattern) (fun l => Ret l) ;;
  collect_snapshot_dirs rp_dirs.

Definition rp_is_before_cutoff (P : platform) (rp_dir : str) : prog bool :=
  mtime <- Call (GetMTime rp_dir) lift ;;
  rp_dt <- lift (fromtimestamp_utc P mtime) ;;
  if (CUTOFF_DATETIME <=? rp_dt)%Z then
    print ("Skipping restore point " +++ rp_dir +++ " (datetime "
           +++ str_datetime P rp_dt +++ " >= cutoff "
           +++ str_datetime P CUTOFF_DATETIME +++ ")") ;;
    Ret false
  else Ret true.

(** [[t for t in rps if rp_is_before_cutoff(t[0])]] *)
Fixpoint filter_before_cutoff (P : platform) (rps : list (str * str))
  : prog (list (str * str)) :=
  match rps with
  | [] => Ret []
  | t :: more =>
      keep <- rp_is_before_cutoff P (fst t) ;;
      rest <- filter_before_cutoff P more ;;
      Ret (if keep then t :: rest else rest)
  end.

(** [sorted] calls its key function once on every element, in order. *)
Fixpoint mtime_keys (rp_list : list (str * str))
  : prog (list (float * (str * str))) :=
  match rp_list with
  | [] => Ret []
  | t :: more =>
      k <- Call (GetMTime (fst t)) lift ;;
      rest <- mtime_keys more ;;
      Ret ((k, t) :: rest)
  end.

(** [sorted(..., reverse=True)] is stable: elements with equal keys
    keep their order.  [insert_desc x l] puts [x], which stood before
    the elements of [l], in front of the first key not above its own. *)
Fixpoint insert_desc {A : Type} (x : float * A) (l : list (float * A))
  : list (float * A) :=
  match l with
  | [] => [x]
  | y :: l' =>
      if float_ltb (fst x) (fst y) then y :: insert_desc x l'
      else x :: y :: l'
  end.

Fixpoint sort_desc {A : Type} (l : list (float * A)) : list (float * A) :=
  match l with
  | [] => []
  | x :: l' => insert_desc x (sort_desc l')
  end.

Definition sort_rps_newest_first (rp_list : list (str * str))
  : prog (list (str * str)) :=
  keyed <- mtime_keys rp_list ;;
  Ret (List.map snd (sort_desc keyed)).

(** The body of [for entry in os.listdir(snapshot_dir)]. *)
Fixpoint find_hive_entry (snapshot_dir sid : str) (entries : list str)
  : prog (option str) :=
  match entries with
  | [] => Ret None
  | entry :: more =>
      if contains (lower sid) (lower entry) then
        let full := path_join snapshot_dir entry in
        isfile <- Call (IsFile full) (fun b => Ret b) ;;
        if isfile then Ret (Some full)
        else find_hive_entry snapshot_dir sid more
      else find_hive_entry snapshot_dir sid more
  end.

Definition find_user_hive_in_snapshot (snapshot_dir sid : str)
  : prog (option str) :=
  entries <- Call (ListDir snapshot_dir) lift ;;
  find_hive_entry snapshot_dir sid entries.

(* ================================================================== *)
(** * VSS *)
(* ================================================================== *)

(** The dictionary [current] of [list_vss_snapshots_before_cutoff]:
    its keys are ["id"], ["ctime"] and ["path"]; a field is [None]
    while its key is absent.  The value under ["ctime"] is a datetime
    or Python's [None]. *)
Record vss_current : Type :=
  { cur_id : option str;
    cur_ctime : option (option utc_datetime);
    cur_path : option str }.

(** [current = {}] *)
Definition empty_current : vss_current :=
  {| cur_id := None; cur_ctime := None; cur_path := None |}.

(** The three kinds of line the loop acts on, in the order of its
    [if]/[elif] chain; [line] is already stripped. *)
Definition is_id_line (line : str) : bool :=
  startswith line "Shadow Copy ID:".

Definition is_ctime_line (line : str) : bool :=
  negb (is_id_line line) && contains "at creation time:" line.

Definition is_volume_line (line : str) : bool :=
  negb (is_id_line line) && negb (contains "at creation time:" line)
  && startswith line "Shadow Copy Volume:".

(** [line.split("at creation time:")[-1].strip()] *)
Definition creation_date_str (line : str) : str :=
  strip (split_last line "at creation time:").

(** [line.split(":")[-1].strip()] *)
Definition after_last_colon (line : str) : str :=
  strip (split_last line ":").

(** The [try] block of the creation-time branch: the parsed local
    time converted to UTC, or the exception raised on the way. *)
Definition parse_creation_time (P : platform) (date_str : str)
  : exn + utc_datetime :=
  match strptime P date_str "%m/%d/%Y %I:%M:%S %p" with
  | inl e => inl e
  | inr local_time => astimezone_utc P local_time
  end.

(** The body of [for line in result.stdout.splitlines()], carrying
    [current] and [shadows]. *)
Fixpoint vss_scan (P : platform) (lines : list str)
    (current : vss_current) (shadows : list str) : prog (list str) :=
  match lines with
  | [] => Ret shadows
  | raw :: more =>
      let line := strip raw in
      if startswith line "Shadow Copy ID:" then
        vss_scan P more
          {| cur_id := Some (after_last_colon line);
             cur_ctime := cur_ctime current;
             cur_path := cur_path current |}
          shadows
      else if contains "at creation time:" line then
        let date_str := creation_date_str line in
        match parse_creation_time P date_str with
        | inr local_time =>
            vss_scan P more
              {| cur_id := cur_id current;
                 cur_ctime := Some (Some local_time);
                 cur_path := cur_path current |}
              shadows
        | inl e =>
            if is_Exception e then
              print ("Warning: Could not parse VSS time '" +++ date_str
                     +++ "': " +++ str_exn P e) ;;
              vss_scan P more
                {| cur_id := cur_id current;
                   cur_ctime := Some None;
                   cur_path := cur_path current |}
                shadows
            else Raise e
        end
      else if startswith line "Shadow Copy Volume:" then
        let path := after_last_colon line in
        match cur_ctime current with
        | Some (Some ctime) =>
            let before_cutoff := (ctime <? CUTOFF_DATETIME)%Z in
            print ("Debug: VSS " +++ path +++ ", created "
                   +++ str_datetime P ctime +++ " UTC, before cutoff? "
                   +++ str_bool before_cutoff) ;;
            vss_scan P more empty_current
              (if before_cutoff then shadows ++ [path] else shadows)
        | _ => vss_scan P more empty_current shadows
        end
      else vss_scan P more current shadows
  end.

(** Return a list of VSS shadow copy paths created before the cutoff
    datetime. *)
Definition list_vss_snapshots_before_cutoff (P : platform) : prog (list str) :=
  result <- subprocess_run ["vssadmin"; "list"; "shadows"] false ;;
  shadows <- vss_scan P (splitlines (stdout result)) empty_current [] ;;
  match shadows with
  | [] =>
      print "No valid VSS snapshots found before cutoff datetime." ;;
      Ret shadows
  | _ => Ret shadows
  end.

(* ================================================================== *)
(** * Registry hive functions *)
(* ================================================================== *)

Definition reg_load (hive_path mount_name : str) : prog unit :=
  subprocess_run ["reg"; "load"; "HKU" +++ bs +++ mount_name; hive_path] true ;;
  Call Sleep (fun _ => Ret tt).

Definition reg_unload (mount_name : str) : prog unit :=
  subprocess_run ["reg"; "unload"; "HKU" +++ bs +++ mount_name] true ;;
  Ret tt.

Definition modify_hive_value (P : platform) (SIMULATION_MODE : bool)
    (hive_mount_name : str) : prog bool :=
  let key_path := hive_mount_name +++ bs +++ TARGET_REL_PATH in
  try_except
    (key <- Call (OpenKey key_path) lift ;;
     finally
       (queried <- Call (QueryValueEx key OLD_VALUE_NAME) lift ;;
        let '(val, vtype) := queried in
        (if negb SIMULATION_MODE then
           Call (SetValueEx key NEW_VALUE_NAME vtype val) lift
         else Ret tt) ;;
        Ret true)
       (Call (CloseKey key) (fun _ => Ret tt)))
    (fun e =>
       if is_FileNotFoundError e then Some (Ret false)
       else if is_Exception e then
         Some (print ("Error modifying hive: " +++ str_exn P e) ;; Ret false)
       else None).

(** Export snapshot/VSS hive and create fixed copy with
    HKEY_CURRENT_USER root. *)
Definition export_and_save (P : platform) (SIMULATION_MODE : bool)
    (hive_mount_name : str) : prog bool :=
  let full_key := "HKU" +++ bs +++ hive_mount_name +++ bs +++ TARGET_REL_PATH in
  exported <-
    try_except
      (subprocess_run
         ["reg"; "export"; full_key; SNAPSHOT_EXPORT_FILE P; "/y"] true ;;
       Ret true)
      (fun e =>
         if is_CalledProcessError e then
           Some (print ("Failed to export snapshot/VSS hive: " +++ str_exn P e) ;;
                 Ret false)
         else None) ;;
  if negb exported then Ret false
  else
    (* Correct header line and value replacement *)
    try_except
      (data <- Call (ReadText (SNAPSHOT_EXPORT_FILE P) "utf-16") lift ;;
       let data_fixed := export_fixed_text hive_mount_name data in
       Call (WriteText (OUTPUT_REG_FILE P) "utf-16" data_fixed) lift ;;
       print ("Fixed REG file created: " +++ OUTPUT_REG_FILE P) ;;
       (if negb SIMULATION_MODE then
          subprocess_run ["reg"; "import"; OUTPUT_REG_FILE P] true ;;
          print ("Merged modified key into live registry: " +++ OUTPUT_REG_FILE P)
        else Ret tt) ;;
       Ret true)
      (except_Exception (fun e =>
         print ("Error creating fixed export: " +++ str_exn P e) ;;
         Ret false)).

(* ================================================================== *)
(** * Search functions *)
(* ================================================================== *)

(** One iteration of the loop of [search_old_restore_points]: [true]
    when the iteration executes [return True], [false] when the loop
    goes on. *)
Definition try_restore_point (P : platform) (SIMULATION_MODE : bool)
    (sid : str) (t : str * str) : prog bool :=
  let '(rp_dir, snapshot_dir) := t in
  hive_file <- find_user_hive_in_snapshot snapshot_dir sid ;;
  match hive_file with
  | Some hive_file =>
      try_except
        (reg_load hive_file TEMP_MOUNT_NAME ;;
         modified <- modify_hive_value P SIMULATION_MODE TEMP_MOUNT_NAME ;;
         if modified then
           export_and_save P SIMULATION_MODE TEMP_MOUNT_NAME ;;
           reg_unload TEMP_MOUNT_NAME ;;
           Ret true
         else
           reg_unload TEMP_MOUNT_NAME ;;
           Ret false)
        (except_all
           (try_except (reg_unload TEMP_MOUNT_NAME) (except_all (Ret tt)) ;;
            Ret false))
  | None => Ret false
  end.

(** [for rp_dir, snapshot_dir in rps_sorted]: [true] when an iteration
    returned, [false] when the list is exhausted. *)
Fixpoint restore_point_loop (P : platform) (SIMULATION_MODE : bool)
    (sid : str) (rps_sorted : list (str * str)) : prog bool :=
  match rps_sorted with
  | [] => Ret false
  | t :: more =>
      returned <- try_restore_point P SIMULATION_MODE sid t ;;
      if returned then Ret true
      else restore_point_loop P SIMULATION_MODE sid more
  end.

Definition search_old_restore_points (P : platform) (SIMULATION_MODE : bool)
    (sid : str) : prog bool :=
  rps <- find_restore_point_snapshot_dirs ;;
  rps_filtered <- filter_before_cutoff P rps ;;
  rps_sorted <- sort_rps_newest_first rps_filtered ;;
  match rps_sorted with
  | [] =>
      print "No restore points before cutoff datetime." ;;
      Ret false
  | _ =>
      returned <- restore_point_loop P SIMULATION_MODE sid rps_sorted ;;
      if returned then Ret true
      else
        print "No suitable restore point found with the key before cutoff." ;;
        Ret false
  end.

(** What the [except Exception as e] clause of [search_vss_snapshots]
    does. *)
Definition vss_error_handler (P : platform) (shadow : str) (e : exn)
  : prog unit :=
  print ("Error accessing snapshot " +++ shadow +++ ": " +++ str_exn P e) ;;
  try_except (reg_unload TEMP_MOUNT_NAME) (except_Exception (fun _ => Ret tt)).

(** One iteration of the loop of [search_vss_snapshots], from the
    value of [found] before it: the value of [found] after it, and
    whether the iteration executes [break].  [found] is assigned
    before [reg_unload] runs, so an exception of [reg_unload] leaves
    the new value behind: the inner [try_except] is the same [except]
    clause, entered with that value. *)
Definition try_vss_snapshot (P : platform) (SIMULATION_MODE : bool)
    (username : option str) (found : bool) (shadow : str)
  : prog (bool * bool) :=
  match username with
  | None => Raise (OtherException "expected str, bytes or os.PathLike object, not NoneType")
  | Some username =>
      let ntuser_path :=
        os_path_join shadow ["Users"; username; "NTUSER.DAT"] in
      present <- Call (PathExists ntuser_path) (fun b => Ret b) ;;
      if present then
        print ("Found candidate NTUSER.DAT in VSS snapshot: " +++ ntuser_path) ;;
        try_except
          (reg_load ntuser_path TEMP_MOUNT_NAME ;;
           modified <- modify_hive_value P SIMULATION_MODE TEMP_MOUNT_NAME ;;
           found' <-
             (if modified then
                export_and_save P SIMULATION_MODE TEMP_MOUNT_NAME ;;
                Ret true
              else Ret found) ;;
           try_except
             (reg_unload TEMP_MOUNT_NAME ;;
              Ret (found', found'))
             (except_Exception (fun e =>
                vss_error_handler P shadow e ;; Ret (found', false))))
          (except_Exception (fun e =>
             vss_error_handler P shadow e ;; Ret (found, false)))
      else Ret (found, false)
  end.

Fixpoint vss_snapshot_loop (P : platform) (SIMULATION_MODE : bool)
    (username : option str) (found : bool) (shadows : list str) : prog bool :=
  match shadows with
  | [] => Ret found
  | shadow :: more =>
      step <- try_vss_snapshot P SIMULATION_MODE username found shadow ;;
      let '(found', break) := step in
      if break then Ret found'
      else vss_snapshot_loop P SIMULATION_MODE username found' more
  end.

(** Search through VSS snapshots for NTUSER.DAT before cutoff
    datetime. *)
Definition search_vss_snapshots (P : platform) (SIMULATION_MODE : bool)
  : prog bool :=
  shadows <- list_vss_snapshots_before_cutoff P ;;
  match shadows with
  | [] => Ret false
  | _ =>
      username <- Call (GetEnv "USERNAME") (fun u => Ret u) ;;
      found <- vss_snapshot_loop P SIMULATION_MODE username false shadows ;;
      (if negb found then
         print "No suitable VSS snapshot found with the target key before cutoff."
       else Ret tt) ;;
      Ret found
  end.

(* ================================================================== *)
(** * Main *)
(* ================================================================== *)

(** [for f in [SNAPSHOT_EXPORT_FILE, OUTPUT_REG_FILE]] *)
Fixpoint remove_leftovers (files : list str) : prog unit :=
  match files with
  | [] => Ret tt
  | f :: more =>
      present <- Call (PathExists f) (fun b => Ret b) ;;
      (if present then Call (Remove f) lift else Ret tt) ;;
      remove_leftovers more
  end.

(** The restore-point and VSS search at the end of [main]. *)
Definition search_snapshots (P : platform) (SIMULATION_MODE : bool)
    (sid : str) : prog unit :=
  backup_live_hkcu_key P ;;
  found <- search_old_restore_points P SIMULATION_MODE sid ;;
  found <-
    (if negb found then search_vss_snapshots P SIMULATION_MODE
     else Ret found) ;;
  if negb found then
    print "Key not found in any restore point or VSS snapshot before cutoff."
  else Ret tt.

(** [if args.regfile:] is false for [None] and for the empty string. *)
Definition regfile_given (a : args) : option str :=
  match regfile a with
  | Some EmptyString => None
  | r => r
  end.

(** [SIMULATION_MODE] starts as [True]; [main] clears it in live
    mode. *)
Definition SIMULATION_MODE_default : bool := true.

Definition main (P : platform) : prog unit :=
  if negb (String.eqb (os_name P) "nt") then
    print "This script is intended for Windows."
  else
    admin <- is_admin ;;
    if negb admin then print "Run as Administrator!"
    else
      (* Clean up leftover REG files *)
      remove_leftovers [SNAPSHOT_EXPORT_FILE P; OUTPUT_REG_FILE P] ;;
      a <- Call ParseArgs lift ;;
      let SIMULATION_MODE :=
        match mode a with
        | live => false
        | simulation => SIMULATION_MODE_default
        end in
      print ("Running in " +++ (if negb SIMULATION_MODE then "LIVE" else "SIMULATION")
             +++ " mode") ;;
      got_sid <-
        try_except
          (sid <- get_user_sid ;; Ret (Some sid))
          (fun e =>
             if is_RuntimeError e
             then Some (print ("ERROR: " +++ str_exn P e) ;; Ret None)
             else None) ;;
      match got_sid with
      | None => Ret tt
      | Some sid =>
          used_regfile <-
            match regfile_given a with
            | Some path => process_regfile P SIMULATION_MODE path
            | None => Ret false
            end ;;
          if used_regfile then Ret tt (* Skip RP/VSS search *)
          else
            (* Otherwise proceed to RP/VSS search *)
            search_snapshots P SIMULATION_MODE sid
      end.

(* ================================================================== *)
(** * Concrete platforms and environments *)
(* ================================================================== *)

(** A machine given by the answers it makes; the answers do not depend
    on what happened before. *)
Record world : Type :=
  { w_admin : exn + Z;
    w_subprocess : list str -> exn + completed_process;
    w_isfile : str -> bool;
    w_isdir : str -> bool;
    w_exists : str -> bool;
    w_remove : str -> exn + unit;
    w_read : str -> str -> exn + str;
    w_write : str -> exn + unit;
    w_glob : str -> list str;
    w_mtime : str -> exn + float;
    w_listdir : str -> exn + list str;
    w_openkey : str -> exn + hkey;
    w_query : str -> exn + (winreg_val * Z);
    w_setvalue : str -> exn + unit;
    w_getenv : str -> option str;
    w_args : exn + args }.

Definition world_answer (w : world) (c : call) : resp c :=
  match c with
  | Print _ => tt
  | IsUserAnAdmin => w_admin w
  | Subprocess argv => w_subprocess w argv
  | IsFile p => w_isfile w p
  | IsDir p => w_isdir w p
  | PathExists p => w_exists w p
  | Remove p => w_remove w p
  | ReadText p enc => w_read w p enc
  | WriteText p _ _ => w_write w p
  | Glob pat => w_glob w pat
  | GetMTime p => w_mtime w p
  | ListDir p => w_listdir w p
  | Sleep => tt
  | OpenKey kp => w_openkey w kp
  | QueryValueEx _ name => w_query w name
  | SetValueEx _ name _ _ => w_setvalue w name
  | CloseKey _ => tt
  | GetEnv name => w_getenv w name
  | ParseArgs => w_args w
  end.

Definition world_env (w : world) : environment unit :=
  fun c s => (world_answer w c, s).

(** [str(e)] for the exceptions of the model. *)
Definition demo_str_exn (e : exn) : str :=
  match e with
  | CalledProcessError _ _ => "Command returned non-zero exit status."
  | FileNotFoundError msg | RuntimeError msg | OtherException msg => msg
  | KeyboardInterrupt => ""
  | SystemExit => ""
  end.

(** A Windows machine in UTC whose working directory is [C:\fix]: it
    reads a date of the digits [MM/DD/YYYY] as midnight of that day,
    and any other text as no date. *)
Definition digit_value (c : ascii) : Z := (Z.of_nat (code c) - 48)%Z.

Definition demo_strptime (date_str fmt : str) : exn + naive_datetime :=
  match date_str with
  | String m1 (String m2 (String "/" (String d1 (String d2 (String "/"
      (String y1 (String y2 (String y3 (String y4 _))))))))) =>
      if is_digit m1 && is_digit m2 && is_digit d1 && is_digit d2
         && is_digit y1 && is_digit y2 && is_digit y3 && is_digit y4
      then inr {| year := (((digit_value y1 * 10 + digit_value y2) * 10
                            + digit_value y3) * 10 + digit_value y4)%Z;
                  month := (digit_value m1 * 10 + digit_value m2)%Z;
                  day := (digit_value d1 * 10 + digit_value d2)%Z;
                  hour := 0; minute := 0; second := 0 |}
      else inl (OtherException "time data does not match format")
  | _ => inl (OtherException "time data does not match format")
  end.

Definition demo_platform : platform :=
  {| os_name := "nt";
     abspath := fun p => "C:\fix" +++ bs +++ p;
     fromtimestamp_utc := fun t => inr (Qfloor (t * 1000000)%Q);
     strptime := demo_strptime;
     astimezone_utc := fun d =>
       inr (datetime_utc (year d) (month d) (day d)
              (hour d) (minute d) (second d));
     str_datetime := fun _ => "<datetime>";
     str_exn := demo_str_exn |}.

(** The same machine seen by a Python whose [os.name] is ["posix"]. *)
Definition posix_platform : platform :=
  {| os_name := "posix";
     abspath := abspath demo_platform;
     fromtimestamp_utc := fromtimestamp_utc demo_platform;
     strptime := strptime demo_platform;
     astimezone_utc := astimezone_utc demo_platform;
     str_datetime := str_datetime demo_platform;
     str_exn := str_exn demo_platform |}.

Definition ok_process (out : str) : exn + completed_process :=
  inr {| returncode := 0; stdout := out |}.

(** A machine on which every command succeeds, the user is an
    administrator, nothing exists on disk and the mounted hive holds
    the old value. *)
Definition quiet_world : world :=
  {| w_admin := inr 1%Z;
     w_subprocess := fun _ => ok_process "";
     w_isfile := fun _ => false;
     w_isdir := fun _ => false;
     w_exists := fun _ => false;
     w_remove := fun _ => inr tt;
     w_read := fun _ _ => inl (FileNotFoundError "No such file or directory");
     w_write := fun _ => inr tt;
     w_glob := fun _ => [];
     w_mtime := fun _ => inl (FileNotFoundError "No such file or directory");
     w_listdir := fun _ => inl (FileNotFoundError "No such file or directory");
     w_openkey := fun _ => inr 7%Z;
     w_query := fun _ => inr (RegBytes "01", 3%Z);
     w_setvalue := fun _ => inr tt;
     w_getenv := fun _ => Some "player";
     w_args := inr {| mode := simulation; regfile := None |} |}.

(* ================================================================== *)
(** * Vocabulary of the properties *)
(* ================================================================== *)

(** What [IsUserAnAdmin] answers when [is_admin()] is [False]: zero,
    or an exception that [except Exception] catches. *)
Definition not_admin_answer (r : exn + Z) : Prop :=
  match r with
  | inr n => n = 0%Z
  | inl e => is_Exception e = true
  end.

(** What a call does to the machine. *)
Inductive effect : Type :=
| Observes                    (** reads files, registry or process state *)
| Prints                      (** writes to standard output *)
| WritesFile (path : str)
| RemovesFile (path : str)
| ImportsRegistry (file : str)  (** [reg import]: merges into the live registry *)
| MountsHive                  (** [reg load] *)
| UnmountsHive                (** [reg unload] *)
| WritesRegistryValue         (** [winreg.SetValueEx] *)
| OtherCommand.

Definition subprocess_effect (argv : list str) : effect :=
  match argv with
  | program :: verb :: rest =>
      if String.eqb program "reg" then
        if String.eqb verb "export" then
          match rest with
          | _ :: file :: _ => WritesFile file
          | _ => OtherCommand
          end
        else if String.eqb verb "import" then
          match rest with
          | file :: _ => ImportsRegistry file
          | _ => OtherCommand
          end
        else if String.eqb verb "load" then MountsHive
        else if String.eqb verb "unload" then UnmountsHive
        else OtherCommand
      else if (String.eqb program "whoami" || String.eqb program "vssadmin")%bool
      then Observes
      else OtherCommand
  | _ => OtherCommand
  end.

Definition effect_of (c : call) : effect :=
  match c with
  | Print _ => Prints
  | Subprocess argv => subprocess_effect argv
  | WriteText path _ _ => WritesFile path
  | Remove path => RemovesFile path
  | SetValueEx _ _ _ _ => WritesRegistryValue
  | _ => Observes
  end.

Definition is_SetValueEx (c : call) : bool :=
  match c with SetValueEx _ _ _ _ => true | _ => false end.

Definition is_reg_import (c : call) : bool :=
  match effect_of c with ImportsRegistry _ => true | _ => false end.

Definition writes_a_file (c : call) : bool :=
  match effect_of c with WritesFile _ => true | _ => false end.

(** The files the script generates: the two backups and the two fixed
    [.reg] files. *)
Definition generated_files (P : platform) : list str :=
  [LIVE_BACKUP_FILE P; SNAPSHOT_EXPORT_FILE P;
   OUTPUT_REG_FILE P; REGFILE_OUTPUT_FILE P].

(** A call that changes nothing but a generated file. *)
Definition harmless (P : platform) (c : call) : Prop :=
  match effect_of c with
  | Observes | Prints => True
  | WritesFile path => In path (generated_files P)
  | _ => False
  end.

(** Every call [p] can make, whatever the answers, satisfies [Q]. *)
Fixpoint always {A : Type} (Q : call -> Prop) (p : prog A) : Prop :=
  match p with
  | Ret _ => True
  | Raise _ => True
  | Call c k => Q c /\ forall r, always Q (k r)
  end.

(** No [SetValueEx] and no [reg import]. *)
Definition no_live_change (c : call) : Prop :=
  is_SetValueEx c = false /\ is_reg_import c = false.

(** In a run whose answers satisfy [G], every call satisfies [Q]. *)
Fixpoint always_when {A : Type} (G : call -> answer -> Prop)
    (Q : call -> Prop) (p : prog A) : Prop :=
  match p with
  | Ret _ => True
  | Raise _ => True
  | Call c k => Q c /\ forall r, G c (answer_of c r) -> always_when G Q (k r)
  end.

(** The command line asks for simulation mode: [parse_args] answers
    with [mode] equal to ['simulation']. *)
Definition simulation_requested (c : call) (a : answer) : Prop :=
  match c, a with
  | ParseArgs, AArgs parsed => mode parsed = simulation
  | _, _ => True
  end.

(** The key [modify_hive_value] opens. *)
Definition hive_key_path (hive_mount_name : str) : str :=
  hive_mount_name +++ bs +++ TARGET_REL_PATH.

(** The old value was read: [QueryValueEx] answered with its data. *)
Definition old_value_read (tr : list event) : Prop :=
  exists key val vtype,
    In (QueryValueEx key OLD_VALUE_NAME, AValue val vtype) tr.

(** The new value was written: [SetValueEx] returned. *)
Definition new_value_written (tr : list event) : Prop :=
  exists key val vtype,
    In (SetValueEx key NEW_VALUE_NAME vtype val, Done) tr.

(** The hive lacks the key or the old value: [OpenKey] or
    [QueryValueEx] raised [FileNotFoundError]. *)
Definition key_or_value_missing (hive_mount_name : str) (tr : list event) : Prop :=
  (exists msg,
     In (OpenKey (hive_key_path hive_mount_name), Fails (FileNotFoundError msg)) tr)
  \/ (exists key msg,
        In (QueryValueEx key OLD_VALUE_NAME, Fails (FileNotFoundError msg)) tr).

(** A machine like [quiet_world] on which the mounted hive cannot be
    written: [SetValueEx] raises [PermissionError]. *)
Definition read_only_hive_world : world :=
  {| w_admin := w_admin quiet_world;
     w_subprocess := w_subprocess quiet_world;
     w_isfile := w_isfile quiet_world;
     w_isdir := w_isdir quiet_world;
     w_exists := w_exists quiet_world;
     w_remove := w_remove quiet_world;
     w_read := w_read quiet_world;
     w_write := w_write quiet_world;
     w_glob := w_glob quiet_world;
     w_mtime := w_mtime quiet_world;
     w_listdir := w_listdir quiet_world;
     w_openkey := w_openkey quiet_world;
     w_query := w_query quiet_world;
     w_setvalue := fun _ => inl (OtherException "[WinError 5] Access is denied");
     w_getenv := w_getenv quiet_world;
     w_args := w_args quiet_world |}.

(** What [main] prints when both searches fail. *)
Definition not_found_message : str :=
  "Key not found in any restore point or VSS snapshot before cutoff.".

Definition not_found_report : event := (Print not_found_message, Done).

(** The call that opens the VSS search. *)
Definition vssadmin_list_shadows : call :=
  Subprocess ["vssadmin"; "list"; "shadows"].

(** [path] comes from a volume line of the [vssadmin] output whose
    shadow copy set has a creation time that was parsed and, in UTC,
    lies strictly before the cutoff: the last creation-time line above
    the volume line, with no other volume line in between. *)
Definition created_before_cutoff (P : platform) (lines : list str)
    (path : str) : Prop :=
  exists before date_line between volume_line after utc,
    lines = before ++ date_line :: between ++ volume_line :: after
    /\ is_ctime_line (strip date_line) = true
    /\ parse_creation_time P (creation_date_str (strip date_line)) = inr utc
    /\ (utc < CUTOFF_DATETIME)%Z
    /\ Forall (fun l => is_ctime_line (strip l) = false
                      /\ is_volume_line (strip l) = false) between
    /\ is_volume_line (strip volume_line) = true
    /\ path = after_last_colon (strip volume_line).

(** What [current] remembers of the lines read so far. *)
Definition ctime_known (P : platform) (done : list str) (current : vss_current)
  : Prop :=
  forall utc, cur_ctime current = Some (Some utc) ->
  exists before date_line between,
    done = before ++ date_line :: between
    /\ is_ctime_line (strip date_line) = true
    /\ parse_creation_time P (creation_date_str (strip date_line)) = inr utc
    /\ Forall (fun l => is_ctime_line (strip l) = false
                        /\ is_volume_line (strip l) = false) between.

(** The output of [vssadmin list shadows] for two shadow copy sets,
    one created on 2025-10-01 and one on 2025-11-01. *)
Definition two_shadows_output : str :=
  join nl
    [ "Contents of shadow copy set ID: {0a}";
      "   Contained 1 shadow copies at creation time: 10/01/2025 12:11:45 PM";
      "      Shadow Copy ID: {0b}";
      "         Original Volume: (C:)\\?\Volume{0c}\";
      "         Shadow Copy Volume: \\?\GLOBALROOT\Device\HarddiskVolumeShadowCopy1";
      "";
      "Contents of shadow copy set ID: {1a}";
      "   Contained 1 shadow copies at creation time: 11/01/2025 09:00:00 AM";
      "      Shadow Copy ID: {1b}";
      "         Shadow Copy Volume: \\?\GLOBALROOT\Device\HarddiskVolumeShadowCopy2" ].

Definition two_shadows_world : world :=
  {| w_admin := w_admin quiet_world;
     w_subprocess := fun _ => ok_process two_shadows_output;
     w_isfile := w_isfile quiet_world;
     w_isdir := w_isdir quiet_world;
     w_exists := w_exists quiet_world;
     w_remove := w_remove quiet_world;
     w_read := w_read quiet_world;
     w_write := w_write quiet_world;
     w_glob := w_glob quiet_world;
     w_mtime := w_mtime quiet_world;
     w_listdir := w_listdir quiet_world;
     w_openkey := w_openkey quiet_world;
     w_query := w_query quiet_world;
     w_setvalue := w_setvalue quiet_world;
     w_getenv := w_getenv quiet_world;
     w_args := w_args quiet_world |}.

(** A machine on which [reg export] has written [hex_value_export] to
    the snapshot export file. *)
Definition export_world : world :=
  {| w_admin := w_admin quiet_world;
     w_subprocess := w_subprocess quiet_world;
     w_isfile := w_isfile quiet_world;
     w_isdir := w_isdir quiet_world;
     w_exists := w_exists quiet_world;
     w_remove := w_remove quiet_world;
     w_read := fun _ _ => inr hex_value_export;
     w_write := w_write quiet_world;
     w_glob := w_glob quiet_world;
     w_mtime := w_mtime quiet_world;
     w_listdir := w_listdir quiet_world;
     w_openkey := w_openkey quiet_world;
     w_query := w_query quiet_world;
     w_setvalue := w_setvalue quiet_world;
     w_getenv := w_getenv quiet_world;
     w_args := w_args quiet_world |}.

(** The three lines of [hex_value_lines] under the new value name. *)
Definition renamed_hex_value_lines : list str :=
  [ String dquote (NEW_VALUE_NAME +++ String dquote ("=hex:01,02," +++ bs));
    "  03,04," +++ bs;
    "  05,06" ].

(** The pairs of [l] whose key equals [k], in the order of [l]. *)
Definition with_key {A : Type} (k : float) (l : list (float * A))
  : list (float * A) :=
  filter (fun y => Qeq_bool (fst y) k) l.

(** [a] is not older than [b]. *)
Definition newer_or_equal {A : Type} (a b : float * A) : Prop :=
  (fst b <= fst a)%Q.


(** In the calls [tr], the modification time of the restore point [t]
    was read and, converted to UTC, lies strictly before the cutoff. *)
Definition read_before_cutoff (P : platform) (tr : list event)
    (t : str * str) : Prop :=
  exists mtime rp_dt,
    In (GetMTime (fst t), AFloat mtime) tr
    /\ fromtimestamp_utc P mtime = inr rp_dt
    /\ (rp_dt < CUTOFF_DATETIME)%Z.

(** In the calls [tr], [fst kt] was read as the modification time of
    the restore point [snd kt]. *)
Definition key_read (tr : list event) (kt : float * (str * str)) : Prop :=
  In (GetMTime (fst (snd kt)), AFloat (fst kt)) tr.

Definition is_ListDir (c : call) : bool :=
  match c with ListDir _ => true | _ => false end.

(** The snapshot directories a run examined, in order: the arguments
    of its [os.listdir] calls. *)
Fixpoint examined (tr : list event) : list str :=
  match tr with
  | [] => []
  | (ListDir dir, _) :: tr' => dir :: examined tr'
  | _ :: tr' => examined tr'
  end.

(** The calls of the restore-point search apart from [os.listdir]:
    [reg] commands, file and registry access, and messages other than
    the final report of [main]. *)
Definition core_call (c : call) : bool :=
  match c with
  | Print text => negb (String.eqb text not_found_message)
  | Subprocess (program :: _) => String.eqb program "reg"
  | Subprocess [] => false
  | IsFile _ | IsDir _ | Glob _ | GetMTime _ | Sleep
  | ReadText _ _ | WriteText _ _ _
  | OpenKey _ | QueryValueEx _ _ | SetValueEx _ _ _ _ | CloseKey _ => true
  | _ => false
  end.

(** The calls of the restore-point search. *)
Definition restore_point_call (c : call) : bool :=
  core_call c || is_ListDir c.

(** A machine with three restore points: RP1 and RP2 were modified
    before the cutoff, RP2 after RP1, and RP3 after the cutoff.  Every
    snapshot directory holds the hive of the user, and the hive holds
    the old value. *)
Definition rp1 : str := "C:\System Volume Information\RP1".
Definition rp2 : str := "C:\System Volume Information\RP2".
Definition rp3 : str := "C:\System Volume Information\RP3".
Definition demo_sid : str := "S-1-5-21-1-2-3".

Definition rp_mtime (path : str) : exn + float :=
  if String.eqb path rp1 then inr (1759000000 # 1)
  else if String.eqb path rp2 then inr (1759500000 # 1)
  else inr (1760000000 # 1).

Definition rp_world : world :=
  {| w_admin := w_admin quiet_world;
     w_subprocess := w_subprocess quiet_world;
     w_isfile := fun _ => true;
     w_isdir := fun _ => true;
     w_exists := w_exists quiet_world;
     w_remove := w_remove quiet_world;
     w_read := fun _ _ => inr hex_value_export;
     w_write := w_write quiet_world;
     w_glob := fun _ => [rp1; rp2; rp3];
     w_mtime := rp_mtime;
     w_listdir := fun _ => inr ["_REGISTRY_MACHINE_SYSTEM";
                                "_REGISTRY_USER_NTUSER_S-1-5-21-1-2-3"];
     w_openkey := w_openkey quiet_world;
     w_query := w_query quiet_world;
     w_setvalue := w_setvalue quiet_world;
     w_getenv := w_getenv quiet_world;
     w_args := w_args quiet_world |}.

(** The same machine when the mounted hives cannot be written. *)
Definition rp_read_only_world : world :=
  {| w_admin := w_admin rp_world;
     w_subprocess := w_subprocess rp_world;
     w_isfile := w_isfile rp_world;
     w_isdir := w_isdir rp_world;
     w_exists := w_exists rp_world;
     w_remove := w_remove rp_world;
     w_read := w_read rp_world;
     w_write := w_write rp_world;
     w_glob := w_glob rp_world;
     w_mtime := w_mtime rp_world;
     w_listdir := w_listdir rp_world;
     w_openkey := w_openkey rp_world;
     w_query := w_query rp_world;
     w_setvalue := w_setvalue read_only_hive_world;
     w_getenv := w_getenv rp_world;
     w_args := w_args rp_world |}.

(** The same machine when [reg unload] exits with status 1. *)
Definition unload_fails (argv : list str) : exn + completed_process :=
  match argv with
  | _ :: verb :: _ =>
      if String.eqb verb "unload"
      then inr {| returncode := 1; stdout := "" |}
      else ok_process ""
  | _ => ok_process ""
  end.

Definition rp_unload_fails_world : world :=
  {| w_admin := w_admin rp_world;
     w_subprocess := unload_fails;
     w_isfile := w_isfile rp_world;
     w_isdir := w_isdir rp_world;
     w_exists := w_exists rp_world;
     w_remove := w_remove rp_world;
     w_read := w_read rp_world;
     w_write := w_write rp_world;
     w_glob := w_glob rp_world;
     w_mtime := w_mtime rp_world;
     w_listdir := w_listdir rp_world;
     w_openkey := w_openkey rp_world;
     w_query := w_query rp_world;
     w_setvalue := w_setvalue rp_world;
     w_getenv := w_getenv rp_world;
     w_args := w_args rp_world |}.

(** Any call but the final report of [main]. *)
Definition report_free (c : call) : bool :=
  match c with
  | Print text => negb (String.eqb text not_found_message)
  | _ => true
  end.

(** A machine like [quiet_world] whose user is not an administrator. *)
Definition not_admin_world : world :=
  {| w_admin := inr 0%Z;
     w_subprocess := w_subprocess quiet_world;
     w_isfile := w_isfile quiet_world;
     w_isdir := w_isdir quiet_world;
     w_exists := w_exists quiet_world;
     w_remove := w_remove quiet_world;
     w_read := w_read quiet_world;
     w_write := w_write quiet_world;
     w_glob := w_glob quiet_world;
     w_mtime := w_mtime quiet_world;
     w_listdir := w_listdir quiet_world;
     w_openkey := w_openkey quiet_world;
     w_query := w_query quiet_world;
     w_setvalue := w_setvalue quiet_world;
     w_getenv := w_getenv quiet_world;
     w_args := w_args quiet_world |}.

(** What [main] may call before it starts the search: anything but
    [vssadmin] and the final report. *)
Definition prelude_call (c : call) : bool :=
  match c with
  | Print text => negb (String.eqb text not_found_message)
  | Subprocess (program :: _) => negb (String.eqb program "vssadmin")
  | _ => true
  end.

(** A machine without restore points and without shadow copies, on
    which [whoami /user] prints the SID of the user. *)
Definition no_snapshot_world : world :=
  {| w_admin := w_admin quiet_world;
     w_subprocess := fun argv =>
       match argv with
       | "whoami" :: _ => ok_process ("desktop\player " +++ demo_sid)
       | _ => ok_process ""
       end;
     w_isfile := w_isfile quiet_world;
     w_isdir := w_isdir quiet_world;
     w_exists := w_exists quiet_world;
     w_remove := w_remove quiet_world;
     w_read := w_read quiet_world;
     w_write := w_write quiet_world;
     w_glob := w_glob quiet_world;
     w_mtime := w_mtime quiet_world;
     w_listdir := w_listdir quiet_world;
     w_openkey := w_openkey quiet_world;
     w_query := w_query quiet_world;
     w_setvalue := w_setvalue quiet_world;
     w_getenv := w_getenv quiet_world;
     w_args := w_args quiet_world |}.

(** A [.reg] backup of the live key, and a machine whose files all
    hold it. *)
Definition regfile_text : str :=
  join nl
    [ "Windows Registry Editor Version 5.00"; "";
      target_key_line;
      String dquote (OLD_VALUE_NAME +++ String dquote "=dword:00000001") ].

Definition regfile_world : world :=
  {| w_admin := w_admin quiet_world;
     w_subprocess := w_subprocess quiet_world;
     w_isfile := fun _ => true;
     w_isdir := w_isdir quiet_world;
     w_exists := w_exists quiet_world;
     w_remove := w_remove quiet_world;
     w_read := fun _ _ => inr regfile_text;
     w_write := w_write quiet_world;
     w_glob := w_glob quiet_world;
     w_mtime := w_mtime quiet_world;
     w_listdir := w_listdir quiet_world;
     w_openkey := w_openkey quiet_world;
     w_query := w_query quiet_world;
     w_setvalue := w_setvalue quiet_world;
     w_getenv := w_getenv quiet_world;
     w_args := w_args quiet_world |}.

(* ================================================================== *)
(** * Vocabulary of further properties *)
(* ================================================================== *)

(** [subsequence l1 l2]: [l1] is [l2] with some elements left out, the
    others in their order. *)
Inductive subsequence {A : Type} : list A -> list A -> Prop :=
| subsequence_nil : subsequence [] []
| subsequence_keep (x : A) (l1 l2 : list A) :
    subsequence l1 l2 -> subsequence (x :: l1) (x :: l2)
| subsequence_skip (x : A) (l1 l2 : list A) :
    subsequence l1 l2 -> subsequence l1 (x :: l2).

(** A line followed by its copy under the new value name when it
    opens a value block, and the line alone otherwise. *)
Definition line_and_copy (line : str) : list str :=
  if is_old_value_line line
  then [line; replace line OLD_VALUE_NAME NEW_VALUE_NAME]
  else [line].

(** An export whose values take one line each. *)
Definition dword_value_export : str :=
  join nl
    [ "Windows Registry Editor Version 5.00"; "";
      hive_header TEMP_MOUNT_NAME;
      String dquote (OLD_VALUE_NAME +++ String dquote "=dword:00000001");
      String dquote ("volume" +++ String dquote "=dword:00000007") ].

(** ** The language of the regular expression of [get_user_sid] *)

(** [[0-9]+] *)
Inductive digits : str -> Prop :=
| digits_one (c : ascii) : is_digit c = true -> digits (String c EmptyString)
| digits_more (c : ascii) (s : str) :
    is_digit c = true -> digits s -> digits (String c s).

(** [(?:-[0-9]+)+] *)
Inductive dash_groups : str -> Prop :=
| dash_groups_one (a : str) : digits a -> dash_groups ("-" +++ a)
| dash_groups_more (a g : str) :
    digits a -> dash_groups g -> dash_groups ("-" +++ a +++ g).

(** [S-1-[0-9]-[0-9]+(?:-[0-9]+)+] *)
Definition sid_shaped (sid : str) : Prop :=
  exists d a g,
    sid = "S-1-" +++ String d ("-" +++ a +++ g)
    /\ is_digit d = true /\ digits a /\ dash_groups g.

(** ** Calls of the script *)

(** The [reg export] of [backup_live_hkcu_key]. *)
Definition export_live_key (P : platform) : call :=
  Subprocess ["reg"; "export"; "HKCU\Software\KLab\BleachBraveSouls";
              LIVE_BACKUP_FILE P; "/y"].

(** The [reg export] of [export_and_save]. *)
Definition export_hive_key (P : platform) (hive_mount_name : str) : call :=
  Subprocess ["reg"; "export";
              "HKU" +++ bs +++ hive_mount_name +++ bs +++ TARGET_REL_PATH;
              SNAPSHOT_EXPORT_FILE P; "/y"].

(** The [reg import] of [export_and_save]. *)
Definition import_fixed_file (P : platform) : call :=
  Subprocess ["reg"; "import"; OUTPUT_REG_FILE P].

(** [reg load] and [reg unload]. *)
Definition load_hive (hive_path mount_name : str) : call :=
  Subprocess ["reg"; "load"; "HKU" +++ bs +++ mount_name; hive_path].

Definition unload_hive (mount_name : str) : call :=
  Subprocess ["reg"; "unload"; "HKU" +++ bs +++ mount_name].

(** The pattern [find_restore_point_snapshot_dirs] hands to
    [glob.iglob]. *)
Definition restore_point_pattern : str :=
  "C:\System Volume Information\**\RP*".

(** In the calls [tr], [t] is a directory with its [snapshot]
    subdirectory, both answered to be directories. *)
Definition is_candidate (tr : list event) (t : str * str) : Prop :=
  snd t = path_join (fst t) "snapshot"
  /\ In (IsDir (fst t), ABool true) tr
  /\ In (IsDir (snd t), ABool true) tr.

(** [os.listdir] entries are tested with [os.path.isfile] when their
    name contains the SID, whatever the case of the letters. *)
Definition names_sid (sid entry : str) : bool :=
  contains (lower sid) (lower entry).

(** The [os.path.isfile] tests of the entries of [entries] that name
    the SID, all answered [False]. *)
Definition not_a_file (snapshot_dir sid : str) (entries : list str)
  : list event :=
  List.map (fun entry => (IsFile (path_join snapshot_dir entry), ABool false))
    (filter (names_sid sid) entries).

(** A machine like [quiet_world] on which [reg export] exits with
    status 1. *)
Definition export_fails (argv : list str) : exn + completed_process :=
  match argv with
  | _ :: verb :: _ =>
      if String.eqb verb "export"
      then inr {| returncode := 1; stdout := "" |}
      else ok_process ""
  | _ => ok_process ""
  end.

Definition export_fails_world : world :=
  {| w_admin := w_admin quiet_world;
     w_subprocess := export_fails;
     w_isfile := w_isfile quiet_world;
     w_isdir := w_isdir quiet_world;
     w_exists := w_exists quiet_world;
     w_remove := w_remove quiet_world;
     w_read := w_read quiet_world;
     w_write := w_write quiet_world;
     w_glob := w_glob quiet_world;
     w_mtime := w_mtime quiet_world;
     w_listdir := w_listdir quiet_world;
     w_openkey := w_openkey quiet_world;
     w_query := w_query quiet_world;
     w_setvalue := w_setvalue quiet_world;
     w_getenv := w_getenv quiet_world;
     w_args := w_args quiet_world |}.

(** ** The footprint of the script *)

(** The commands the script runs. *)
Definition script_command (P : platform) (argv : list str) : Prop :=
  argv = ["whoami"; "/user"]
  \/ argv = ["vssadmin"; "list"; "shadows"]
  \/ argv = ["reg"; "export"; "HKCU\Software\KLab\BleachBraveSouls";
             LIVE_BACKUP_FILE P; "/y"]
  \/ argv = ["reg"; "export"; "HKU\TempHive\Software\KLab\BleachBraveSouls";
             SNAPSHOT_EXPORT_FILE P; "/y"]
  \/ argv = ["reg"; "import"; OUTPUT_REG_FILE P]
  \/ argv = ["reg"; "import"; REGFILE_OUTPUT_FILE P]
  \/ (exists hive_path, argv = ["reg"; "load"; "HKU\TempHive"; hive_path])
  \/ argv = ["reg"; "unload"; "HKU\TempHive"].

(** What a call of the script may be: the files it may remove and
    write, the commands it may run, the registry key it may open and
    the values it may read and set.  Reading files, testing paths and
    printing are not restricted. *)
Definition within_footprint (P : platform) (c : call) : Prop :=
  match c with
  | Subprocess argv => script_command P argv
  | Remove path => path = SNAPSHOT_EXPORT_FILE P \/ path = OUTPUT_REG_FILE P
  | WriteText path encoding _ =>
      (path = OUTPUT_REG_FILE P \/ path = REGFILE_OUTPUT_FILE P)
      /\ encoding = "utf-16"
  | Glob pattern => pattern = restore_point_pattern
  | OpenKey key_path => key_path = "TempHive\Software\KLab\BleachBraveSouls"
  | QueryValueEx _ name => name = OLD_VALUE_NAME
  | SetValueEx _ name _ _ => name = NEW_VALUE_NAME
  | GetEnv name => name = "USERNAME"
  | _ => True
  end.

(** ** Loading and unloading the hive *)

Definition is_reg_load (c : call) : bool :=
  match effect_of c with MountsHive => true | _ => false end.

Definition is_reg_unload (c : call) : bool :=
  match effect_of c with UnmountsHive => true | _ => false end.

(** Whether a [reg load] is pending after the call [c]: [reg load]
    has been called and [reg unload] has not been called since. *)
Definition pending_after (c : call) (pending : bool) : bool :=
  if is_reg_load c then true
  else if is_reg_unload c then false
  else pending.

(** [hive_pending cs pending] follows the calls [cs] from a state in
    which a [reg load] is pending or not.  It is [None] when [reg
    load] is called while one is pending, and otherwise tells whether
    one is pending after the last call. *)
Fixpoint hive_pending (cs : list call) (pending : bool) : option bool :=
  match cs with
  | [] => Some pending
  | c :: cs' =>
      if is_reg_load c && pending then None
      else hive_pending cs' (pending_after c pending)
  end.

(** A call that neither loads nor unloads a hive. *)
Definition no_mount_call (c : call) : Prop :=
  is_reg_load c = false /\ is_reg_unload c = false.

(** [unloads p pending Qr Qe]: whatever its calls answer, [p] calls
    no [reg load] while one is pending, and ends with [Qr] of its
    value, or [Qe] of its exception, and of whether a [reg load] is
    pending then. *)
Fixpoint unloads {A : Type} (p : prog A) (pending : bool)
    (Qr : A -> bool -> Prop) (Qe : exn -> bool -> Prop) : Prop :=
  match p with
  | Ret a => Qr a pending
  | Raise e => Qe e pending
  | Call c k =>
      is_reg_load c && pending = false
      /\ forall r, unloads (k r) (pending_after c pending) Qr Qe
  end.

(** ** Reading modification times *)

(** The [os.path.getmtime] calls that answer the keys of [keyed], one
    for each restore point, in order. *)
Definition mtime_reads (keyed : list (float * (str * str))) : list event :=
  List.map (fun kt => (GetMTime (fst (snd kt)), AFloat (fst kt))) keyed.

(** ** Rules on the order of calls *)

(** [obeys ok p before Qr Qe]: whatever its calls answer, every call
    [c] of [p] satisfies [ok h c] of the calls and answers [h] made
    so far, [before] included, and [p] ends with [Qr] of its value, or
    [Qe] of its exception, and of the calls and answers made. *)
Fixpoint obeys {A : Type} (ok : list event -> call -> Prop) (p : prog A)
    (before : list event) (Qr : A -> list event -> Prop)
    (Qe : exn -> list event -> Prop) : Prop :=
  match p with
  | Ret a => Qr a before
  | Raise e => Qe e before
  | Call c k =>
      ok before c
      /\ forall r, obeys ok (k r) (before ++ [(c, answer_of c r)]) Qr Qe
  end.

(** A call that changes the live registry or a mounted hive:
    [winreg.SetValueEx] or [reg import]. *)
Definition changes_registry (c : call) : bool :=
  is_SetValueEx c || is_reg_import c.

(** The registry is changed only after the [reg export] of the live
    key to the backup file was called. *)
Definition backup_first (P : platform) (before : list event) (c : call) : Prop :=
  changes_registry c = true -> In (export_live_key P) (calls before).

(** The machine [rp_world] run in live mode by a user whose SID
    [whoami] prints. *)
Definition live_rp_world : world :=
  {| w_admin := w_admin rp_world;
     w_subprocess := w_subprocess no_snapshot_world;
     w_isfile := w_isfile rp_world;
     w_isdir := w_isdir rp_world;
     w_exists := w_exists rp_world;
     w_remove := w_remove rp_world;
     w_read := w_read rp_world;
     w_write := w_write rp_world;
     w_glob := w_glob rp_world;
     w_mtime := w_mtime rp_world;
     w_listdir := w_listdir rp_world;
     w_openkey := w_openkey rp_world;
     w_query := w_query rp_world;
     w_setvalue := w_setvalue rp_world;
     w_getenv := w_getenv rp_world;
     w_args := inr {| mode := live; regfile := None |} |}.

(** The calls and answers of [main] on [live_rp_world]. *)
Definition live_rp_run : list event :=
  trace (run (world_env live_rp_world) (main demo_platform) tt).

(** ** Exceptions the restore-point search does not catch *)

(** [os.listdir] and [os.path.getmtime]. *)
Definition reads_directory (c : call) : bool :=
  match c with
  | ListDir _ | GetMTime _ => true
  | _ => false
  end.

(** The exception of a failed [os.listdir] or [os.path.getmtime]. *)
Definition directory_error (ev : event) : option exn :=
  if reads_directory (fst ev) then
    match snd ev with
    | Fails e => Some e
    | _ => None
    end
  else None.

(** No [os.listdir] and no [os.path.getmtime] has failed in [h]. *)
Definition directories_read (h : list event) : Prop :=
  Forall (fun ev => directory_error ev = None) h.

(** [h] ends with a failed [os.listdir] or [os.path.getmtime] that
    raised [e], the first to fail. *)
Definition ends_with_directory_error (e : exn) (h : list event) : Prop :=
  exists pre ev,
    h = pre ++ [ev] /\ directory_error ev = Some e /\ directories_read pre.

(** No call is made after a failed [os.listdir] or
    [os.path.getmtime]. *)
Definition stops_at_directory_error (before : list event) (c : call) : Prop :=
  directories_read before.

(** The machine [rp_world] when the snapshot directories cannot be
    listed. *)
Definition access_denied : exn := OtherException "[WinError 5] Access is denied".

Definition rp_locked_world : world :=
  {| w_admin := w_admin rp_world;
     w_subprocess := w_subprocess rp_world;
     w_isfile := w_isfile rp_world;
     w_isdir := w_isdir rp_world;
     w_exists := w_exists rp_world;
     w_remove := w_remove rp_world;
     w_read := w_read rp_world;
     w_write := w_write rp_world;
     w_glob := w_glob rp_world;
     w_mtime := w_mtime rp_world;
     w_listdir := fun _ => inl access_denied;
     w_openkey := w_openkey rp_world;
     w_query := w_query rp_world;
     w_setvalue := w_setvalue rp_world;
     w_getenv := w_getenv rp_world;
     w_args := w_args rp_world |}.

(** The [reg import] of [process_regfile]. *)
Definition import_regfile_output (P : platform) : call :=
  Subprocess ["reg"; "import"; REGFILE_OUTPUT_FILE P].

(** A [.reg] backup of the key that does not hold the old value, and
    a machine whose files all hold it. *)
Definition plain_regfile_text : str :=
  join nl
    [ "Windows Registry Editor Version 5.00"; "";
      target_key_line;
      String dquote ("volume" +++ String dquote "=dword:00000007") ].

Definition plain_regfile_world : world :=
  {| w_admin := w_admin quiet_world;
     w_subprocess := w_subprocess quiet_world;
     w_isfile := fun _ => true;
     w_isdir := w_isdir quiet_world;
     w_exists := w_exists quiet_world;
     w_remove := w_remove quiet_world;
     w_read := fun _ _ => inr plain_regfile_text;
     w_write := w_write quiet_world;
     w_glob := w_glob quiet_world;
     w_mtime := w_mtime quiet_world;
     w_listdir := w_listdir quiet_world;
     w_openkey := w_openkey quiet_world;
     w_query := w_query quiet_world;
     w_setvalue := w_setvalue quiet_world;
     w_getenv := w_getenv quiet_world;
     w_args := w_args quiet_world |}.

(** ** The stages of [main] *)

(** [SIMULATION_MODE] after [main] has read the arguments. *)
Definition simulation_mode_of (a : args) : bool :=
  match mode a with
  | live => false
  | simulation => SIMULATION_MODE_default
  end.

(** [f"Running in {'LIVE' if not SIMULATION_MODE else 'SIMULATION'} mode"] *)
Definition mode_message (a : args) : str :=
  "Running in " +++ (if negb (simulation_mode_of a) then "LIVE" else "SIMULATION")
  +++ " mode".

(** What [main] calls from the removal of the leftover files to the
    message on its mode, when the arguments are parsed as [a]. *)
Definition main_opening (a : args) (removal : list event)
  : list event :=
  removal ++ [(ParseArgs, AArgs a); (Print (mode_message a), Done)].

(** [main] from [sid = get_user_sid()] on. *)
Definition main_after_args (P : platform) (a : args) : prog unit :=
  got_sid <-
    try_except
      (sid <- get_user_sid ;; Ret (Some sid))
      (fun e =>
         if is_RuntimeError e
         then Some (print ("ERROR: " +++ str_exn P e) ;; Ret None)
         else None) ;;
  match got_sid with
  | None => Ret tt
  | Some sid =>
      used_regfile <-
        match regfile_given a with
        | Some path => process_regfile P (simulation_mode_of a) path
        | None => Ret false
        end ;;
      if used_regfile then Ret tt
      else search_snapshots P (simulation_mode_of a) sid
  end.

(** A machine like [regfile_world] on which [whoami] prints the SID
    and the command line names a [.reg] file. *)
Definition regfile_given_world : world :=
  {| w_admin := w_admin regfile_world;
     w_subprocess := w_subprocess no_snapshot_world;
     w_isfile := w_isfile regfile_world;
     w_isdir := w_isdir regfile_world;
     w_exists := w_exists regfile_world;
     w_remove := w_remove regfile_world;
     w_read := w_read regfile_world;
     w_write := w_write regfile_world;
     w_glob := w_glob regfile_world;
     w_mtime := w_mtime regfile_world;
     w_listdir := w_listdir regfile_world;
     w_openkey := w_openkey regfile_world;
     w_query := w_query regfile_world;
     w_setvalue := w_setvalue regfile_world;
     w_getenv := w_getenv regfile_world;
     w_args := inr {| mode := simulation; regfile := Some "C:\backup.reg" |} |}.

(** ** The VSS search *)

(** [os.path.join(shadow, r"Users", username, "NTUSER.DAT")] *)
Definition ntuser_path (username shadow : str) : str :=
  os_path_join shadow ["Users"; username; "NTUSER.DAT"].

(** The hives a run looked for, in order: the arguments of its
    [os.path.exists] calls. *)
Fixpoint tested (tr : list event) : list str :=
  match tr with
  | [] => []
  | (PathExists path, _) :: tr' => path :: tested tr'
  | _ :: tr' => tested tr'
  end.

Definition is_PathExists (c : call) : bool :=
  match c with PathExists _ => true | _ => false end.

(** What a search that returns [found] has done: when [found] is
    [True], the old value was read and, in live mode, the new value
    was written. *)
Definition value_found (SIMULATION_MODE : bool) (found : bool)
    (h : list event) : Prop :=
  found = true ->
  old_value_read h /\ (SIMULATION_MODE = false -> new_value_written h).

(** No rule on the calls. *)
Definition any_call (before : list event) (c : call) : Prop := True.

(** The machine [two_shadows_world] when the shadow copies hold the
    hive of the user. *)
Definition shadow_hive_world : world :=
  {| w_admin := w_admin two_shadows_world;
     w_subprocess := w_subprocess two_shadows_world;
     w_isfile := w_isfile two_shadows_world;
     w_isdir := w_isdir two_shadows_world;
     w_exists := fun _ => true;
     w_remove := w_remove two_shadows_world;
     w_read := fun _ _ => inr hex_value_export;
     w_write := w_write two_shadows_world;
     w_glob := w_glob two_shadows_world;
     w_mtime := w_mtime two_shadows_world;
     w_listdir := w_listdir two_shadows_world;
     w_openkey := w_openkey two_shadows_world;
     w_query := w_query two_shadows_world;
     w_setvalue := w_setvalue two_shadows_world;
     w_getenv := w_getenv two_shadows_world;
     w_args := w_args two_shadows_world |}.

(** ** [list_vss_snapshots_before_cutoff], continued *)

(** [current] holds a creation time before the cutoff, and the next
    volume line of [lines], with no creation-time line before it,
    gives [path]. *)
Definition volume_expected (P : platform) (lines : list str)
    (current : vss_current) (path : str) : Prop :=
  exists utc between volume_line after,
    cur_ctime current = Some (Some utc)
    /\ (utc < CUTOFF_DATETIME)%Z
    /\ lines = between ++ volume_line :: after
    /\ Forall (fun l => is_ctime_line (strip l) = false
                        /\ is_volume_line (strip l) = false) between
    /\ is_volume_line (strip volume_line) = true
    /\ path = after_last_colon (strip volume_line).

(* ================================================================== *)
(** * The functions of the script that are never called *)
(* ================================================================== *)

(** The body of [for line in result.stdout.splitlines()] of
    [list_vss_snapshots], carrying [shadows]. *)
Fixpoint shadow_volumes (lines : list str) (shadows : list str) : list str :=
  match lines with
  | [] => shadows
  | line :: more =>
      if contains "Shadow Copy Volume" line then
        let path := after_last_colon line in
        shadow_volumes more (shadows ++ [path])
      else shadow_volumes more shadows
  end.

Definition list_vss_snapshots : prog (list str) :=
  result <- subprocess_run ["vssadmin"; "list"; "shadows"] false ;;
  Ret (shadow_volumes (splitlines (stdout result)) []).

(** [datetime.datetime(1970, 1, 1, tzinfo=datetime.timezone.utc)] *)
Definition EPOCH : utc_datetime := datetime_utc 1970 1 1 0 0 0.

(** [os.path.getctime], which no other function of the script calls,
    is a parameter: a program that returns a [float] or raises. *)
Definition vss_is_before_cutoff (P : platform) (getctime : str -> prog float)
    (shadow_path : str) : prog bool :=
  try_except
    (ctime <- getctime shadow_path ;;
     dt <- lift (fromtimestamp_utc P ctime) ;;
     if (dt =? EPOCH)%Z then
       print ("Skipping VSS snapshot " +++ shadow_path +++ ": invalid timestamp") ;;
       Ret false
     else if (CUTOFF_DATETIME <=? dt)%Z then
       print ("Skipping VSS snapshot " +++ shadow_path +++ " (datetime "
              +++ str_datetime P dt +++ " >= cutoff "
              +++ str_datetime P CUTOFF_DATETIME +++ ")") ;;
       Ret false
     else Ret true)
    (except_Exception (fun _ =>
       print ("Could not read creation time for VSS snapshot " +++ shadow_path
              +++ ", skipping") ;;
       Ret false)).

(** A creation time of 2025-09-01 00:00:00 UTC, read without a
    call. *)
Definition getctime_september (shadow_path : str) : prog float :=
  Ret (1756684800 # 1)%Q.

(* ================================================================== *)
(** * When [replace] leaves no occurrence behind *)
(* ================================================================== *)

(** The character [c] does not occur in [s]. *)
Fixpoint no_char (c : ascii) (s : str) : bool :=
  match s with
  | EmptyString => true
  | String d s' => negb (Ascii.eqb c d) && no_char c s'
  end.

(** No end of [u] is the start of [old], and [old] is the start of no
    end of [u]: text put in front of any other text starts no
    occurrence of [old]. *)
Fixpoint starts_no_occurrence (old u : str) : bool :=
  match u with
  | EmptyString => true
  | String _ u' =>
      negb (String.prefix u old) && negb (String.prefix old u)
      && starts_no_occurrence old u'
  end.

(** A call that writes no text holding the old value name. *)
Definition writes_no_old_name (c : call) : Prop :=
  match c with
  | WriteText _ _ text => contains OLD_VALUE_NAME text = false
  | _ => True
  end.

(* ================================================================== *)
(** * The restore points kept by the cutoff *)
(* ================================================================== *)

(** The modification time [mtime], converted to UTC, lies strictly
    before the cutoff. *)
Definition mtime_before_cutoff (P : platform) (mtime : float) : bool :=
  match fromtimestamp_utc P mtime with
  | inr rp_dt => (rp_dt <? CUTOFF_DATETIME)%Z
  | inl _ => false
  end.

(** What [rp_is_before_cutoff] calls for a restore point whose
    modification time is read as [fst kt]: the reading, and the
    message when the restore point is skipped. *)
Definition cutoff_check (P : platform) (kt : float * (str * str)) : list event :=
  (GetMTime (fst (snd kt)), AFloat (fst kt))
  :: match fromtimestamp_utc P (fst kt) with
     | inr rp_dt =>
         if (CUTOFF_DATETIME <=? rp_dt)%Z
         then [(Print ("Skipping restore point " +++ fst (snd kt) +++ " (datetime "
                       +++ str_datetime P rp_dt +++ " >= cutoff "
                       +++ str_datetime P CUTOFF_DATETIME +++ ")"), Done)]
         else []
     | inl _ => []
     end.

(* ================================================================== *)
(** * Simulation runs and [.reg] files without the key *)
(* ================================================================== *)

(** What a call of a run in simulation mode may do to the machine:
    observe, print, write a generated file, remove one of the two
    leftover exports, and load or unload a hive under the mount
    [TempHive]. *)
Definition simulation_effect (P : platform) (c : call) : Prop :=
  match effect_of c with
  | Observes | Prints => True
  | WritesFile path => In path (generated_files P)
  | RemovesFile path =>
      path = SNAPSHOT_EXPORT_FILE P \/ path = OUTPUT_REG_FILE P
  | MountsHive => exists hive_path, c = load_hive hive_path TEMP_MOUNT_NAME
  | UnmountsHive => c = unload_hive TEMP_MOUNT_NAME
  | _ => False
  end.

(** The machine [rp_world] with the exports of an earlier run left on
    disk, run in simulation mode by a user whose SID [whoami]
    prints. *)
Definition simulation_rp_world : world :=
  {| w_admin := w_admin rp_world;
     w_subprocess := w_subprocess no_snapshot_world;
     w_isfile := w_isfile rp_world;
     w_isdir := w_isdir rp_world;
     w_exists := fun _ => true;
     w_remove := w_remove rp_world;
     w_read := w_read rp_world;
     w_write := w_write rp_world;
     w_glob := w_glob rp_world;
     w_mtime := w_mtime rp_world;
     w_listdir := w_listdir rp_world;
     w_openkey := w_openkey rp_world;
     w_query := w_query rp_world;
     w_setvalue := w_setvalue rp_world;
     w_getenv := w_getenv rp_world;
     w_args := inr {| mode := simulation; regfile := None |} |}.

(** The hive [main] mounts on that machine: the one of the newest
    restore point before the cutoff. *)
Definition rp2_hive : str :=
  "C:\System Volume Information\RP2\snapshot\_REGISTRY_USER_NTUSER_S-1-5-21-1-2-3".

(** A [.reg] file of another key, a machine whose files all hold it,
    and the same machine when the files are not UTF-16. *)
Definition other_key_text : str :=
  join nl
    [ "Windows Registry Editor Version 5.00"; "";
      "[HKEY_CURRENT_USER\Software\KLab\OtherGame]";
      String dquote (OLD_VALUE_NAME +++ String dquote "=dword:00000001") ].

Definition other_key_world : world :=
  {| w_admin := w_admin regfile_world;
     w_subprocess := w_subprocess regfile_world;
     w_isfile := w_isfile regfile_world;
     w_isdir := w_isdir regfile_world;
     w_exists := w_exists regfile_world;
     w_remove := w_remove regfile_world;
     w_read := fun _ _ => inr other_key_text;
     w_write := w_write regfile_world;
     w_glob := w_glob regfile_world;
     w_mtime := w_mtime regfile_world;
     w_listdir := w_listdir regfile_world;
     w_openkey := w_openkey regfile_world;
     w_query := w_query regfile_world;
     w_setvalue := w_setvalue regfile_world;
     w_getenv := w_getenv regfile_world;
     w_args := w_args regfile_world |}.

Definition not_utf16 : exn :=
  OtherException "UTF-16 stream does not start with BOM".

Definition other_key_utf8_world : world :=
  {| w_admin := w_admin regfile_world;
     w_subprocess := w_subprocess regfile_world;
     w_isfile := w_isfile regfile_world;
     w_isdir := w_isdir regfile_world;
     w_exists := w_exists regfile_world;
     w_remove := w_remove regfile_world;
     w_read := fun _ encoding =>
       if String.eqb encoding "utf-16" then inl not_utf16
       else inr other_key_text;
     w_write := w_write regfile_world;
     w_glob := w_glob regfile_world;
     w_mtime := w_mtime regfile_world;
     w_listdir := w_listdir regfile_world;
     w_openkey := w_openkey regfile_world;
     w_query := w_query regfile_world;
     w_setvalue := w_setvalue regfile_world;
     w_getenv := w_getenv regfile_world;
     w_args := w_args regfile_world |}.
Example splitlines_ex :
  splitlines ("ab" +++ String CR (String LF ("c" +++ String LF (String LF ""))))
  = ["ab"; "c"; ""].
Proof. reflexivity. Qed.

Example replace_ex : replace "aXXbXXX" "XX" "y" = "aybyX".
Proof. reflexivity. Qed.

Example split_ex : split "a:b::c" ":" = ["a"; "b"; ""; "c"].
Proof. reflexivity. Qed.

Example strip_ex : strip "  a b  " = "a b".
Proof. reflexivity. Qed.

Example replace_empty_ex : replace "abc" "" "-" = "-a-b-c-".
Proof. reflexivity. Qed.

Example endswith_ex :
  endswith ("hex:01," +++ bs) bs = true /\ endswith "  05,06" bs = false.
Proof. split; reflexivity. Qed.

Example lower_ex : lower "S-1-5-21-AbC" = "s-1-5-21-abc".
Proof. reflexivity. Qed.

Example split_last_ex :
  split_last "Shadow Copy Volume: \\?\GLOBALROOT\Device\HarddiskVolumeShadowCopy1" ":"
  = " \\?\GLOBALROOT\Device\HarddiskVolumeShadowCopy1".
Proof. reflexivity. Qed.

Example search_sid_ex :
  search_sid "desktop\player S-1-5-21-123-456-  S-1-5-21" = Some "S-1-5-21-123-456".
Proof. reflexivity. Qed.

Example path_join_ex :
  os_path_join "C:\System Volume Information" ["**"; "RP*"]
  = "C:\System Volume Information\**\RP*".
Proof. reflexivity. Qed.

(** A later component that is absolute or carries a drive replaces
    what comes before it; a separator follows a colon unless the colon
    ends a bare drive; a UNC share is a drive. *)
Example os_path_join_ex :
  os_path_join "\\?\GLOBALROOT\Device\HarddiskVolumeShadowCopy1"
    ["Users"; "player"; "NTUSER.DAT"]
  = "\\?\GLOBALROOT\Device\HarddiskVolumeShadowCopy1\Users\player\NTUSER.DAT"
  /\ os_path_join "\\?\GLOBALROOT\Device\HarddiskVolumeShadowCopy1"
       ["Users"; "D:"; "NTUSER.DAT"]
     = "D:NTUSER.DAT"
  /\ os_path_join "\\?\GLOBALROOT\Device\HarddiskVolumeShadowCopy1"
       ["Users"; "\player"; "NTUSER.DAT"]
     = "\\?\GLOBALROOT\player\NTUSER.DAT"
  /\ path_join "C:\dir:" "entry" = "C:\dir:\entry"
  /\ path_join "C:" "entry" = "C:entry"
  /\ path_join "c:dir" "C:entry" = "C:dir\entry"
  /\ path_join "\\server\share" "entry" = "\\server\share\entry"
  /\ path_join "" "entry" = "entry".
Proof. repeat split; reflexivity. Qed.

Example cutoff_ex : CUTOFF_DATETIME = 1759569016000000%Z.
Proof. reflexivity. Qed.

(* ================================================================== *)
(** * Lemmas on strings *)
(* ================================================================== *)

Section StringLemmas.

Lemma append_nil_r (s : str) : s +++ "" = s.
Proof. induction s as [|c s IH]; simpl; [reflexivity | now rewrite IH]. Qed.

Lemma append_assoc (a b c : str) : (a +++ b) +++ c = a +++ (b +++ c).
Proof. induction a as [|x a IH]; simpl; [reflexivity | now rewrite IH]. Qed.

Lemma length_append (a b : str) :
  String.length (a +++ b) = String.length a + String.length b.
Proof. induction a as [|x a IH]; simpl; [reflexivity | now rewrite IH]. Qed.

Lemma prefix_append (p t : str) : String.prefix p (p +++ t) = true.
Proof.
  induction p as [|c p IH]; simpl.
  - now destruct t.
  - destruct (ascii_dec c c) as [_|N]; [exact IH | now elim N].
Qed.

Lemma prefix_split (p s : str) :
  String.prefix p s = true -> exists t, s = p +++ t.
Proof.
  revert s; induction p as [|c p IH]; intros s H.
  - now exists s.
  - destruct s as [|d s]; simpl in H; [discriminate|].
    destruct (ascii_dec c d) as [->|_]; [|discriminate].
    destruct (IH _ H) as [t ->]. now exists t.
Qed.

Lemma prefix_weaken (p l r : str) :
  String.prefix p l = true -> String.prefix p (l +++ r) = true.
Proof.
  intros H. destruct (prefix_split _ _ H) as [t ->].
  rewrite append_assoc. apply prefix_append.
Qed.

(** ** [replace] *)

Lemma replace_from_skip (u t old new : str) :
  replace_from (String.length u) (u +++ t) old new = replace_from 0 t old new.
Proof.
  induction u as [|c u IH]; simpl.
  - now destruct t.
  - exact IH.
Qed.

Lemma replace_from_match (c : ascii) (old' t new : str) :
  replace_from 0 (String c old' +++ t) (String c old') new
  = new +++ replace_from 0 t (String c old') new.
Proof.
  change (String c old' +++ t) with (String c (old' +++ t)).
  cbn [replace_from].
  change (String c (old' +++ t)) with (String c old' +++ t).
  rewrite prefix_append.
  replace (String.length (String c old') - 1) with (String.length old')
    by (cbn [String.length]; lia).
  now rewrite replace_from_skip.
Qed.

Lemma replace_from_nomatch (c : ascii) (s old new : str) :
  String.prefix old (String c s) = false ->
  replace_from 0 (String c s) old new = String c (replace_from 0 s old new).
Proof. intros H. cbn [replace_from]. now rewrite H. Qed.

(** ** [splitlines] *)

Lemma splitlines_cons_nobreak (c : ascii) (x : str) :
  is_linebreak c = false ->
  splitlines (String c x) = prepend_line (String c "") (splitlines x).
Proof. intros H. cbn [splitlines]. rewrite H. now destruct (splitlines x). Qed.

Lemma splitlines_append_nobreak (u x : str) :
  no_linebreak u = true -> u <> "" ->
  splitlines (u +++ x) = prepend_line u (splitlines x).
Proof.
  induction u as [|c u IH]; intros Hu Hne; [now elim Hne|].
  simpl in Hu. apply andb_true_iff in Hu as [Hc Hu].
  apply negb_true_iff in Hc.
  change (String c u +++ x) with (String c (u +++ x)).
  rewrite (splitlines_cons_nobreak _ _ Hc).
  destruct u as [|d u].
  - reflexivity.
  - rewrite IH by (trivial; discriminate).
    now destruct (splitlines x).
Qed.

Lemma splitlines_first_prefix (s l : str) (ls : list str) :
  splitlines s = l :: ls -> exists r, s = l +++ r.
Proof.
  revert l ls; induction s as [|c s IH]; intros l ls H; [discriminate|].
  cbn [splitlines] in H.
  destruct (is_linebreak c).
  - injection H as <- _. now exists (String c s).
  - destruct (splitlines s) as [|l' ls'] eqn:E.
    + injection H as <- _. destruct s as [|d s]; [now exists ""|].
      exfalso. cbn [splitlines] in E.
      destruct (is_linebreak d); [discriminate|].
      now destruct (splitlines s).
    + injection H as <- _. destruct (IH _ _ eq_refl) as [r ->].
      now exists r.
Qed.

Lemma prefix_head_nobreak (old s : str) (c : ascii) :
  no_linebreak old = true -> old <> "" ->
  String.prefix old (String c s) = true -> is_linebreak c = false.
Proof.
  intros Hnb Hne H. destruct old as [|d old]; [now elim Hne|].
  simpl in H. destruct (ascii_dec d c) as [->|_]; [|discriminate].
  simpl in Hnb. apply andb_true_iff in Hnb as [Hc _].
  now apply negb_true_iff in Hc.
Qed.

(** [replace] works line by line when neither string holds a line
    boundary. *)
Lemma splitlines_replace_from (old new : str) :
  old <> "" -> new <> "" ->
  no_linebreak old = true -> no_linebreak new = true ->
  forall s,
    splitlines (replace_from 0 s old new)
    = List.map (fun l => replace_from 0 l old new) (splitlines s).
Proof.
  intros Hold Hnew Hnbo Hnbn s.
  remember (String.length s) as n eqn:Hn.
  revert s Hn. induction n as [n IH] using lt_wf_ind. intros s Hn.
  destruct s as [|c s]; [reflexivity|].
  destruct (String.prefix old (String c s)) eqn:Hp.
  - (* a match at the head *)
    destruct (prefix_split _ _ Hp) as [t Ht]. rewrite Ht.
    destruct old as [|o old']; [now elim Hold|].
    rewrite replace_from_match.
    rewrite !splitlines_append_nobreak by (trivial; discriminate).
    rewrite (IH (String.length t)); [|rewrite Hn, Ht, length_append; simpl; lia|reflexivity].
    destruct (splitlines t) as [|l ls]; cbn [prepend_line List.map].
    + rewrite <- (append_nil_r (String o old')) at 1.
      rewrite replace_from_match. simpl. now rewrite append_nil_r.
    + now rewrite replace_from_match.
  - rewrite (replace_from_nomatch _ _ _ _ Hp).
    destruct (is_linebreak c) eqn:Hc.
    + (* a line boundary *)
      cbn [splitlines]. rewrite Hc. cbn [List.map].
      assert (Hnil : replace_from 0 "" old new = "") by reflexivity.
      rewrite Hnil. f_equal.
      destruct s as [|d s]; [reflexivity|].
      destruct (Ascii.eqb c CR && Ascii.eqb d LF)%bool eqn:Hcrlf.
      * apply andb_true_iff in Hcrlf as [Hc' Hd].
        apply Ascii.eqb_eq in Hd. subst d.
        assert (Hq : String.prefix old (String LF s) = false).
        { destruct (String.prefix old (String LF s)) eqn:Hq; [|reflexivity].
          now apply (prefix_head_nobreak _ _ _ Hnbo Hold) in Hq. }
        rewrite (replace_from_nomatch _ _ _ _ Hq).
        rewrite Hc', Ascii.eqb_refl. cbn [andb].
        apply (IH (String.length s)); [simpl in Hn; lia | reflexivity].
      * rewrite <- (IH (String.length (String d s)));
          [|simpl in Hn |- *; lia | reflexivity].
        destruct (String.prefix old (String d s)) eqn:Hq.
        -- destruct (prefix_split _ _ Hq) as [t Ht]. rewrite Ht.
           destruct old as [|o old']; [now elim Hold|].
           rewrite replace_from_match.
           destruct new as [|e new']; [now elim Hnew|].
           change (String e new' +++ replace_from 0 t (String o old') (String e new'))
             with (String e (new' +++ replace_from 0 t (String o old') (String e new'))).
           simpl in Hnbn. apply andb_true_iff in Hnbn as [He _].
           apply negb_true_iff in He.
           destruct (Ascii.eqb c CR && Ascii.eqb e LF)%bool eqn:Hce; [|reflexivity].
           apply andb_true_iff in Hce as [_ He']. apply Ascii.eqb_eq in He'.
           subst e. discriminate.
        -- rewrite (replace_from_nomatch _ _ _ _ Hq). now rewrite Hcrlf.
    + (* an ordinary character *)
      rewrite !(splitlines_cons_nobreak _ _ Hc).
      rewrite (IH (String.length s)); [|simpl in Hn; lia|reflexivity].
      destruct (splitlines s) as [|l ls] eqn:E; cbn [prepend_line List.map].
      * destruct s as [|d s];
          [now rewrite (replace_from_nomatch _ _ _ _ Hp)|].
        exfalso. cbn [splitlines] in E.
        destruct (is_linebreak d); [discriminate|].
        now destruct (splitlines s).
      * f_equal. change (String c "" +++ l) with (String c l).
        rewrite replace_from_nomatch; [reflexivity|].
        destruct (splitlines_first_prefix _ _ _ E) as [r Hr].
        destruct (String.prefix old (String c l)) eqn:Hq; [|reflexivity].
        rewrite <- Hp, Hr.
        change (String c (l +++ r)) with (String c l +++ r).
        symmetry. now apply prefix_weaken.
Qed.

End StringLemmas.

(* ================================================================== *)
(** * Lemmas on running programs *)
(* ================================================================== *)

Section RunLemmas.

Context {S : Type} (env : environment S).

Lemma run_bind {A B : Type} (p : prog A) (f : A -> prog B) (s : S) :
  run env (bind p f) s =
  match run env p s with
  | (Returned a, s1, t1) =>
      let '(o, s2, t2) := run env (f a) s1 in (o, s2, t1 ++ t2)
  | (Raised e, s1, t1) => (Raised e, s1, t1)
  end.
Proof.
  revert s; induction p as [a|e|c k IH]; intros s; cbn [bind run].
  - now destruct (run env (f a) s) as [[o s2] t2].
  - reflexivity.
  - destruct (env c s) as [r s1]. rewrite IH.
    destruct (run env (k r) s1) as [[[a|e] s2] t2]; [|reflexivity].
    now destruct (run env (f a) s2) as [[o s3] t3].
Qed.

Lemma run_try_except {A : Type} (p : prog A) (h : exn -> option (prog A)) (s : S) :
  run env (try_except p h) s =
  match run env p s with
  | (Returned a, s1, t1) => (Returned a, s1, t1)
  | (Raised e, s1, t1) =>
      match h e with
      | Some q => let '(o, s2, t2) := run env q s1 in (o, s2, t1 ++ t2)
      | None => (Raised e, s1, t1)
      end
  end.
Proof.
  revert s; induction p as [a|e|c k IH]; intros s; cbn [try_except run].
  - reflexivity.
  - destruct (h e) as [q|]; [|reflexivity].
    now destruct (run env q s) as [[o s2] t2].
  - destruct (env c s) as [r s1]. rewrite IH.
    destruct (run env (k r) s1) as [[[a|e] s2] t2]; [reflexivity|].
    destruct (h e) as [q|]; [|reflexivity].
    now destruct (run env q s2) as [[o s3] t3].
Qed.

Lemma run_finally {A : Type} (p : prog A) (cleanup : prog unit) (s : S) :
  run env (finally p cleanup) s =
  match run env p s with
  | (Returned a, s1, t1) =>
      let '(o, s2, t2) := run env (cleanup ;; Ret a) s1 in (o, s2, t1 ++ t2)
  | (Raised e, s1, t1) =>
      let '(o, s2, t2) := run env (cleanup ;; Raise e) s1 in (o, s2, t1 ++ t2)
  end.
Proof.
  revert s; induction p as [a|e|c k IH]; intros s; cbn [finally run].
  - now destruct (run env (cleanup;; Ret a) s) as [[o s2] t2].
  - now destruct (run env (cleanup;; Raise e) s) as [[o s2] t2].
  - destruct (env c s) as [r s1]. rewrite IH.
    destruct (run env (k r) s1) as [[[a|e] s2] t2].
    + now destruct (run env (cleanup;; Ret a) s2) as [[o s3] t3].
    + now destruct (run env (cleanup;; Raise e) s2) as [[o s3] t3].
Qed.

Lemma run_print (text : str) (s : S) :
  run env (print text) s = (Returned tt, snd (env (Print text) s), [(Print text, Done)]).
Proof. unfold print. cbn [run]. now destruct (env (Print text) s) as [[] s1]. Qed.

End RunLemmas.

(* ================================================================== *)
(** * [main] on a foreign platform or without administrator rights *)
(* ================================================================== *)

(** C8.  On a platform whose [os.name] is not ["nt"], [main] makes one
    call, the [print] of its message, and returns: no file is removed,
    no snapshot searched, no registry call made. *)
Theorem main_not_windows (P : platform) (S : Type) (env : environment S) (s : S) :
  String.eqb (os_name P) "nt" = false ->
  run env (main P) s
  = (Returned tt,
     snd (env (Print "This script is intended for Windows.") s),
     [(Print "This script is intended for Windows.", Done)]).
Proof.
  intros H. unfold main. rewrite H. cbn [negb]. apply run_print.
Qed.

(** C9.  When [is_admin()] is [False], the check having answered zero
    or raised, [main] prints and returns; its only calls are the check
    and the [print]. *)
Theorem main_not_admin (P : platform) (S : Type) (env : environment S) (s : S) :
  String.eqb (os_name P) "nt" = true ->
  not_admin_answer (fst (env IsUserAnAdmin s)) ->
  run env is_admin s
  = (Returned false, snd (env IsUserAnAdmin s),
     [(IsUserAnAdmin, answer_of IsUserAnAdmin (fst (env IsUserAnAdmin s)))])
  /\ run env (main P) s
     = (Returned tt,
        snd (env (Print "Run as Administrator!") (snd (env IsUserAnAdmin s))),
        [(IsUserAnAdmin, answer_of IsUserAnAdmin (fst (env IsUserAnAdmin s)));
         (Print "Run as Administrator!", Done)]).
Proof.
  intros Hnt Hadm.
  assert (Ha : run env is_admin s
               = (Returned false, snd (env IsUserAnAdmin s),
                  [(IsUserAnAdmin,
                    answer_of IsUserAnAdmin (fst (env IsUserAnAdmin s)))])).
  { unfold is_admin. cbn [try_except run].
    destruct (env IsUserAnAdmin s) as [[e|n] s1]; cbn in Hadm |- *.
    - unfold except_Exception. now rewrite Hadm.
    - now subst n. }
  split; [exact Ha|].
  unfold main. rewrite Hnt. cbn [negb].
  rewrite run_bind, Ha. cbn [negb]. now rewrite run_print.
Qed.

Lemma main_not_windows_witness :
  run (world_env quiet_world) (main posix_platform) tt
  = (Returned tt, tt, [(Print "This script is intended for Windows.", Done)]).
Proof.
  exact (main_not_windows posix_platform unit (world_env quiet_world) tt eq_refl).
Defined.

Lemma main_not_admin_witness :
  run (world_env not_admin_world) is_admin tt
  = (Returned false, tt, [(IsUserAnAdmin, AInt 0)])
  /\ run (world_env not_admin_world) (main demo_platform) tt
     = (Returned tt, tt,
        [(IsUserAnAdmin, AInt 0); (Print "Run as Administrator!", Done)]).
Proof.
  exact (main_not_admin demo_platform unit (world_env not_admin_world) tt
           eq_refl eq_refl).
Defined.

(* ================================================================== *)
(** * Tactics for case analysis on the answers of the environment *)
(* ================================================================== *)

Ltac rsimpl :=
  cbn [run bind lift try_except finally answer_of answer_or_exn fst snd
       negb andb orb result trace final calls List.map List.app
       is_Exception is_FileNotFoundError is_CalledProcessError is_RuntimeError
       except_Exception except_all print subprocess_run].

Ltac env_step env :=
  match goal with
  | |- context [env ?c ?s] =>
      let r := fresh "r" in
      let s' := fresh "s" in
      destruct (env c s) as [r s']; cbn in r;
      try match type of r with
          | (_ + _)%type => destruct r as [?e|?v]
          | bool => destruct r
          | unit => destruct r
          end
  end.

Ltac exn_cases :=
  match goal with
  | |- context [is_Exception ?e] => is_var e; destruct e
  | |- context [is_FileNotFoundError ?e] => is_var e; destruct e
  | |- context [is_CalledProcessError ?e] => is_var e; destruct e
  | |- context [is_RuntimeError ?e] => is_var e; destruct e
  end.

Ltac pair_cases :=
  match goal with
  | v : (_ * _)%type |- _ => destruct v
  end.

Ltac run_cases env :=
  repeat first [progress rsimpl | env_step env | exn_cases | pair_cases].

Ltac in_trace :=
  repeat match goal with
  | H : In _ (_ :: _) |- _ => destruct H as [H|H]
  | H : In _ [] |- _ => destruct H
  | H : (_, _) = (_, _) |- _ =>
      first [discriminate H | inversion H; subst; clear H]
  end.

Ltac leaf :=
  repeat match goal with
  | |- _ /\ _ => split
  | |- _ <-> _ => split
  | |- _ -> _ => intro
  | H : _ \/ _ |- _ => destruct H
  | H : exists _, _ |- _ => destruct H
  | H : _ /\ _ |- _ => destruct H
  | H : ?a = ?a -> _ |- _ => specialize (H eq_refl)
  | H : In _ _ |- _ => progress in_trace
  | H : @eq (outcome _) _ _ |- _ => discriminate H
  | H : @eq bool _ _ |- _ => discriminate H
  | |- _ = _ => reflexivity
  | |- exists _, _ => solve [do 3 eexists; simpl; eauto]
  end.

Ltac rsimpl2 :=
  first [ progress rsimpl
        | progress unfold except_Exception, except_all ].

Ltac if_cases :=
  match goal with
  | |- context [if ?b then _ else _] =>
      let E := fresh "E" in destruct b eqn:E
  | |- context [match ?b with Some _ => _ | None => _ end] =>
      let E := fresh "E" in destruct b eqn:E
  end.

Ltac run_paths env :=
  repeat first [rsimpl2 | env_step env | pair_cases | if_cases].

Ltac in_list := simpl; repeat first [left; reflexivity | right].

Ltac leaf2 :=
  repeat match goal with
  | |- _ /\ _ => split
  | |- _ <-> _ => split
  | |- forall _, _ => intro
  | H : _ \/ _ |- _ => destruct H
  | H : exists _, _ |- _ => destruct H
  | H : _ /\ _ |- _ => destruct H
  | H : In _ _ |- _ => progress in_trace
  | H : @eq (outcome _) _ _ |- _ => discriminate H
  | H : negb _ = false |- _ => apply negb_false_iff in H
  | H : negb _ = true |- _ => apply negb_true_iff in H
  | H : ?a = true, H' : ?a = false |- _ => rewrite H in H'; discriminate H'
  | |- _ = _ => reflexivity
  | |- exists _, _ => eexists
  | |- In _ _ => solve [in_list]
  end.


(* ================================================================== *)
(** * [modify_hive_value] *)
(* ================================================================== *)

(** What [modify_hive_value] returns, by the answers it got. *)
Lemma modify_hive_value_spec (P : platform) (SIMULATION_MODE : bool)
    (mount : str) (S : Type) (env : environment S) (s : S) :
  let x := run env (modify_hive_value P SIMULATION_MODE mount) s in
  (key_or_value_missing mount (trace x) ->
   result x = Returned false
   /\ existsb is_SetValueEx (calls (trace x)) = false)
  /\ (result x = Returned true <->
      old_value_read (trace x)
      /\ (SIMULATION_MODE = false -> new_value_written (trace x))).
Proof.
  cbv zeta.
  unfold modify_hive_value, key_or_value_missing, hive_key_path,
    old_value_read, new_value_written.
  run_cases env.
  all: try (destruct SIMULATION_MODE; run_cases env).
  all: leaf.
Qed.

(** C10, as the code has it.  When [OpenKey] or [QueryValueEx] raises
    [FileNotFoundError], [modify_hive_value] returns [False] and never
    calls [SetValueEx]; it returns [True] exactly when the old value
    was read and, in live mode, the new value was then written
    without an exception. *)
Theorem modify_hive_value_result (P : platform) (SIMULATION_MODE : bool)
    (mount : str) (S : Type) (env : environment S) (s : S) :
  let x := run env (modify_hive_value P SIMULATION_MODE mount) s in
  (key_or_value_missing mount (trace x) ->
   result x = Returned false
   /\ existsb is_SetValueEx (calls (trace x)) = false)
  /\ (result x = Returned true <->
      old_value_read (trace x)
      /\ (SIMULATION_MODE = false -> new_value_written (trace x))).
Proof. exact (modify_hive_value_spec P SIMULATION_MODE mount S env s). Qed.

(** On [quiet_world] in live mode the old value is read, the new one
    written, and [True] returned. *)
Lemma modify_hive_value_result_witness :
  let x := run (world_env quiet_world)
             (modify_hive_value demo_platform false TEMP_MOUNT_NAME) tt in
  result x = Returned true
  /\ old_value_read (trace x)
  /\ (false = false -> new_value_written (trace x)).
Proof.
  cbv zeta. split; [vm_compute; reflexivity|].
  apply (proj1 (proj2 (modify_hive_value_result demo_platform false
                         TEMP_MOUNT_NAME unit (world_env quiet_world) tt))).
  vm_compute. reflexivity.
Defined.

(** C10 as stated fails in live mode: on a hive that cannot be
    written, the old value is read successfully and the function
    returns [False]. *)
Lemma modify_hive_value_read_but_false :
  let x := run (world_env read_only_hive_world)
             (modify_hive_value demo_platform false TEMP_MOUNT_NAME) tt in
  In (QueryValueEx 7%Z OLD_VALUE_NAME, AValue (RegBytes "01") 3%Z) (trace x)
  /\ result x = Returned false.
Proof. cbv zeta. split; [right; left; reflexivity | reflexivity]. Qed.

(* ================================================================== *)
(** * Properties of every call a program can make *)
(* ================================================================== *)

Section Always.
Context {S : Type} (env : environment S) (Q : call -> Prop).

Lemma always_run {A : Type} (p : prog A) (s : S) :
  always Q p -> Forall Q (calls (trace (run env p s))).
Proof.
  revert s; induction p as [a|e|c k IH]; intros s H; cbn [run].
  - constructor.
  - constructor.
  - destruct H as [Hc Hk]. destruct (env c s) as [r s1].
    specialize (IH r s1 (Hk r)).
    destruct (run env (k r) s1) as [[o s2] tr]. cbn in *.
    now constructor.
Qed.

Lemma always_bind {A B : Type} (p : prog A) (f : A -> prog B) :
  always Q p -> (forall a, always Q (f a)) -> always Q (bind p f).
Proof.
  intros Hp Hf. induction p as [a|e|c k IH]; cbn [bind always] in *.
  - apply Hf.
  - exact I.
  - destruct Hp as [Hc Hk]. split; [exact Hc|]. intros r. now apply IH.
Qed.

Lemma always_try_except {A : Type} (p : prog A) (h : exn -> option (prog A)) :
  always Q p -> (forall e q, h e = Some q -> always Q q) ->
  always Q (try_except p h).
Proof.
  intros Hp Hh. induction p as [a|e|c k IH]; cbn [try_except always] in *.
  - exact I.
  - destruct (h e) as [q|] eqn:E; [now apply (Hh e)|exact I].
  - destruct Hp as [Hc Hk]. split; [exact Hc|]. intros r. now apply IH.
Qed.

Lemma always_finally {A : Type} (p : prog A) (cleanup : prog unit) :
  always Q p -> always Q cleanup -> always Q (finally p cleanup).
Proof.
  intros Hp Hc. induction p as [a|e|c k IH]; cbn [finally always] in *.
  - now apply always_bind.
  - now apply always_bind.
  - destruct Hp as [Hq Hk]. split; [exact Hq|]. intros r. now apply IH.
Qed.

Lemma always_lift {A : Type} (r : exn + A) : always Q (lift r).
Proof. now destruct r. Qed.

Lemma always_print (text : str) : Q (Print text) -> always Q (print text).
Proof. intros H. split; [exact H|]. intros _. exact I. Qed.

Lemma always_subprocess_run (argv : list str) (check : bool) :
  Q (Subprocess argv) -> always Q (subprocess_run argv check).
Proof.
  intros H. split; [exact H|]. intros r.
  apply always_bind; [apply always_lift|].
  intros cp. now destruct (check && negb (returncode cp =? 0)%Z).
Qed.

End Always.

Ltac always_step :=
  match goal with
  | |- always _ (bind _ _) => apply always_bind; [|intro]
  | |- always _ (try_except _ _) =>
      apply always_try_except;
      [|let e := fresh "e" in let q := fresh "q" in let H := fresh "H" in
        intros e q H;
        unfold except_Exception, except_all in H;
        repeat match type of H with
               | (if ?b then _ else _) = Some _ => destruct b
               end;
        first [discriminate H | injection H as <-]]
  | |- always _ (finally _ _) => apply always_finally
  | |- always _ (lift _) => apply always_lift
  | |- always _ (print _) => apply always_print
  | |- always _ (subprocess_run _ _) => apply always_subprocess_run
  | |- always _ (Call _ _) => cbn [always]; split; [|intro]
  | |- always _ (Ret _) => exact I
  | |- always _ (Raise _) => exact I
  | |- always _ (if ?b then _ else _) => destruct b
  | |- always _ (match ?x with _ => _ end) => destruct x
  | |- always _ (let '(_, _) := ?x in _) => destruct x
  | |- _ /\ _ => split
  | |- forall _, _ => intro
  end.



Ltac harmless_tac :=
  first [exact I
        | unfold harmless, generated_files; cbn; tauto ].

Ltac always_tac := repeat always_step; try harmless_tac.

(** ** Simulation mode: the three functions of C2 *)

Lemma backup_harmless P : always (harmless P) (backup_live_hkcu_key P).
Proof. unfold backup_live_hkcu_key. always_tac. Qed.

Lemma modify_hive_value_harmless P mount :
  always (harmless P) (modify_hive_value P true mount).
Proof. unfold modify_hive_value. cbn [negb]. always_tac. Qed.

Lemma process_regfile_harmless P path :
  always (harmless P) (process_regfile P true path).
Proof.
  unfold process_regfile. cbn [negb].
  always_tac. all: try apply backup_harmless.
Qed.

Lemma export_and_save_harmless P mount :
  always (harmless P) (export_and_save P true mount).
Proof. unfold export_and_save. cbn [negb]. always_tac. Qed.

Lemma harmless_no_live_change P c :
  harmless P c -> is_SetValueEx c = false /\ is_reg_import c = false.
Proof.
  unfold harmless, is_reg_import.
  destruct c; cbn; try tauto.
  destruct (subprocess_effect argv); tauto.
Qed.

(** ** Simulation mode: the whole of [main] *)

Ltac nlc_tac := try (split; reflexivity).

Ltac nlc := repeat always_step; nlc_tac.

Lemma always_weaken {A : Type} (Q Q' : call -> Prop) (p : prog A) :
  (forall c, Q c -> Q' c) -> always Q p -> always Q' p.
Proof.
  intros HQ. induction p as [a|e|c k IH]; cbn [always]; auto.
  intros [Hc Hk]. split; auto.
Qed.

Lemma nlc_of_harmless {A : Type} P (p : prog A) :
  always (harmless P) p -> always no_live_change p.
Proof. apply always_weaken. intros c. apply harmless_no_live_change. Qed.

Lemma is_admin_nlc : always no_live_change is_admin.
Proof. unfold is_admin. nlc. Qed.

Lemma get_user_sid_nlc : always no_live_change get_user_sid.
Proof. unfold get_user_sid. nlc. Qed.

Lemma remove_leftovers_nlc files : always no_live_change (remove_leftovers files).
Proof. induction files as [|f more IH]; cbn [remove_leftovers]; nlc. exact IH. Qed.

Lemma collect_snapshot_dirs_nlc l : always no_live_change (collect_snapshot_dirs l).
Proof. induction l as [|d more IH]; cbn [collect_snapshot_dirs]; nlc; exact IH. Qed.

Lemma find_restore_point_snapshot_dirs_nlc :
  always no_live_change find_restore_point_snapshot_dirs.
Proof.
  unfold find_restore_point_snapshot_dirs. nlc. apply collect_snapshot_dirs_nlc.
Qed.

Lemma rp_is_before_cutoff_nlc P d : always no_live_change (rp_is_before_cutoff P d).
Proof. unfold rp_is_before_cutoff. nlc. Qed.

Lemma filter_before_cutoff_nlc P l : always no_live_change (filter_before_cutoff P l).
Proof.
  induction l as [|t more IH]; cbn [filter_before_cutoff]; nlc.
  - apply rp_is_before_cutoff_nlc.
  - exact IH.
Qed.

Lemma mtime_keys_nlc l : always no_live_change (mtime_keys l).
Proof. induction l as [|t more IH]; cbn [mtime_keys]; nlc. exact IH. Qed.

Lemma sort_rps_newest_first_nlc l : always no_live_change (sort_rps_newest_first l).
Proof. unfold sort_rps_newest_first. nlc. apply mtime_keys_nlc. Qed.

Lemma find_hive_entry_nlc d sid l : always no_live_change (find_hive_entry d sid l).
Proof. induction l as [|t more IH]; cbn [find_hive_entry]; nlc; exact IH. Qed.

Lemma find_user_hive_in_snapshot_nlc d sid :
  always no_live_change (find_user_hive_in_snapshot d sid).
Proof. unfold find_user_hive_in_snapshot. nlc. apply find_hive_entry_nlc. Qed.

Lemma reg_load_nlc h m : always no_live_change (reg_load h m).
Proof. unfold reg_load. nlc. Qed.

Lemma reg_unload_nlc m : always no_live_change (reg_unload m).
Proof. unfold reg_unload. nlc. Qed.

Lemma try_restore_point_nlc P sid t :
  always no_live_change (try_restore_point P true sid t).
Proof.
  unfold try_restore_point. destruct t as [rp_dir snapshot_dir].
  nlc.
  all: first [ apply find_user_hive_in_snapshot_nlc | apply reg_load_nlc
             | apply reg_unload_nlc
             | apply (nlc_of_harmless P), modify_hive_value_harmless
             | apply (nlc_of_harmless P), export_and_save_harmless ].
Qed.

Lemma restore_point_loop_nlc P sid l :
  always no_live_change (restore_point_loop P true sid l).
Proof.
  induction l as [|t more IH]; cbn [restore_point_loop]; nlc.
  - apply try_restore_point_nlc.
  - exact IH.
Qed.

Lemma search_old_restore_points_nlc P sid :
  always no_live_change (search_old_restore_points P true sid).
Proof.
  unfold search_old_restore_points. nlc.
  all: first [ apply find_restore_point_snapshot_dirs_nlc
             | apply filter_before_cutoff_nlc
             | apply sort_rps_newest_first_nlc
             | apply restore_point_loop_nlc ].
Qed.

Lemma vss_scan_nlc P lines cur shadows :
  always no_live_change (vss_scan P lines cur shadows).
Proof.
  revert cur shadows. induction lines as [|l more IH]; intros cur shadows;
    cbn [vss_scan]; nlc; apply IH.
Qed.

Lemma list_vss_snapshots_before_cutoff_nlc P :
  always no_live_change (list_vss_snapshots_before_cutoff P).
Proof. unfold list_vss_snapshots_before_cutoff. nlc. apply vss_scan_nlc. Qed.

Lemma vss_error_handler_nlc P shadow e :
  always no_live_change (vss_error_handler P shadow e).
Proof. unfold vss_error_handler. nlc. apply reg_unload_nlc. Qed.

Lemma try_vss_snapshot_nlc P username found shadow :
  always no_live_change (try_vss_snapshot P true username found shadow).
Proof.
  unfold try_vss_snapshot. nlc.
  all: first [ apply reg_load_nlc | apply reg_unload_nlc
             | apply vss_error_handler_nlc
             | apply (nlc_of_harmless P), modify_hive_value_harmless
             | apply (nlc_of_harmless P), export_and_save_harmless ].
Qed.

Lemma vss_snapshot_loop_nlc P username found l :
  always no_live_change (vss_snapshot_loop P true username found l).
Proof.
  revert found. induction l as [|t more IH]; intros found;
    cbn [vss_snapshot_loop]; nlc.
  - apply try_vss_snapshot_nlc.
  - apply IH.
Qed.

Lemma search_vss_snapshots_nlc P :
  always no_live_change (search_vss_snapshots P true).
Proof.
  unfold search_vss_snapshots. nlc.
  all: first [ apply list_vss_snapshots_before_cutoff_nlc
             | apply vss_snapshot_loop_nlc ].
Qed.

Lemma search_snapshots_nlc P sid :
  always no_live_change (search_snapshots P true sid).
Proof.
  unfold search_snapshots. nlc.
  all: first [ apply (nlc_of_harmless P), backup_harmless
             | apply search_old_restore_points_nlc
             | apply search_vss_snapshots_nlc ].
Qed.
Section AlwaysWhen.
Context {S : Type} (env : environment S).
Context (G : call -> answer -> Prop) (Q : call -> Prop).

Lemma always_when_run {A : Type} (p : prog A) (s : S) :
  always_when G Q p ->
  Forall (fun ev => G (fst ev) (snd ev)) (trace (run env p s)) ->
  Forall Q (calls (trace (run env p s))).
Proof.
  revert s; induction p as [a|e|c k IH]; intros s H HG; cbn [run] in *.
  - constructor.
  - constructor.
  - destruct H as [Hc Hk]. destruct (env c s) as [r s1].
    specialize (IH r s1).
    destruct (run env (k r) s1) as [[o s2] tr]. cbn in *.
    inversion HG as [|ev tr' Hev Htr]; subst.
    constructor; [exact Hc|]. apply IH; [apply Hk; exact Hev | exact Htr].
Qed.

Lemma always_when_of_always {A : Type} (p : prog A) :
  always Q p -> always_when G Q p.
Proof.
  induction p as [a|e|c k IH]; cbn [always always_when]; auto.
  intros [Hc Hk]. split; auto.
Qed.

Lemma always_when_bind {A B : Type} (p : prog A) (f : A -> prog B) :
  always_when G Q p -> (forall a, always_when G Q (f a)) ->
  always_when G Q (bind p f).
Proof.
  intros Hp Hf. induction p as [a|e|c k IH]; cbn [bind always_when] in *.
  - apply Hf.
  - exact I.
  - destruct Hp as [Hc Hk]. split; [exact Hc|]. intros r Hr. now apply IH, Hk.
Qed.

End AlwaysWhen.

Lemma main_simulation_nlc P :
  always_when simulation_requested no_live_change (main P).
Proof.
  unfold main.
  destruct (negb (os_name P =? "nt")%string).
  { apply always_when_of_always. nlc. }
  apply always_when_bind; [apply always_when_of_always, is_admin_nlc|].
  intros admin. destruct (negb admin).
  { apply always_when_of_always. nlc. }
  apply always_when_bind; [apply always_when_of_always, remove_leftovers_nlc|].
  intros _. cbn [bind always_when]. split; [split; reflexivity|].
  intros [e|a] Ha; cbn [lift bind always_when]; [exact I|].
  cbn in Ha. rewrite Ha. unfold SIMULATION_MODE_default.
  apply always_when_of_always. nlc.
  all: first [ apply get_user_sid_nlc
             | apply (nlc_of_harmless P), process_regfile_harmless
             | apply search_snapshots_nlc ].
Qed.

Lemma existsb_false_of_Forall {A : Type} (f : A -> bool) (l : list A) :
  Forall (fun x => f x = false) l -> existsb f l = false.
Proof.
  induction 1 as [|x l Hx _ IH]; cbn [existsb]; [reflexivity|].
  now rewrite Hx, IH.
Qed.

Lemma modify_hive_value_queries (P : platform) (sim : bool) (mount : str)
    (S : Type) (env : environment S) (s : S) (key : hkey) :
  let x := run env (modify_hive_value P sim mount) s in
  In (OpenKey (hive_key_path mount), AInt key) (trace x) ->
  In (QueryValueEx key OLD_VALUE_NAME) (calls (trace x)).
Proof.
  cbv zeta. unfold modify_hive_value, hive_key_path.
  run_cases env.
  all: try (destruct sim; run_cases env).
  all: intros H; in_trace; simpl; auto.
Qed.


(* ================================================================== *)
(** * The search of [main]: restore points before VSS *)
(* ================================================================== *)

Lemma search_snapshots_trace (P : platform) (SIMULATION_MODE : bool)
    (sid : str) (S : Type) (env : environment S) (s : S) :
  let b := run env (backup_live_hkcu_key P) s in
  let rp := run env (search_old_restore_points P SIMULATION_MODE sid) (final b) in
  let vss := run env (search_vss_snapshots P SIMULATION_MODE) (final rp) in
  let all := run env (search_snapshots P SIMULATION_MODE sid) s in
  match result b, result rp, result vss with
  | Raised e, _, _ =>
      result all = Raised e /\ trace all = trace b
  | Returned _, Raised e, _ =>
      result all = Raised e /\ trace all = trace b ++ trace rp
  | Returned _, Returned true, _ =>
      result all = Returned tt /\ trace all = trace b ++ trace rp
  | Returned _, Returned false, Raised e =>
      result all = Raised e /\ trace all = trace b ++ trace rp ++ trace vss
  | Returned _, Returned false, Returned true =>
      result all = Returned tt /\ trace all = trace b ++ trace rp ++ trace vss
  | Returned _, Returned false, Returned false =>
      result all = Returned tt
      /\ trace all = trace b ++ trace rp ++ trace vss ++ [not_found_report]
  end.
Proof.
  cbv zeta. unfold search_snapshots.
  rewrite run_bind.
  destruct (run env (backup_live_hkcu_key P) s) as [[[[]|e] s1] t1];
    cbn [result trace final fst snd]; [|now split].
  rewrite run_bind.
  destruct (run env (search_old_restore_points P SIMULATION_MODE sid) s1)
    as [[[found|e] s2] t2]; cbn [result trace final fst snd]; [|now split].
  destruct found.
  - cbn [bind run negb result trace fst snd]. now rewrite app_nil_r.
  - cbn [negb]. rewrite run_bind.
    destruct (run env (search_vss_snapshots P SIMULATION_MODE) s2)
      as [[[found|e] s3] t3]; cbn [result trace final fst snd]; [|now split].
    destruct found.
    + cbn [bind run negb result trace fst snd]. now rewrite app_nil_r.
    + cbn [negb]. rewrite run_print. cbn [result trace fst snd]. split; reflexivity.
Qed.

(* ================================================================== *)
(** * [list_vss_snapshots_before_cutoff] *)
(* ================================================================== *)

Lemma ctime_known_skip P done current current' raw :
  cur_ctime current' = cur_ctime current ->
  is_ctime_line (strip raw) = false ->
  is_volume_line (strip raw) = false ->
  ctime_known P done current ->
  ctime_known P (done ++ [raw]) current'.
Proof.
  intros Hc Hd Hv H utc Hu. rewrite Hc in Hu.
  destruct (H utc Hu) as (before & date_line & between & -> & H1 & H2 & H3).
  exists before, date_line, (between ++ [raw]).
  rewrite <- app_assoc. cbn [app]. repeat split; trivial.
  apply Forall_app. split; [exact H3|]. now repeat constructor.
Qed.

Lemma vss_scan_sound (P : platform) (S : Type) (env : environment S) :
  forall lines done current shadows s res,
    ctime_known P done current ->
    Forall (created_before_cutoff P (done ++ lines)) shadows ->
    result (run env (vss_scan P lines current shadows) s) = Returned res ->
    Forall (created_before_cutoff P (done ++ lines)) res.
Proof.
  induction lines as [|raw more IH]; intros done current shadows s res Hk Hs Hr.
  - cbn in Hr. now injection Hr as <-.
  - assert (Hall : done ++ raw :: more = (done ++ [raw]) ++ more)
      by (now rewrite <- app_assoc).
    rewrite Hall in *. cbn [vss_scan] in Hr.
    destruct (startswith (strip raw) "Shadow Copy ID:") eqn:Hid.
    { (* Shadow Copy ID *)
      eapply IH; [|exact Hs|exact Hr].
      apply (ctime_known_skip P done current); trivial.
      - unfold is_ctime_line, is_id_line. now rewrite Hid.
      - unfold is_volume_line, is_id_line. now rewrite Hid. }
    destruct (contains "at creation time:" (strip raw)) eqn:Hct.
    { (* creation time *)
      destruct (parse_creation_time P (creation_date_str (strip raw)))
        as [e|utc] eqn:Hp.
      - destruct (is_Exception e); [|discriminate Hr].
        rewrite run_bind, run_print in Hr.
        match type of Hr with
        | context [run env (vss_scan P more ?c ?sh) ?s1] =>
            pose proof (IH (done ++ [raw]) c sh s1) as IH';
            destruct (run env (vss_scan P more c sh) s1) as [[[r|e'] s2] t2]
        end; [|discriminate Hr].
        cbn in Hr. injection Hr as <-.
        apply IH'; [|exact Hs|reflexivity].
        intros u Hu. discriminate Hu.
      - eapply IH; [|exact Hs|exact Hr].
        intros u Hu. cbn in Hu. injection Hu as <-.
        exists done, raw, []. repeat split; trivial.
        unfold is_ctime_line, is_id_line. now rewrite Hid, Hct. }
    destruct (startswith (strip raw) "Shadow Copy Volume:") eqn:Hvol.
    { (* Shadow Copy Volume *)
      assert (Hempty : ctime_known P (done ++ [raw]) empty_current)
        by (intros u Hu; discriminate Hu).
      destruct (cur_ctime current) as [[ctime|]|] eqn:Hc;
        try (eapply IH; [exact Hempty|exact Hs|exact Hr]).
      rewrite run_bind, run_print in Hr.
      match type of Hr with
      | context [run env (vss_scan P more ?c ?sh) ?s1] =>
          pose proof (IH (done ++ [raw]) c sh s1) as IH';
          destruct (run env (vss_scan P more c sh) s1) as [[[r|e'] s2] t2]
      end; [|discriminate Hr].
      cbn in Hr. injection Hr as <-.
      apply IH'; [exact Hempty| |reflexivity].
      destruct (ctime <? CUTOFF_DATETIME)%Z eqn:Hlt; [|exact Hs].
      apply Forall_app. split; [exact Hs|]. constructor; [|constructor].
      destruct (Hk ctime Hc) as (before & date_line & between & -> & H1 & H2 & H3).
      exists before, date_line, between, raw, more, ctime.
      rewrite <- !app_assoc. cbn [app].
      repeat split; trivial.
      - now apply Z.ltb_lt.
      - unfold is_volume_line, is_id_line. now rewrite Hid, Hct, Hvol. }
    (* any other line *)
    eapply IH; [|exact Hs|exact Hr].
    apply (ctime_known_skip P done current); trivial.
    + unfold is_ctime_line, is_id_line. now rewrite Hid, Hct.
    + unfold is_volume_line, is_id_line. now rewrite Hid, Hct, Hvol.
Qed.

(** C3.  Every path [list_vss_snapshots_before_cutoff] returns comes
    from a volume line of the [vssadmin] output that follows a
    creation-time line, with no other creation-time or volume line in
    between, whose date was parsed, converted to UTC, and found
    strictly before the cutoff.  A volume line without such a line
    above it adds nothing. *)
Theorem list_vss_snapshots_before_cutoff_sound (P : platform) (S : Type)
    (env : environment S) (s : S) (shadows : list str) :
  let x := run env (list_vss_snapshots_before_cutoff P) s in
  result x = Returned shadows ->
  exists cp,
    In (Subprocess ["vssadmin"; "list"; "shadows"], AProcess cp) (trace x)
    /\ Forall (created_before_cutoff P (splitlines (stdout cp))) shadows.
Proof.
  cbv zeta. unfold list_vss_snapshots_before_cutoff.
  rewrite run_bind. unfold subprocess_run. cbn [run bind lift andb].
  destruct (env (Subprocess ["vssadmin"; "list"; "shadows"]) s) as [[e|cp] s1];
    cbn [lift bind run answer_of answer_or_exn result trace fst snd];
    [discriminate|].
  rewrite run_bind.
  pose proof (vss_scan_sound P S env (splitlines (stdout cp)) [] empty_current [] s1)
    as Hscan.
  destruct (run env (vss_scan P (splitlines (stdout cp)) empty_current []) s1)
    as [[[found|e] s2] t2]; cbn [result trace fst snd] in *; [|discriminate].
  assert (Hfound : Forall (created_before_cutoff P (splitlines (stdout cp))) found).
  { apply (Hscan found); [|constructor|reflexivity].
    intros u Hu. discriminate Hu. }
  destruct found as [|p ps].
  - rewrite run_bind, run_print. cbn [run result trace fst snd app].
    intros Hr. injection Hr as <-. exists cp. split; [now left|constructor].
  - cbn [run result trace fst snd app].
    intros Hr. injection Hr as <-. exists cp. split; [now left|exact Hfound].
Qed.

Lemma list_vss_snapshots_before_cutoff_witness :
  exists cp,
    In (Subprocess ["vssadmin"; "list"; "shadows"], AProcess cp)
      (trace (run (world_env two_shadows_world)
                (list_vss_snapshots_before_cutoff demo_platform) tt))
    /\ Forall (created_before_cutoff demo_platform (splitlines (stdout cp)))
         ["\\?\GLOBALROOT\Device\HarddiskVolumeShadowCopy1"].
Proof.
  apply (list_vss_snapshots_before_cutoff_sound demo_platform unit
           (world_env two_shadows_world) tt).
  vm_compute. reflexivity.
Defined.

(* ================================================================== *)
(** * The text processing of [export_and_save] *)
(* ================================================================== *)

Lemma after_block_length (ls : list str) :
  List.length (after_block ls) <= List.length ls.
Proof.
  induction ls as [|l ls IH]; cbn [after_block List.length]; [lia|].
  destruct (is_continuation l); cbn [List.length]; lia.
Qed.

(** More fuel than lines changes nothing. *)
Lemma duplicate_loop_fuel (fuel : nat) (lines : list str) :
  List.length lines <= fuel ->
  duplicate_loop fuel lines = duplicate_value_blocks lines.
Proof.
  unfold duplicate_value_blocks.
  remember (List.length lines) as n eqn:Hn.
  revert lines Hn fuel.
  induction n as [n IH] using lt_wf_ind. intros lines Hn fuel Hf.
  destruct lines as [|line rest]; cbn [List.length] in Hn; subst n.
  - now destruct fuel.
  - destruct fuel as [|fuel]; [lia|]. cbn [duplicate_loop].
    pose proof (after_block_length rest) as Hlen.
    destruct (is_old_value_line line).
    + rewrite (IH (List.length (after_block rest)) ltac:(lia) _ eq_refl fuel ltac:(lia)).
      now rewrite (IH (List.length (after_block rest)) ltac:(lia) _ eq_refl
                     (List.length rest) ltac:(lia)).
    + now rewrite (IH (List.length rest) ltac:(lia) _ eq_refl fuel ltac:(lia)).
Qed.

Lemma duplicate_value_blocks_nil : duplicate_value_blocks [] = [].
Proof. reflexivity. Qed.

(** One turn of the loop of [export_and_save]. *)
Lemma duplicate_value_blocks_cons (line : str) (rest : list str) :
  duplicate_value_blocks (line :: rest)
  = if is_old_value_line line then
      line :: block_continuations rest
        ++ new_block (line :: block_continuations rest)
        :: duplicate_value_blocks (after_block rest)
    else line :: duplicate_value_blocks rest.
Proof.
  unfold duplicate_value_blocks at 1. cbn [List.length duplicate_loop].
  pose proof (after_block_length rest) as Hlen.
  destruct (is_old_value_line line).
  - now rewrite duplicate_loop_fuel.
  - reflexivity.
Qed.

Lemma block_continuations_stop (l r : list str) (h : str) :
  is_continuation h = false ->
  block_continuations (l ++ h :: r) = block_continuations l
  /\ after_block (l ++ h :: r) = after_block l ++ h :: r.
Proof.
  intros Hh. induction l as [|x l [IH1 IH2]];
    cbn [app block_continuations after_block].
  - now rewrite Hh.
  - destruct (is_continuation x); [|now split].
    now rewrite IH1, IH2.
Qed.

(** A line that neither continues a block nor opens one separates the
    loop into two runs. *)
Lemma duplicate_value_blocks_split (pre post : list str) (h : str) :
  is_continuation h = false -> is_old_value_line h = false ->
  duplicate_value_blocks (pre ++ h :: post)
  = duplicate_value_blocks pre ++ h :: duplicate_value_blocks post.
Proof.
  intros Hc Ho.
  remember (List.length pre) as n eqn:Hn. revert pre Hn.
  induction n as [n IH] using lt_wf_ind. intros pre Hn.
  destruct pre as [|line rest]; cbn [app].
  - now rewrite duplicate_value_blocks_cons, Ho.
  - rewrite !duplicate_value_blocks_cons.
    destruct (block_continuations_stop rest post h Hc) as [H1 H2].
    destruct (is_old_value_line line).
    + rewrite H1, H2.
      pose proof (after_block_length rest) as Hlen.
      rewrite (IH (List.length (after_block rest)));
        [|cbn [List.length] in Hn; lia|reflexivity].
      cbn [app]. rewrite <- app_assoc. reflexivity.
    + rewrite (IH (List.length rest)); [reflexivity|cbn [List.length] in Hn; lia|reflexivity].
Qed.

(** What the loop does with a value of several lines: the copy is made
    of the lines up to the last one that ends with a backslash, and is
    placed before the line that ends the value. *)
Lemma duplicate_value_blocks_multiline (first last : str) (conts rest : list str) :
  is_old_value_line first = true ->
  Forall (fun l => is_continuation l = true) conts ->
  is_continuation last = false ->
  duplicate_value_blocks (first :: conts ++ last :: rest)
  = first :: conts ++ new_block (first :: conts)
      :: duplicate_value_blocks (last :: rest).
Proof.
  intros Hf Hc Hl. rewrite duplicate_value_blocks_cons, Hf.
  assert (H : block_continuations (conts ++ last :: rest) = conts
              /\ after_block (conts ++ last :: rest) = last :: rest).
  { induction Hc as [|c conts Hc _ [IH1 IH2]];
      cbn [app block_continuations after_block].
    - now rewrite Hl.
    - now rewrite Hc, IH1, IH2. }
  destruct H as [-> ->]. reflexivity.
Qed.
Lemma rewrite_header_replace_from (data : str) :
  rewrite_header TEMP_MOUNT_NAME data
  = replace_from 0 data (hive_header TEMP_MOUNT_NAME) hkcu_header.
Proof. reflexivity. Qed.

Lemma rewrite_header_lines (data : str) :
  splitlines (rewrite_header TEMP_MOUNT_NAME data)
  = List.map (rewrite_header TEMP_MOUNT_NAME) (splitlines data).
Proof.
  rewrite rewrite_header_replace_from.
  rewrite splitlines_replace_from; try reflexivity; try discriminate.
Qed.

Lemma rewrite_header_of_header :
  rewrite_header TEMP_MOUNT_NAME (hive_header TEMP_MOUNT_NAME) = hkcu_header.
Proof. vm_compute. reflexivity. Qed.

Lemma hkcu_header_is_plain :
  is_continuation hkcu_header = false /\ is_old_value_line hkcu_header = false.
Proof. split; vm_compute; reflexivity. Qed.

(** The exported key line is replaced by the key line of
    [HKEY_CURRENT_USER], and the loop runs on the lines before it and
    on the lines after it. *)
Lemma export_new_lines_header (data : str) (pre post : list str) :
  splitlines data = pre ++ hive_header TEMP_MOUNT_NAME :: post ->
  export_new_lines TEMP_MOUNT_NAME data
  = duplicate_value_blocks (List.map (rewrite_header TEMP_MOUNT_NAME) pre)
    ++ hkcu_header
    :: duplicate_value_blocks (List.map (rewrite_header TEMP_MOUNT_NAME) post).
Proof.
  intros H. unfold export_new_lines.
  rewrite rewrite_header_lines, H, map_app. cbn [List.map].
  rewrite rewrite_header_of_header.
  destruct hkcu_header_is_plain as [Hc Ho].
  now apply duplicate_value_blocks_split.
Qed.

Lemma export_and_save_writes (P : platform) (SIMULATION_MODE : bool)
    (mount : str) (S : Type) (env : environment S) (s : S) (data : str) :
  let x := run env (export_and_save P SIMULATION_MODE mount) s in
  In (ReadText (SNAPSHOT_EXPORT_FILE P) "utf-16", AText data) (trace x) ->
  In (WriteText (OUTPUT_REG_FILE P) "utf-16" (export_fixed_text mount data))
    (calls (trace x)).
Proof.
  cbv zeta. unfold export_and_save.
  run_paths env.
  all: leaf2.
Qed.

(* ================================================================== *)
(** * [export_and_save] *)
(* ================================================================== *)

(** C5.  [export_and_save] rewrites the root key of the exported
    text.  The first [replace] turns the header line
    [[HKEY_USERS\TempHive\Software\KLab\BleachBraveSouls]] into
    [[HKEY_CURRENT_USER\Software\KLab\BleachBraveSouls]], a different
    line.  When the text read from the snapshot export has the former
    as one of its lines, the text written to the output file has the
    latter in its place, between what the loop makes of the lines
    before it and of the lines after it. *)
Theorem export_and_save_rewrites_header (P : platform) (SIMULATION_MODE : bool)
    (S : Type) (env : environment S) (s : S) (data : str)
    (pre post : list str) :
  let x := run env (export_and_save P SIMULATION_MODE TEMP_MOUNT_NAME) s in
  let old_header := "[HKEY_USERS\TempHive\Software\KLab\BleachBraveSouls]" in
  let new_header := "[HKEY_CURRENT_USER\Software\KLab\BleachBraveSouls]" in
  let new_lines :=
    duplicate_value_blocks (List.map (rewrite_header TEMP_MOUNT_NAME) pre)
    ++ new_header
    :: duplicate_value_blocks (List.map (rewrite_header TEMP_MOUNT_NAME) post) in
  In (ReadText (SNAPSHOT_EXPORT_FILE P) "utf-16", AText data) (trace x) ->
  splitlines data = pre ++ old_header :: post ->
  rewrite_header TEMP_MOUNT_NAME old_header = new_header
  /\ String.eqb old_header new_header = false
  /\ export_new_lines TEMP_MOUNT_NAME data = new_lines
  /\ In (WriteText (OUTPUT_REG_FILE P) "utf-16" (join nl new_lines))
       (calls (trace x)).
Proof.
  cbv zeta. intros Hread Hlines.
  pose proof (export_new_lines_header data pre post Hlines) as Hnew.
  split; [reflexivity|]. split; [reflexivity|].
  split; [exact Hnew|].
  pose proof (export_and_save_writes P SIMULATION_MODE TEMP_MOUNT_NAME S env s
                data Hread) as Hw.
  unfold export_fixed_text in Hw. rewrite Hnew in Hw. exact Hw.
Qed.

(** On [export_world] the export read is [hex_value_export], whose
    third line is the header of the mounted hive: the file written has
    the header of the live key as its third line. *)
Lemma export_and_save_rewrites_header_witness :
  let x := run (world_env export_world)
             (export_and_save demo_platform true TEMP_MOUNT_NAME) tt in
  let new_lines :=
    duplicate_value_blocks
      (List.map (rewrite_header TEMP_MOUNT_NAME)
         ["Windows Registry Editor Version 5.00"; ""])
    ++ "[HKEY_CURRENT_USER\Software\KLab\BleachBraveSouls]"
    :: duplicate_value_blocks
         (List.map (rewrite_header TEMP_MOUNT_NAME) hex_value_lines) in
  splitlines hex_value_export
  = ["Windows Registry Editor Version 5.00"; "";
     "[HKEY_USERS\TempHive\Software\KLab\BleachBraveSouls]"]
    ++ hex_value_lines
  /\ nth_error new_lines 2
     = Some "[HKEY_CURRENT_USER\Software\KLab\BleachBraveSouls]"
  /\ rewrite_header TEMP_MOUNT_NAME
       "[HKEY_USERS\TempHive\Software\KLab\BleachBraveSouls]"
     = "[HKEY_CURRENT_USER\Software\KLab\BleachBraveSouls]"
  /\ String.eqb "[HKEY_USERS\TempHive\Software\KLab\BleachBraveSouls]"
       "[HKEY_CURRENT_USER\Software\KLab\BleachBraveSouls]" = false
  /\ export_new_lines TEMP_MOUNT_NAME hex_value_export = new_lines
  /\ In (WriteText (OUTPUT_REG_FILE demo_platform) "utf-16" (join nl new_lines))
       (calls (trace x)).
Proof.
  cbv zeta.
  split; [vm_compute; reflexivity|].
  split; [vm_compute; reflexivity|].
  apply (export_and_save_rewrites_header demo_platform true unit
           (world_env export_world) tt hex_value_export
           ["Windows Registry Editor Version 5.00"; ""] hex_value_lines).
  - vm_compute. right. left. reflexivity.
  - vm_compute. reflexivity.
Defined.

(** C1 at a value of three lines.  The loop copies the first two lines
    only and puts the copy before the third: the old value loses its
    last line to the copy, where the requirement keeps the three lines
    together and follows them with three renamed lines. *)
Theorem export_and_save_splits_multiline_value :
  let exported := splitlines (rewrite_header TEMP_MOUNT_NAME hex_value_export) in
  let head := ["Windows Registry Editor Version 5.00"; ""; hkcu_header] in
  exported = head ++ hex_value_lines
  /\ export_new_lines TEMP_MOUNT_NAME hex_value_export
     = head
       ++ firstn 2 hex_value_lines
       ++ [join nl (firstn 2 renamed_hex_value_lines)]
       ++ skipn 2 hex_value_lines
  /\ required_duplication exported
     = head ++ hex_value_lines ++ renamed_hex_value_lines
  /\ export_new_lines TEMP_MOUNT_NAME hex_value_export
     <> required_duplication exported
  /\ In (WriteText (OUTPUT_REG_FILE demo_platform) "utf-16"
           (join nl (head
                     ++ firstn 2 hex_value_lines
                     ++ firstn 2 renamed_hex_value_lines
                     ++ skipn 2 hex_value_lines)))
       (calls (trace (run (world_env export_world)
                        (export_and_save demo_platform true TEMP_MOUNT_NAME) tt))).
Proof.
  cbv zeta. split; [vm_compute; reflexivity|].
  split; [vm_compute; reflexivity|].
  split; [vm_compute; reflexivity|].
  split; [vm_compute; discriminate|].
  vm_compute. right. right. left. reflexivity.
Qed.

(* ================================================================== *)
(** * [sort_rps_newest_first] *)
(* ================================================================== *)

Section SortDesc.
Context {A : Type}.

Lemma float_ltb_true (a b : float) : float_ltb a b = true -> (a <= b)%Q.
Proof.
  unfold float_ltb. intros H. apply negb_true_iff in H.
  destruct (Qlt_le_dec a b) as [Hlt|Hle]; [now apply Qlt_le_weak|].
  apply Qle_bool_iff in Hle. congruence.
Qed.

Lemma float_ltb_false (a b : float) : float_ltb a b = false -> (b <= a)%Q.
Proof.
  unfold float_ltb. intros H. apply negb_false_iff in H.
  now apply Qle_bool_iff.
Qed.

Lemma insert_desc_perm (x : float * A) (l : list (float * A)) :
  Permutation (insert_desc x l) (x :: l).
Proof.
  induction l as [|y l IH]; cbn [insert_desc]; [reflexivity|].
  destruct (float_ltb (fst x) (fst y)); [|reflexivity].
  rewrite IH. apply perm_swap.
Qed.

Lemma sort_desc_perm (l : list (float * A)) : Permutation (sort_desc l) l.
Proof.
  induction l as [|x l IH]; cbn [sort_desc]; [reflexivity|].
  rewrite insert_desc_perm. now constructor.
Qed.

Lemma insert_desc_sorted (x : float * A) (l : list (float * A)) :
  StronglySorted newer_or_equal l ->
  StronglySorted newer_or_equal (insert_desc x l).
Proof.
  induction 1 as [|y l Hl IH Hy]; cbn [insert_desc].
  - repeat constructor.
  - destruct (float_ltb (fst x) (fst y)) eqn:E.
    + constructor; [exact IH|].
      rewrite insert_desc_perm. constructor; [|exact Hy].
      now apply float_ltb_true.
    + apply float_ltb_false in E.
      constructor; [now constructor|].
      constructor; [exact E|].
      eapply Forall_impl; [|exact Hy].
      intros z Hz. unfold newer_or_equal in *. now apply Qle_trans with (fst y).
Qed.

Lemma sort_desc_sorted (l : list (float * A)) :
  StronglySorted newer_or_equal (sort_desc l).
Proof.
  induction l as [|x l IH]; cbn [sort_desc]; [constructor|].
  now apply insert_desc_sorted.
Qed.

(** Inserting keeps the elements of each key in their order: an
    element goes after the elements it does not exceed. *)
Lemma insert_desc_stable (k : float) (x : float * A) (l : list (float * A)) :
  with_key k (insert_desc x l) = with_key k (x :: l).
Proof.
  unfold with_key.
  induction l as [|y l IH]; cbn [insert_desc]; [reflexivity|].
  destruct (float_ltb (fst x) (fst y)) eqn:E; [|reflexivity].
  cbn [filter] in *. rewrite IH. unfold float in *.
  destruct (Qeq_bool (fst x) k) eqn:Ex.
  2: { destruct (Qeq_bool (fst y) k); reflexivity. }
  destruct (Qeq_bool (fst y) k) eqn:Ey; [|reflexivity].
  exfalso. apply Qeq_bool_iff in Ex, Ey.
  unfold float_ltb in E. apply negb_true_iff in E.
  assert (H : (fst y <= fst x)%Q) by (rewrite Ex, Ey; apply Qle_refl).
  apply Qle_bool_iff in H. congruence.
Qed.

(** [sorted(..., reverse=True)] is stable: elements with equal keys
    keep their original order. *)
Lemma sort_desc_stable (k : float) (l : list (float * A)) :
  with_key k (sort_desc l) = with_key k l.
Proof.
  induction l as [|x l IH]; cbn [sort_desc]; [reflexivity|].
  rewrite insert_desc_stable. unfold with_key in *. cbn [filter].
  now rewrite IH.
Qed.

End SortDesc.

Example sort_desc_ex :
  sort_desc [((1 # 1)%Q, "a"); ((2 # 1)%Q, "b"); ((1 # 1)%Q, "c")]
  = [((2 # 1)%Q, "b"); ((1 # 1)%Q, "a"); ((1 # 1)%Q, "c")].
Proof. reflexivity. Qed.

(* ================================================================== *)
(** * Restore points: the filter and the sort *)
(* ================================================================== *)

Section RestorePoints.
Context (P : platform) {S : Type} (env : environment S).

Lemma read_before_cutoff_app (t : str * str) (tr0 tr tr1 : list event) :
  read_before_cutoff P tr t -> read_before_cutoff P (tr0 ++ tr ++ tr1) t.
Proof.
  intros (m & d & H & Hd & Hlt). exists m, d. repeat split; trivial.
  apply in_or_app. right. apply in_or_app. now left.
Qed.

Lemma key_read_app (kt : float * (str * str)) (tr0 tr tr1 : list event) :
  key_read tr kt -> key_read (tr0 ++ tr ++ tr1) kt.
Proof.
  unfold key_read. intros H.
  apply in_or_app. right. apply in_or_app. now left.
Qed.

Lemma rp_is_before_cutoff_true (rp_dir : str) (s s' : S) (tr : list event) :
  run env (rp_is_before_cutoff P rp_dir) s = (Returned true, s', tr) ->
  exists mtime rp_dt,
    tr = [(GetMTime rp_dir, AFloat mtime)]
    /\ fromtimestamp_utc P mtime = inr rp_dt
    /\ (rp_dt < CUTOFF_DATETIME)%Z.
Proof.
  unfold rp_is_before_cutoff. cbn [bind run lift].
  destruct (env (GetMTime rp_dir) s) as [[e|mtime] s1];
    cbn [lift bind run answer_of answer_or_exn]; [discriminate|].
  destruct (fromtimestamp_utc P mtime) as [e|rp_dt] eqn:Hdt;
    cbn [lift bind run]; [discriminate|].
  destruct (CUTOFF_DATETIME <=? rp_dt)%Z eqn:Hle.
  - rewrite run_bind, run_print. cbn [run]. discriminate.
  - cbn [run]. intros H. injection H as <- <-.
    exists mtime, rp_dt. repeat split; trivial.
    apply Z.leb_gt in Hle. exact Hle.
Qed.

Lemma filter_before_cutoff_sound (rps : list (str * str)) :
  forall s kept s' tr,
    run env (filter_before_cutoff P rps) s = (Returned kept, s', tr) ->
    Forall (read_before_cutoff P tr) kept /\ incl kept rps.
Proof.
  induction rps as [|t more IH]; intros s kept s' tr H.
  - cbn in H. injection H as <- <- <-. split; [constructor|apply incl_refl].
  - cbn [filter_before_cutoff] in H. rewrite run_bind in H.
    destruct (run env (rp_is_before_cutoff P (fst t)) s)
      as [[[keep|e] s1] t1] eqn:E1; [|discriminate].
    rewrite run_bind in H.
    destruct (run env (filter_before_cutoff P more) s1)
      as [[[rest|e] s2] t2] eqn:E2; [|discriminate].
    cbn [run] in H. injection H as <- <- <-.
    destruct (IH _ _ _ _ E2) as [Hrest Hincl].
    assert (Hrest' : Forall (read_before_cutoff P (t1 ++ t2 ++ [])) rest).
    { eapply Forall_impl; [|exact Hrest]. intros a Ha.
      now apply (read_before_cutoff_app a t1 t2 []). }
    destruct keep.
    + split.
      * constructor; [|exact Hrest'].
        destruct (rp_is_before_cutoff_true _ _ _ _ E1) as (m & d & -> & Hd & Hlt).
        exists m, d. repeat split; trivial. now left.
      * intros a [<-|Ha]; [now left|right; now apply Hincl].
    + split; [exact Hrest'|]. intros a Ha. right. now apply Hincl.
Qed.

Lemma mtime_keys_sound (l : list (str * str)) :
  forall s keyed s' tr,
    run env (mtime_keys l) s = (Returned keyed, s', tr) ->
    List.map snd keyed = l /\ Forall (key_read tr) keyed.
Proof.
  induction l as [|t more IH]; intros s keyed s' tr H.
  - cbn in H. injection H as <- <- <-. split; [reflexivity|constructor].
  - cbn [mtime_keys bind run lift] in H.
    destruct (env (GetMTime (fst t)) s) as [[e|k] s1];
      cbn [lift bind run answer_of answer_or_exn] in H; [discriminate|].
    rewrite run_bind in H.
    destruct (run env (mtime_keys more) s1) as [[[rest|e] s2] t2] eqn:E2;
      [|discriminate].
    cbn [run] in H. injection H as <- <- <-.
    destruct (IH _ _ _ _ E2) as [Hmap Hkeys].
    split; [cbn; now rewrite Hmap|].
    constructor; [now left|].
    eapply Forall_impl; [|exact Hkeys]. intros a Ha.
    unfold key_read in *. right. rewrite app_nil_r. exact Ha.
Qed.

(** What [sort_rps_newest_first] returns is a rearrangement of its
    argument in descending order of the modification times it read. *)
Lemma sort_rps_newest_first_sound (l : list (str * str)) (s s' : S)
    (sorted : list (str * str)) (tr : list event) :
  run env (sort_rps_newest_first l) s = (Returned sorted, s', tr) ->
  exists keyed,
    sorted = List.map snd keyed
    /\ Permutation sorted l
    /\ StronglySorted newer_or_equal keyed
    /\ Forall (key_read tr) keyed.
Proof.
  unfold sort_rps_newest_first. rewrite run_bind.
  destruct (run env (mtime_keys l) s) as [[[keyed|e] s1] t1] eqn:E1;
    [|discriminate].
  cbn [run]. intros H. injection H as <- <- <-.
  destruct (mtime_keys_sound _ _ _ _ _ E1) as [Hmap Hkeys].
  exists (sort_desc keyed). split; [reflexivity|].
  split; [rewrite <- Hmap; apply Permutation_map, sort_desc_perm|].
  split; [apply sort_desc_sorted|].
  rewrite app_nil_r.
  apply (Permutation_Forall (Permutation_sym (sort_desc_perm keyed))).
  exact Hkeys.
Qed.

End RestorePoints.

(* ================================================================== *)
(** * The calls of the restore-point search *)
(* ================================================================== *)

Ltac core := repeat always_step; try reflexivity.

Section CoreCalls.
Context (P : platform) (sim : bool).

Let Q := fun c => core_call c = true.

Lemma backup_core : always Q (backup_live_hkcu_key P).
Proof. unfold backup_live_hkcu_key. core. Qed.

Lemma collect_snapshot_dirs_core l : always Q (collect_snapshot_dirs l).
Proof. induction l as [|d more IH]; cbn [collect_snapshot_dirs]; core; exact IH. Qed.

Lemma find_restore_point_snapshot_dirs_core :
  always Q find_restore_point_snapshot_dirs.
Proof.
  unfold find_restore_point_snapshot_dirs. core. apply collect_snapshot_dirs_core.
Qed.

Lemma rp_is_before_cutoff_core d : always Q (rp_is_before_cutoff P d).
Proof. unfold rp_is_before_cutoff. core. Qed.

Lemma filter_before_cutoff_core l : always Q (filter_before_cutoff P l).
Proof.
  induction l as [|t more IH]; cbn [filter_before_cutoff]; core.
  - apply rp_is_before_cutoff_core.
  - exact IH.
Qed.

Lemma mtime_keys_core l : always Q (mtime_keys l).
Proof. induction l as [|t more IH]; cbn [mtime_keys]; core. exact IH. Qed.

Lemma sort_rps_newest_first_core l : always Q (sort_rps_newest_first l).
Proof. unfold sort_rps_newest_first. core. apply mtime_keys_core. Qed.

Lemma find_hive_entry_core d sid l : always Q (find_hive_entry d sid l).
Proof. induction l as [|t more IH]; cbn [find_hive_entry]; core; exact IH. Qed.

Lemma reg_load_core h m : always Q (reg_load h m).
Proof. unfold reg_load. core. Qed.

Lemma reg_unload_core m : always Q (reg_unload m).
Proof. unfold reg_unload. core. Qed.

Lemma modify_hive_value_core m : always Q (modify_hive_value P sim m).
Proof. unfold modify_hive_value. core. Qed.

Lemma export_and_save_core m : always Q (export_and_save P sim m).
Proof. unfold export_and_save. core. Qed.

End CoreCalls.

(* ================================================================== *)
(** * The loop of [search_old_restore_points] *)
(* ================================================================== *)

Ltac handler_contra Hh :=
  let H := fresh "H" in
  let E := fresh "E" in
  intros H;
  match type of H with
  | context [run ?env ?h ?s] =>
      destruct (run env h s) as [[?o ?s] ?t] eqn:E
  end;
  cbn iota beta zeta in H; injection H as -> _ _;
  exfalso; exact (Hh _ _ _ E).

Section RestorePointLoop.
Context (P : platform) (sim : bool) (sid : str) {S : Type} (env : environment S).

Lemma examined_app (t1 t2 : list event) :
  examined (t1 ++ t2) = examined t1 ++ examined t2.
Proof.
  induction t1 as [|[c a] t1 IH]; cbn [app examined]; [reflexivity|].
  destruct c; cbn [app]; now rewrite IH.
Qed.

Lemma examined_core (tr : list event) :
  Forall (fun c => core_call c = true) (calls tr) -> examined tr = [].
Proof.
  induction tr as [|[c a] tr IH]; cbn [calls List.map fst examined]; [reflexivity|].
  intros H. inversion H as [|c' l Hc Hl]; subst.
  destruct c; try discriminate Hc; now apply IH.
Qed.

Lemma examined_always {A : Type} (p : prog A) (s : S) :
  always (fun c => core_call c = true) p ->
  examined (trace (run env p s)) = [].
Proof. intros H. apply examined_core. now apply always_run. Qed.

Lemma old_value_read_app (t0 t t1 : list event) :
  old_value_read t -> old_value_read (t0 ++ t ++ t1).
Proof.
  intros (k & v & ty & H). exists k, v, ty.
  apply in_or_app. right. apply in_or_app. now left.
Qed.

(** After its [os.listdir], an iteration makes core calls only. *)
Lemma try_restore_point_shape (t : str * str) :
  exists k,
    try_restore_point P sim sid t = Call (ListDir (snd t)) k
    /\ forall r, always (fun c => core_call c = true) (k r).
Proof.
  destruct t as [rp_dir snapshot_dir]. unfold try_restore_point.
  unfold find_user_hive_in_snapshot. cbn [bind snd].
  eexists. split; [reflexivity|]. intros r. cbn beta.
  core.
  all: first [ apply find_hive_entry_core | apply reg_load_core
             | apply reg_unload_core | apply modify_hive_value_core
             | apply export_and_save_core ].
Qed.

Lemma try_restore_point_examined (t : str * str) (s : S) :
  examined (trace (run env (try_restore_point P sim sid t) s)) = [snd t].
Proof.
  destruct (try_restore_point_shape t) as (k & -> & Hk).
  cbn [run]. destruct (env (ListDir (snd t)) s) as [r s1].
  pose proof (examined_always (k r) s1 (Hk r)) as H.
  destruct (run env (k r) s1) as [[o s2] tr]. cbn [trace snd examined] in *.
  now rewrite H.
Qed.

(** The loop examines the snapshot directories in the order of its
    list, up to the iteration at which it stops. *)
Lemma restore_point_loop_examined (l : list (str * str)) (s : S) :
  exists n,
    examined (trace (run env (restore_point_loop P sim sid l) s))
    = firstn n (List.map snd l).
Proof.
  revert s. induction l as [|t more IH]; intros s.
  - exists 0. reflexivity.
  - cbn [restore_point_loop]. rewrite run_bind.
    pose proof (try_restore_point_examined t s) as Ht.
    destruct (run env (try_restore_point P sim sid t) s) as [[[returned|e] s1] t1].
    + destruct returned.
      * exists 1. cbn [run trace snd] in *. rewrite app_nil_r. exact Ht.
      * destruct (IH s1) as [n Hn]. exists (Datatypes.S n).
        destruct (run env (restore_point_loop P sim sid more) s1) as [[o s2] t2].
        cbn [trace snd] in *. rewrite examined_app, Ht, Hn. reflexivity.
    + exists 1. exact Ht.
Qed.

(** The loop returns at the first iteration that returns: the
    restore points after it are not touched. *)
Lemma restore_point_loop_returns_first (tried later : list (str * str))
    (t : str * str) (s0 s1 s2 : S) (tr1 tr2 : list event) :
  run env (restore_point_loop P sim sid tried) s0 = (Returned false, s1, tr1) ->
  run env (try_restore_point P sim sid t) s1 = (Returned true, s2, tr2) ->
  run env (restore_point_loop P sim sid (tried ++ t :: later)) s0
  = (Returned true, s2, tr1 ++ tr2).
Proof.
  revert s0 tr1. induction tried as [|u tried IH]; intros s0 tr1 Hloop Hiter.
  - cbn in Hloop. injection Hloop as <- <-.
    cbn [app restore_point_loop]. rewrite run_bind, Hiter.
    cbn [run]. now rewrite app_nil_r.
  - cbn [app restore_point_loop] in *. rewrite run_bind in *.
    destruct (run env (try_restore_point P sim sid u) s0)
      as [[[returned|e] s'] t']; [|discriminate].
    destruct returned; [cbn in Hloop; discriminate|].
    destruct (run env (restore_point_loop P sim sid tried) s')
      as [[o s''] t''] eqn:E.
    injection Hloop as -> -> <-.
    rewrite (IH _ _ E Hiter). now rewrite app_assoc.
Qed.

(** An iteration returns when the hive is found and loaded,
    [modify_hive_value] returns [True], and neither the export nor the
    unloading raises. *)
Lemma try_restore_point_returns (t : str * str) (hive_file : str)
    (exported : bool) (s0 s1 s2 s3 s4 s5 : S) (t1 t2 t3 t4 t5 : list event) :
  run env (find_user_hive_in_snapshot (snd t) sid) s0
  = (Returned (Some hive_file), s1, t1) ->
  run env (reg_load hive_file TEMP_MOUNT_NAME) s1 = (Returned tt, s2, t2) ->
  run env (modify_hive_value P sim TEMP_MOUNT_NAME) s2 = (Returned true, s3, t3) ->
  run env (export_and_save P sim TEMP_MOUNT_NAME) s3 = (Returned exported, s4, t4) ->
  run env (reg_unload TEMP_MOUNT_NAME) s4 = (Returned tt, s5, t5) ->
  run env (try_restore_point P sim sid t) s0
  = (Returned true, s5, t1 ++ t2 ++ t3 ++ t4 ++ t5).
Proof.
  intros Hfind Hload Hmod Hexp Hun.
  destruct t as [rp_dir snapshot_dir]. unfold try_restore_point.
  cbn [snd] in Hfind.
  rewrite run_bind, Hfind, run_try_except.
  rewrite run_bind, Hload, run_bind, Hmod, run_bind, Hexp, run_bind, Hun.
  cbn [run]. now rewrite app_nil_r.
Qed.

(** An iteration returns only after [modify_hive_value] has read the
    old value. *)
Lemma try_restore_point_true_reads (t : str * str) (s s' : S) (tr : list event) :
  run env (try_restore_point P sim sid t) s = (Returned true, s', tr) ->
  old_value_read tr.
Proof.
  destruct t as [rp_dir snapshot_dir]. unfold try_restore_point.
  rewrite run_bind.
  destruct (run env (find_user_hive_in_snapshot snapshot_dir sid) s)
    as [[[[hive_file|]|e] s1] t1]; try discriminate.
  rewrite run_try_except, run_bind.
  destruct (run env (reg_load hive_file TEMP_MOUNT_NAME) s1)
    as [[[[]|e] s2] t2].
  2: { unfold except_all. rewrite run_bind, run_try_except.
       destruct (run env (reg_unload TEMP_MOUNT_NAME) s2) as [[[[]|e'] s3] t3];
         cbn [run except_all]; discriminate. }
  rewrite run_bind.
  pose proof (modify_hive_value_spec P sim TEMP_MOUNT_NAME S env s2) as Hm.
  cbv zeta in Hm.
  destruct (run env (modify_hive_value P sim TEMP_MOUNT_NAME) s2)
    as [[[modified|e] s3] t3]; cbn [result trace fst snd] in Hm.
  2: { unfold except_all. rewrite run_bind, run_try_except.
       destruct (run env (reg_unload TEMP_MOUNT_NAME) s3) as [[[[]|e'] s4] t4];
         cbn [run except_all]; discriminate. }
  assert (Hhandler : forall s3 s' tr,
            run env (try_except (reg_unload TEMP_MOUNT_NAME) (except_all (Ret tt));;
                     Ret false) s3 = (Returned true, s', tr) -> False).
  { intros s3' s'' tr'. rewrite run_bind, run_try_except.
    destruct (run env (reg_unload TEMP_MOUNT_NAME) s3') as [[[[]|e'] s4] t4];
      cbn [run except_all]; discriminate. }
  destruct modified.
  - assert (Hread : old_value_read t3) by (apply (proj2 Hm); reflexivity).
    rewrite run_bind.
    destruct (run env (export_and_save P sim TEMP_MOUNT_NAME) s3)
      as [[[exported|e] s4] t4].
    2: { unfold except_all at 1. handler_contra Hhandler. }
    rewrite run_bind.
    destruct (run env (reg_unload TEMP_MOUNT_NAME) s4) as [[[[]|e] s5] t5].
    2: { unfold except_all at 1. handler_contra Hhandler. }
    cbn [run]. intros H. injection H as <- <-.
    destruct Hread as (k & v & ty & Hin). exists k, v, ty.
    rewrite !in_app_iff. tauto.
  - rewrite run_bind.
    destruct (run env (reg_unload TEMP_MOUNT_NAME) s3) as [[[[]|e] s4] t4].
    + cbn [run]. discriminate.
    + unfold except_all at 1. handler_contra Hhandler.
Qed.

Lemma restore_point_loop_true_reads (l : list (str * str)) :
  forall s s' tr,
    run env (restore_point_loop P sim sid l) s = (Returned true, s', tr) ->
    old_value_read tr.
Proof.
  induction l as [|t more IH]; intros s s' tr H.
  - cbn in H. discriminate.
  - cbn [restore_point_loop] in H. rewrite run_bind in H.
    destruct (run env (try_restore_point P sim sid t) s)
      as [[[returned|e] s1] t1] eqn:E; [|discriminate].
    destruct returned.
    + cbn [run] in H. injection H as <- <-.
      apply try_restore_point_true_reads in E.
      destruct E as (k & v & ty & Hin). exists k, v, ty.
      rewrite in_app_iff. tauto.
    + destruct (run env (restore_point_loop P sim sid more) s1)
        as [[o s2] t2] eqn:E2.
      injection H as -> <- <-.
      apply IH in E2. destruct E2 as (k & v & ty & Hin). exists k, v, ty.
      rewrite in_app_iff. tauto.
Qed.

End RestorePointLoop.

Lemma search_old_restore_points_plan (P : platform) (sim : bool) (sid : str)
    (S : Type) (env : environment S) (s : S) (found : bool) :
  let x := run env (search_old_restore_points P sim sid) s in
  result x = Returned found ->
  exists keyed pre s3 tail,
    let loop := run env (restore_point_loop P sim sid (List.map snd keyed)) s3 in
    trace x = pre ++ trace loop ++ tail
    /\ result loop = Returned found
    /\ Forall (fun kt => read_before_cutoff P pre (snd kt) /\ key_read pre kt) keyed
    /\ StronglySorted newer_or_equal keyed
    /\ examined (trace x) = examined (trace loop)
    /\ (exists n, examined (trace loop)
                  = firstn n (List.map (fun kt => snd (snd kt)) keyed))
    /\ (found = true -> old_value_read (trace loop)).
Proof.
  cbv zeta. unfold search_old_restore_points. rewrite run_bind.
  pose proof (examined_always env find_restore_point_snapshot_dirs s
                find_restore_point_snapshot_dirs_core) as Hx1.
  destruct (run env find_restore_point_snapshot_dirs s)
    as [[[rps|e] s1] t1]; [|discriminate].
  rewrite run_bind.
  pose proof (examined_always env (filter_before_cutoff P rps) s1
                (filter_before_cutoff_core P rps)) as Hx2.
  destruct (run env (filter_before_cutoff P rps) s1)
    as [[[filtered|e] s2] t2] eqn:E2; [|discriminate].
  rewrite run_bind.
  pose proof (examined_always env (sort_rps_newest_first filtered) s2
                (sort_rps_newest_first_core filtered)) as Hx3.
  destruct (run env (sort_rps_newest_first filtered) s2)
    as [[[sorted|e] s3] t3] eqn:E3; [|discriminate].
  cbn [trace snd] in Hx1, Hx2, Hx3.
  destruct (filter_before_cutoff_sound P env _ _ _ _ _ E2) as [Hfil _].
  destruct (sort_rps_newest_first_sound env _ _ _ _ _ E3)
    as (keyed & Hsorted & Hperm & Hdesc & Hkeys).
  assert (Hall : Forall (fun kt => read_before_cutoff P (t1 ++ t2 ++ t3) (snd kt)
                                   /\ key_read (t1 ++ t2 ++ t3) kt) keyed).
  { apply Forall_and.
    - apply Forall_map with (f := snd) (P := read_before_cutoff P (t1 ++ t2 ++ t3)).
      rewrite <- Hsorted.
      apply (Permutation_Forall (Permutation_sym Hperm)).
      eapply Forall_impl; [|exact Hfil]. intros a Ha.
      now apply (read_before_cutoff_app P a t1 t2 t3).
    - eapply Forall_impl; [|exact Hkeys]. intros a Ha.
      pose proof (key_read_app a (t1 ++ t2) t3 [] Ha) as H.
      now rewrite app_nil_r, <- app_assoc in H. }
  assert (Hpre : examined (t1 ++ t2 ++ t3) = [])
    by (now rewrite !examined_app, Hx1, Hx2, Hx3).
  intros Hres.
  exists keyed, (t1 ++ t2 ++ t3), s3.
  rewrite <- Hsorted.
  pose proof (restore_point_loop_examined P sim sid env sorted s3) as [n Hn].
  assert (Hmap : List.map snd sorted = List.map (fun kt => snd (snd kt)) keyed)
    by (now rewrite Hsorted, map_map).
  rewrite Hmap in Hn.
  destruct sorted as [|t more] eqn:Esorted.
  - (* no restore point before the cutoff *)
    rewrite run_bind, run_print in Hres. cbn [run result trace fst snd app] in Hres.
    injection Hres as <-.
    eexists. cbn [restore_point_loop run result trace fst snd app].
    rewrite run_bind, run_print. cbn [run result trace fst snd app].
    repeat split; trivial.
    + rewrite <- ?app_assoc. reflexivity.
    + rewrite ?examined_app, Hx1, Hx2, Hx3. cbn [examined app].
        now rewrite ?app_nil_r.
    + exists 0. reflexivity.
    + discriminate.
  - rewrite <- Esorted in *. clear Esorted.
    rewrite run_bind in Hres |- *.
    pose proof (restore_point_loop_true_reads P sim sid env sorted s3) as Hreads.
    destruct (run env (restore_point_loop P sim sid sorted) s3)
      as [[[returned|e] s4] t4]; [|discriminate].
    cbn [result trace fst snd] in *.
    destruct returned.
    + cbn [run result trace fst snd] in Hres |- *. injection Hres as <-.
      exists []. rewrite !app_nil_r.
      repeat split; trivial.
      * rewrite <- ?app_assoc. reflexivity.
      * rewrite ?examined_app, Hx1, Hx2, Hx3. cbn [examined app].
        now rewrite ?app_nil_r.
      * now exists n.
      * intros _. now apply (Hreads s4 t4).
    + rewrite run_bind, run_print in Hres |- *.
      cbn [run result trace fst snd] in Hres |- *.
      injection Hres as <-.
      eexists. repeat split; trivial.
      * rewrite <- ?app_assoc. reflexivity.
      * rewrite ?examined_app, Hx1, Hx2, Hx3. cbn [examined app].
        now rewrite ?app_nil_r.
      * now exists n.
      * discriminate.
Qed.

(* ================================================================== *)
(** * [search_old_restore_points] *)
(* ================================================================== *)

(** C4, as the code has it.  When [search_old_restore_points] returns:
    the restore points it kept were each read with a modification
    time that, in UTC, lies strictly before the cutoff; they are
    sorted by descending modification time as read for the sort; the
    snapshot directories are examined in that order, up to the one at
    which the loop stops; and it returns [True] only after the old
    value was read.  The loop returns [True] at the first restore
    point whose iteration returns, and the restore points after it
    are not touched.  An iteration returns when the hive is found and
    loaded, [modify_hive_value] returns [True], and neither
    [export_and_save] nor [reg_unload] raises. *)
Theorem search_old_restore_points_newest_first (P : platform)
    (SIMULATION_MODE : bool) (sid : str) (S : Type) (env : environment S) (s : S) :
  let x := run env (search_old_restore_points P SIMULATION_MODE sid) s in
  (forall found,
     result x = Returned found ->
     exists keyed pre s3 tail,
       let loop :=
         run env (restore_point_loop P SIMULATION_MODE sid (List.map snd keyed)) s3 in
       trace x = pre ++ trace loop ++ tail
       /\ result loop = Returned found
       /\ Forall (fun kt => read_before_cutoff P pre (snd kt) /\ key_read pre kt)
            keyed
       /\ StronglySorted newer_or_equal keyed
       /\ examined (trace x) = examined (trace loop)
       /\ (exists n, examined (trace loop)
                     = firstn n (List.map (fun kt => snd (snd kt)) keyed))
       /\ (found = true -> old_value_read (trace loop)))
  /\ (forall tried t later s0 s1 s2 tr1 tr2,
        run env (restore_point_loop P SIMULATION_MODE sid tried) s0
        = (Returned false, s1, tr1) ->
        run env (try_restore_point P SIMULATION_MODE sid t) s1
        = (Returned true, s2, tr2) ->
        run env (restore_point_loop P SIMULATION_MODE sid (tried ++ t :: later)) s0
        = (Returned true, s2, tr1 ++ tr2))
  /\ (forall t hive_file exported s0 s1 s2 s3 s4 s5 t1 t2 t3 t4 t5,
        run env (find_user_hive_in_snapshot (snd t) sid) s0
        = (Returned (Some hive_file), s1, t1) ->
        run env (reg_load hive_file TEMP_MOUNT_NAME) s1 = (Returned tt, s2, t2) ->
        run env (modify_hive_value P SIMULATION_MODE TEMP_MOUNT_NAME) s2
        = (Returned true, s3, t3) ->
        run env (export_and_save P SIMULATION_MODE TEMP_MOUNT_NAME) s3
        = (Returned exported, s4, t4) ->
        run env (reg_unload TEMP_MOUNT_NAME) s4 = (Returned tt, s5, t5) ->
        run env (try_restore_point P SIMULATION_MODE sid t) s0
        = (Returned true, s5, t1 ++ t2 ++ t3 ++ t4 ++ t5)).
Proof.
  cbv zeta. split; [|split].
  - intros found. apply search_old_restore_points_plan.
  - intros tried t later s0 s1 s2 tr1 tr2.
    apply restore_point_loop_returns_first.
  - intros t hive_file exported s0 s1 s2 s3 s4 s5 t1 t2 t3 t4 t5.
    apply try_restore_point_returns.
Qed.

(** On [rp_world] in simulation mode the search returns [True] after
    examining the snapshot of RP2, the newest restore point before the
    cutoff, and nothing else. *)
Lemma search_old_restore_points_newest_first_witness :
  let x := run (world_env rp_world)
             (search_old_restore_points demo_platform true demo_sid) tt in
  result x = Returned true
  /\ examined (trace x) = [path_join rp2 "snapshot"]
  /\ exists keyed pre s3 tail,
       let loop :=
         run (world_env rp_world)
           (restore_point_loop demo_platform true demo_sid (List.map snd keyed)) s3 in
       trace x = pre ++ trace loop ++ tail
       /\ result loop = Returned true
       /\ Forall (fun kt => read_before_cutoff demo_platform pre (snd kt)
                            /\ key_read pre kt) keyed
       /\ StronglySorted newer_or_equal keyed
       /\ examined (trace x) = examined (trace loop)
       /\ (exists n, examined (trace loop)
                     = firstn n (List.map (fun kt => snd (snd kt)) keyed))
       /\ (true = true -> old_value_read (trace loop)).
Proof.
  cbv zeta. split; [vm_compute; reflexivity|].
  split; [vm_compute; reflexivity|].
  apply (proj1 (search_old_restore_points_newest_first demo_platform true
                  demo_sid unit (world_env rp_world) tt) true).
  vm_compute. reflexivity.
Defined.

(** C4 as stated fails in live mode: on [rp_read_only_world] the hive
    of RP2 holds the old value, which is read, and the search goes on
    to RP1 and returns [False]. *)
Lemma search_old_restore_points_read_but_false :
  let x := run (world_env rp_read_only_world)
             (search_old_restore_points demo_platform false demo_sid) tt in
  In (QueryValueEx 7%Z OLD_VALUE_NAME, AValue (RegBytes "01") 3%Z) (trace x)
  /\ examined (trace x)
     = [path_join rp2 "snapshot"; path_join rp1 "snapshot"]
  /\ result x = Returned false.
Proof.
  cbv zeta. split; [|split].
  - vm_compute. repeat first [left; reflexivity | right].
  - vm_compute. reflexivity.
  - vm_compute. reflexivity.
Qed.

(** When [reg unload] fails after the export, the iteration that found
    the value does not return: on [rp_unload_fails_world], in
    simulation mode, the fixed file is written for RP2, then again for
    RP1, and the search returns [False]. *)
Remark search_old_restore_points_unload_fails :
  let x := run (world_env rp_unload_fails_world)
             (search_old_restore_points demo_platform true demo_sid) tt in
  examined (trace x)
  = [path_join rp2 "snapshot"; path_join rp1 "snapshot"]
  /\ List.length
       (filter (fun c => match c with WriteText _ _ _ => true | _ => false end)
          (calls (trace x))) = 2
  /\ result x = Returned false.
Proof. cbv zeta. repeat split; vm_compute; reflexivity. Qed.

(* ================================================================== *)
(** * The calls of the two searches *)
(* ================================================================== *)

Lemma restore_point_call_of_core (c : call) :
  core_call c = true -> restore_point_call c = true.
Proof. unfold restore_point_call. now intros ->. Qed.

Lemma report_free_of_core (c : call) : core_call c = true -> report_free c = true.
Proof. destruct c; cbn; congruence. Qed.

Section SearchCalls.
Context (P : platform) (sim : bool).

Let R := fun c => restore_point_call c = true.
Let F := fun c => report_free c = true.

Lemma rp_of_core {A : Type} (p : prog A) :
  always (fun c => core_call c = true) p -> always R p.
Proof. apply always_weaken. exact restore_point_call_of_core. Qed.

Lemma free_of_core {A : Type} (p : prog A) :
  always (fun c => core_call c = true) p -> always F p.
Proof. apply always_weaken. exact report_free_of_core. Qed.

Lemma try_restore_point_calls sid t : always R (try_restore_point P sim sid t).
Proof.
  destruct (try_restore_point_shape P sim sid t) as (k & -> & Hk).
  cbn [always]. split; [reflexivity|]. intros r. apply rp_of_core, Hk.
Qed.

Lemma restore_point_loop_calls sid l : always R (restore_point_loop P sim sid l).
Proof.
  induction l as [|t more IH]; cbn [restore_point_loop]; core.
  - apply try_restore_point_calls.
  - exact IH.
Qed.

Lemma search_old_restore_points_calls sid :
  always R (search_old_restore_points P sim sid).
Proof.
  unfold search_old_restore_points. core.
  all: first [ apply rp_of_core, find_restore_point_snapshot_dirs_core
             | apply rp_of_core, filter_before_cutoff_core
             | apply rp_of_core, sort_rps_newest_first_core
             | apply restore_point_loop_calls ].
Qed.

Lemma vss_scan_free lines cur shadows : always F (vss_scan P lines cur shadows).
Proof.
  revert cur shadows. induction lines as [|l more IH]; intros cur shadows;
    cbn [vss_scan]; core; apply IH.
Qed.

Lemma list_vss_snapshots_before_cutoff_free :
  always F (list_vss_snapshots_before_cutoff P).
Proof. unfold list_vss_snapshots_before_cutoff. core. apply vss_scan_free. Qed.

Lemma vss_error_handler_free shadow e : always F (vss_error_handler P shadow e).
Proof. unfold vss_error_handler. core. apply free_of_core, reg_unload_core. Qed.

Lemma try_vss_snapshot_free username found shadow :
  always F (try_vss_snapshot P sim username found shadow).
Proof.
  unfold try_vss_snapshot. core.
  all: first [ apply free_of_core, reg_load_core
             | apply free_of_core, reg_unload_core
             | apply vss_error_handler_free
             | apply free_of_core, modify_hive_value_core
             | apply free_of_core, export_and_save_core ].
Qed.

Lemma vss_snapshot_loop_free username found l :
  always F (vss_snapshot_loop P sim username found l).
Proof.
  revert found. induction l as [|t more IH]; intros found;
    cbn [vss_snapshot_loop]; core.
  - apply try_vss_snapshot_free.
  - apply IH.
Qed.

Lemma search_vss_snapshots_free : always F (search_vss_snapshots P sim).
Proof.
  unfold search_vss_snapshots. core.
  all: first [ apply list_vss_snapshots_before_cutoff_free
             | apply vss_snapshot_loop_free ].
Qed.

End SearchCalls.

(* ================================================================== *)
(** * [main]: restore points before VSS *)
(* ================================================================== *)

Lemma Forall_not_in {A : Type} (f : A -> bool) (l : list A) (x : A) :
  Forall (fun c => f c = true) l -> f x = false -> ~ In x l.
Proof.
  intros H Hx Hin. rewrite Forall_forall in H. specialize (H x Hin). congruence.
Qed.

(** The calls of [search_snapshots], the end of [main], are those of
    the backup, of the restore-point search and, when that returned
    [False], of the VSS search, in that order; [vssadmin] is called
    only when the restore-point search returned [False], and the
    report is printed only when both searches did. *)
Lemma search_snapshots_order (P : platform) (SIMULATION_MODE : bool)
    (sid : str) (S : Type) (env : environment S) (s : S) :
  let b := run env (backup_live_hkcu_key P) s in
  let rp := run env (search_old_restore_points P SIMULATION_MODE sid) (final b) in
  let vss := run env (search_vss_snapshots P SIMULATION_MODE) (final rp) in
  let all := run env (search_snapshots P SIMULATION_MODE sid) s in
  match result b, result rp, result vss with
  | Raised e, _, _ =>
      result all = Raised e /\ trace all = trace b
  | Returned _, Raised e, _ =>
      result all = Raised e /\ trace all = trace b ++ trace rp
  | Returned _, Returned true, _ =>
      result all = Returned tt /\ trace all = trace b ++ trace rp
  | Returned _, Returned false, Raised e =>
      result all = Raised e /\ trace all = trace b ++ trace rp ++ trace vss
  | Returned _, Returned false, Returned true =>
      result all = Returned tt /\ trace all = trace b ++ trace rp ++ trace vss
  | Returned _, Returned false, Returned false =>
      result all = Returned tt
      /\ trace all = trace b ++ trace rp ++ trace vss ++ [not_found_report]
  end
  /\ (In vssadmin_list_shadows (calls (trace all)) ->
      result b = Returned tt /\ result rp = Returned false)
  /\ (In not_found_report (trace all) ->
      result rp = Returned false /\ result vss = Returned false).
Proof.
  cbv zeta.
  pose proof (search_snapshots_trace P SIMULATION_MODE sid S env s) as D.
  cbv zeta in D.
  pose proof (always_run env _ _ s (backup_core P)) as Hb.
  pose proof (always_run env _ _ (final (run env (backup_live_hkcu_key P) s))
                (search_old_restore_points_calls P SIMULATION_MODE sid)) as Hrp.
  pose proof (always_run env _ _
                (final (run env (search_old_restore_points P SIMULATION_MODE sid)
                          (final (run env (backup_live_hkcu_key P) s))))
                (search_vss_snapshots_free P SIMULATION_MODE)) as Hv.
  set (b := run env (backup_live_hkcu_key P) s) in *.
  set (rp := run env (search_old_restore_points P SIMULATION_MODE sid) (final b)) in *.
  set (vss := run env (search_vss_snapshots P SIMULATION_MODE) (final rp)) in *.
  set (all := run env (search_snapshots P SIMULATION_MODE sid) s) in *.
  assert (Hb1 : ~ In vssadmin_list_shadows (calls (trace b)))
    by (apply (Forall_not_in core_call); [exact Hb|reflexivity]).
  assert (Hb2 : ~ In (Print not_found_message) (calls (trace b)))
    by (apply (Forall_not_in core_call); [exact Hb|reflexivity]).
  assert (Hrp1 : ~ In vssadmin_list_shadows (calls (trace rp)))
    by (apply (Forall_not_in restore_point_call); [exact Hrp|reflexivity]).
  assert (Hrp2 : ~ In (Print not_found_message) (calls (trace rp)))
    by (apply (Forall_not_in restore_point_call); [exact Hrp|reflexivity]).
  assert (Hv2 : ~ In (Print not_found_message) (calls (trace vss)))
    by (apply (Forall_not_in report_free); [exact Hv|reflexivity]).
  assert (Hrep : forall tr, In not_found_report tr ->
                 In (Print not_found_message) (calls tr)).
  { intros tr H. apply (in_map fst) in H. exact H. }
  split; [exact D|].
  cut ((In vssadmin_list_shadows (calls (trace all)) ->
        result b = Returned tt /\ result rp = Returned false)
       /\ (In (Print not_found_message) (calls (trace all)) ->
           result rp = Returned false /\ result vss = Returned false)).
  { intros [H1 H2]. split; [exact H1|]. intros H. now apply H2, Hrep. }
  unfold calls in *.
  destruct (result b) as [[]|eb].
  2: { destruct D as [_ D]. rewrite D. tauto. }
  destruct (result rp) as [[|]|erp].
  - destruct D as [_ D]. rewrite D, !map_app, !in_app_iff. tauto.
  - destruct (result vss) as [[|]|ev]; destruct D as [_ D];
      rewrite D, !map_app, !in_app_iff; cbn [List.map In fst]; tauto.
  - destruct D as [_ D]. rewrite D, !map_app, !in_app_iff. tauto.
Qed.

Ltac norm_app :=
  repeat first [rewrite <- app_assoc | rewrite app_nil_r | progress cbn [app]].

Section Prelude.
Context (P : platform).

Let Q := fun c => prelude_call c = true.

Lemma is_admin_prelude : always Q is_admin.
Proof. unfold is_admin. core. Qed.

Lemma remove_leftovers_prelude files : always Q (remove_leftovers files).
Proof. induction files as [|f more IH]; cbn [remove_leftovers]; core. exact IH. Qed.

Lemma get_user_sid_prelude : always Q get_user_sid.
Proof. unfold get_user_sid. core. Qed.

Lemma backup_prelude : always Q (backup_live_hkcu_key P).
Proof. unfold backup_live_hkcu_key. core. Qed.

Lemma process_regfile_prelude sim path : always Q (process_regfile P sim path).
Proof. unfold process_regfile. core. all: apply backup_prelude. Qed.

End Prelude.

(** A run of [main] either never reaches the search, and then calls
    neither [vssadmin] nor prints the final report, or ends with a run
    of [search_snapshots] after calls of that kind. *)
Lemma main_reaches_search (P : platform) (S : Type) (env : environment S) (s : S) :
  let m := run env (main P) s in
  Forall (fun c => prelude_call c = true) (calls (trace m))
  \/ exists sim sid s1 pre,
       let search := run env (search_snapshots P sim sid) s1 in
       trace m = pre ++ trace search
       /\ result m = result search
       /\ Forall (fun c => prelude_call c = true) (calls pre).
Proof.
  cbv zeta. unfold main.
  destruct (negb (os_name P =? "nt")%string).
  { left. rewrite run_print. repeat constructor. }
  rewrite run_bind.
  pose proof (always_run env _ _ s is_admin_prelude) as H1.
  destruct (run env is_admin s) as [[[admin|e] s1] t1]; cbn [trace snd] in *;
    [|now left].
  destruct (negb admin).
  { left. rewrite run_print. cbn [trace snd]. unfold calls in *.
    rewrite map_app. apply Forall_app. split; [exact H1|]. repeat constructor. }
  rewrite run_bind.
  pose proof (always_run env _ _ s1
                (remove_leftovers_prelude [SNAPSHOT_EXPORT_FILE P; OUTPUT_REG_FILE P]))
    as H2.
  destruct (run env (remove_leftovers [SNAPSHOT_EXPORT_FILE P; OUTPUT_REG_FILE P]) s1)
    as [[[[]|e] s2] t2]; cbn [trace snd] in *.
  2: { left. unfold calls in *. rewrite map_app. apply Forall_app. now split. }
  cbn [bind run].
  destruct (env ParseArgs s2) as [[e|a] s3]; cbn [lift bind run answer_of answer_or_exn].
  { left. cbn [trace snd]. unfold calls in *. rewrite !map_app.
    repeat (apply Forall_app; split); trivial. repeat constructor. }
  set (sim := match mode a with live => false | simulation => SIMULATION_MODE_default end).
  rewrite run_bind, run_print. cbn [trace snd].
  set (s4 := snd (env (Print ("Running in " +++ (if negb sim then "LIVE" else "SIMULATION")
                              +++ " mode")) s3)).
  rewrite run_bind, run_try_except, run_bind.
  pose proof (always_run env _ _ s4 get_user_sid_prelude) as H5.
  assert (Hpre : forall l,
            Forall (fun c => prelude_call c = true) (calls l) ->
            Forall (fun c => prelude_call c = true)
              (calls (t1 ++ t2 ++ (ParseArgs, AArgs a)
                      :: [(Print ("Running in "
                                  +++ (if negb sim then "LIVE" else "SIMULATION")
                                  +++ " mode"), Done)] ++ l))).
  { intros l Hl. unfold calls in *. rewrite !map_app. cbn [List.map fst].
    repeat (apply Forall_app; split); trivial.
    constructor; [reflexivity|].
    constructor; [destruct sim; reflexivity|exact Hl]. }
  destruct (run env get_user_sid s4) as [[[sid|e] s5] t5]; cbn [trace snd] in *.
  2: { destruct (is_RuntimeError e).
       - rewrite run_bind, run_print. cbn [run trace snd]. left.
         apply Hpre. unfold calls in *. rewrite !map_app.
         repeat (apply Forall_app; split); trivial; repeat constructor.
       - left. apply Hpre. exact H5. }
  cbn [run]. rewrite run_bind.
  destruct (regfile_given a) as [path|].
  - pose proof (always_run env _ _ s5 (process_regfile_prelude P sim path)) as H6.
    destruct (run env (process_regfile P sim path) s5) as [[[used|e] s6] t6];
      cbn [trace snd] in *.
    + destruct used.
      * left. cbn [run trace snd]. apply Hpre. unfold calls in *.
        rewrite !map_app. repeat (apply Forall_app; split); trivial; constructor.
      * right. exists sim, sid, s6.
        destruct (run env (search_snapshots P sim sid) s6) as [[o s7] t7].
        cbn [trace result fst snd].
        exists (t1 ++ t2 ++ (ParseArgs, AArgs a)
                :: [(Print ("Running in " +++ (if negb sim then "LIVE" else "SIMULATION")
                            +++ " mode"), Done)] ++ (t5 ++ []) ++ t6).
        split; [|split; [reflexivity|]].
        -- norm_app. reflexivity.
        -- apply Hpre. unfold calls in *. rewrite !map_app.
           repeat (apply Forall_app; split); trivial; constructor.
    + left. apply Hpre. unfold calls in *. rewrite !map_app.
      repeat (apply Forall_app; split); trivial; constructor.
  - right. exists sim, sid, s5. cbn [run].
    destruct (run env (search_snapshots P sim sid) s5) as [[o s7] t7].
    cbn [trace result fst snd].
    exists (t1 ++ t2 ++ (ParseArgs, AArgs a)
            :: [(Print ("Running in " +++ (if negb sim then "LIVE" else "SIMULATION")
                        +++ " mode"), Done)] ++ (t5 ++ [])).
    split; [|split; [reflexivity|]].
    + norm_app. reflexivity.
    + apply Hpre. unfold calls in *. rewrite !map_app.
      repeat (apply Forall_app; split); trivial; constructor.
Qed.

(** C6.  In a run of [main] that calls [vssadmin] or prints that the
    key was not found, the restore-point search ran first and
    returned [False]; the calls of the run are those made before the
    search, of the backup, of the restore-point search and of the VSS
    search, in that order; and the report is printed only when the
    VSS search returned [False] too. *)
Theorem restore_points_before_vss (P : platform) (S : Type)
    (env : environment S) (s : S) :
  let m := run env (main P) s in
  In vssadmin_list_shadows (calls (trace m)) \/ In not_found_report (trace m) ->
  exists sim sid s1 pre,
    let b := run env (backup_live_hkcu_key P) s1 in
    let rp := run env (search_old_restore_points P sim sid) (final b) in
    let vss := run env (search_vss_snapshots P sim) (final rp) in
    result b = Returned tt
    /\ result rp = Returned false
    /\ (In not_found_report (trace m) -> result vss = Returned false)
    /\ trace m
       = pre ++ trace b ++ trace rp ++ trace vss
         ++ match result vss with
            | Returned false => [not_found_report]
            | _ => []
            end
    /\ Forall (fun c => prelude_call c = true) (calls pre).
Proof.
  cbv zeta. intros Hm.
  destruct (main_reaches_search P S env s) as [Hnone|(sim & sid & s1 & pre & Htr & _ & Hpre)].
  - exfalso. destruct Hm as [H|H].
    + revert H. apply (Forall_not_in prelude_call); [exact Hnone|reflexivity].
    + apply (in_map fst) in H. revert H.
      apply (Forall_not_in prelude_call); [exact Hnone|reflexivity].
  - cbv zeta in Htr. exists sim, sid, s1, pre.
    pose proof (search_snapshots_order P sim sid S env s1) as (D & Hv & Hr).
    cbv zeta in D, Hv, Hr.
    set (b := run env (backup_live_hkcu_key P) s1) in *.
    set (rp := run env (search_old_restore_points P sim sid) (final b)) in *.
    set (vss := run env (search_vss_snapshots P sim) (final rp)) in *.
    set (all := run env (search_snapshots P sim sid) s1) in *.
    assert (Hp1 : ~ In vssadmin_list_shadows (calls pre))
      by (apply (Forall_not_in prelude_call); [exact Hpre|reflexivity]).
    assert (Hp2 : ~ In not_found_report pre).
    { intros H. apply (in_map fst) in H. revert H.
      apply (Forall_not_in prelude_call); [exact Hpre|reflexivity]. }
    assert (Hall : In vssadmin_list_shadows (calls (trace all))
                   \/ In not_found_report (trace all)).
    { rewrite Htr in Hm. unfold calls in *.
      rewrite map_app, !in_app_iff in Hm. tauto. }
    assert (Hrp : result b = Returned tt /\ result rp = Returned false)
      by (destruct Hall as [H|H]; [exact (Hv H)|split; [|exact (proj1 (Hr H))]];
          destruct (result b) as [[]|e]; [reflexivity|];
          destruct D as [_ D]; rewrite D in H;
          apply (in_map fst) in H; exfalso; revert H;
          apply (Forall_not_in core_call);
          [exact (always_run env _ _ s1 (backup_core P))|reflexivity]).
    destruct Hrp as [Hb Hrp]. rewrite Hb, Hrp in D.
    split; [exact Hb|]. split; [exact Hrp|].
    split.
    { intros H. rewrite Htr in H. apply in_app_iff in H.
      destruct H as [H|H]; [tauto|exact (proj2 (Hr H))]. }
    split; [|exact Hpre].
    rewrite Htr.
    destruct (result vss) as [[|]|e]; destruct D as [_ ->]; now rewrite ?app_nil_r.
Qed.

Lemma restore_points_before_vss_witness :
  let m := run (world_env no_snapshot_world) (main demo_platform) tt in
  exists sim sid s1 pre,
    let b := run (world_env no_snapshot_world) (backup_live_hkcu_key demo_platform) s1 in
    let rp := run (world_env no_snapshot_world)
                (search_old_restore_points demo_platform sim sid) (final b) in
    let vss := run (world_env no_snapshot_world)
                 (search_vss_snapshots demo_platform sim) (final rp) in
    result b = Returned tt
    /\ result rp = Returned false
    /\ (In not_found_report (trace m) -> result vss = Returned false)
    /\ trace m
       = pre ++ trace b ++ trace rp ++ trace vss
         ++ match result vss with
            | Returned false => [not_found_report]
            | _ => []
            end
    /\ Forall (fun c => prelude_call c = true) (calls pre).
Proof.
  apply (restore_points_before_vss demo_platform unit
           (world_env no_snapshot_world) tt).
  right. vm_compute. repeat first [left; reflexivity | right].
Defined.

(* ================================================================== *)
(** * More on the text processing of [export_and_save] *)
(* ================================================================== *)

Lemma subsequence_refl {A : Type} (l : list A) : subsequence l l.
Proof. induction l; now constructor. Qed.

Lemma subsequence_app {A : Type} (l l1 l2 : list A) :
  subsequence l1 l2 -> subsequence (l ++ l1) (l ++ l2).
Proof. intros H. induction l; cbn [app]; [exact H|now constructor]. Qed.

Lemma block_continuations_after_block (ls : list str) :
  block_continuations ls ++ after_block ls = ls.
Proof.
  induction ls as [|l ls IH]; cbn [block_continuations after_block app]; [reflexivity|].
  destruct (is_continuation l); cbn [app]; [now rewrite IH|reflexivity].
Qed.

(** X1.  The loop of [export_and_save] loses no line of the export and
    keeps the lines in their order: the lines it was given are a
    subsequence of the lines it produces. *)
Theorem duplicate_value_blocks_keeps_lines (lines : list str) :
  subsequence lines (duplicate_value_blocks lines).
Proof.
  remember (List.length lines) as n eqn:Hn. revert lines Hn.
  induction n as [n IH] using lt_wf_ind. intros lines Hn.
  destruct lines as [|line rest]; [constructor|].
  rewrite duplicate_value_blocks_cons. cbn [List.length] in Hn.
  destruct (is_old_value_line line).
  - constructor.
    rewrite <- (block_continuations_after_block rest) at 1.
    apply subsequence_app. constructor.
    pose proof (after_block_length rest) as Hlen.
    apply (IH (List.length (after_block rest))); [lia|reflexivity].
  - constructor. apply (IH (List.length rest)); [lia|reflexivity].
Qed.

(** Without a line that opens a block of the old value, the loop
    returns the lines as they are. *)
Lemma duplicate_value_blocks_id (lines : list str) :
  Forall (fun l => is_old_value_line l = false) lines ->
  duplicate_value_blocks lines = lines.
Proof.
  induction 1 as [|l ls Hl _ IH]; [reflexivity|].
  now rewrite duplicate_value_blocks_cons, Hl, IH.
Qed.

Lemma duplicate_value_blocks_flat (lines : list str) :
  Forall (fun l => is_continuation l = false) lines ->
  duplicate_value_blocks lines = flat_map line_and_copy lines.
Proof.
  induction 1 as [|l ls Hl Hls IH]; [reflexivity|].
  rewrite duplicate_value_blocks_cons. cbn [flat_map]. unfold line_and_copy at 1.
  destruct (is_old_value_line l); cbn [app]; [|now rewrite IH].
  destruct Hls as [|l' ls' Hl' Hls'];
    cbn [block_continuations after_block app].
  - reflexivity.
  - rewrite Hl'. cbn [app]. now rewrite IH.
Qed.

(** X2.  When the export holds no value block of the old name,
    [export_and_save] changes nothing but the key line: the lines it
    writes are the lines of the export after the replacement of the
    header. *)
Theorem export_new_lines_without_old_value (hive_mount_name data : str) :
  Forall (fun l => is_old_value_line l = false)
    (splitlines (rewrite_header hive_mount_name data)) ->
  export_new_lines hive_mount_name data
  = splitlines (rewrite_header hive_mount_name data).
Proof. intros H. unfold export_new_lines. now apply duplicate_value_blocks_id. Qed.

Lemma export_new_lines_without_old_value_witness :
  Forall (fun l => is_old_value_line l = false)
    (splitlines (rewrite_header TEMP_MOUNT_NAME
                   ("Windows Registry Editor Version 5.00" +++ nl
                    +++ hive_header TEMP_MOUNT_NAME)))
  /\ export_new_lines TEMP_MOUNT_NAME
       ("Windows Registry Editor Version 5.00" +++ nl
        +++ hive_header TEMP_MOUNT_NAME)
     = ["Windows Registry Editor Version 5.00"; hkcu_header].
Proof.
  assert (H : Forall (fun l => is_old_value_line l = false)
                (splitlines (rewrite_header TEMP_MOUNT_NAME
                   ("Windows Registry Editor Version 5.00" +++ nl
                    +++ hive_header TEMP_MOUNT_NAME)))).
  { vm_compute. repeat constructor. }
  split; [exact H|].
  rewrite (export_new_lines_without_old_value _ _ H). vm_compute. reflexivity.
Defined.

(** X3.  When no line of the export ends with a backslash, so that every
    value takes one line, the lines [export_and_save] writes are those
    of the export after the replacement of the header, each line that
    starts with the old value name followed by its copy under the new
    name. *)
Theorem export_new_lines_single_line_values (hive_mount_name data : str) :
  Forall (fun l => is_continuation l = false)
    (splitlines (rewrite_header hive_mount_name data)) ->
  export_new_lines hive_mount_name data
  = flat_map line_and_copy (splitlines (rewrite_header hive_mount_name data)).
Proof. intros H. unfold export_new_lines. now apply duplicate_value_blocks_flat. Qed.

Lemma export_new_lines_single_line_values_witness :
  Forall (fun l => is_continuation l = false)
    (splitlines (rewrite_header TEMP_MOUNT_NAME dword_value_export))
  /\ export_new_lines TEMP_MOUNT_NAME dword_value_export
     = [ "Windows Registry Editor Version 5.00"; "";
         hkcu_header;
         String dquote (OLD_VALUE_NAME +++ String dquote "=dword:00000001");
         String dquote (NEW_VALUE_NAME +++ String dquote "=dword:00000001");
         String dquote ("volume" +++ String dquote "=dword:00000007") ].
Proof.
  assert (H : Forall (fun l => is_continuation l = false)
                (splitlines (rewrite_header TEMP_MOUNT_NAME dword_value_export))).
  { vm_compute. repeat constructor. }
  split; [exact H|].
  rewrite (export_new_lines_single_line_values _ _ H). vm_compute. reflexivity.
Defined.

(* ================================================================== *)
(** * [get_user_sid] *)
(* ================================================================== *)

Lemma digits_no_dash (a : str) : digits a -> contains "-" a = false.
Proof.
  induction 1 as [c Hc|c s Hc _ IH]; cbn [contains String.prefix].
  - destruct (ascii_dec "-" c) as [<-|_]; [discriminate Hc|reflexivity].
  - destruct (ascii_dec "-" c) as [<-|_]; [discriminate Hc|exact IH].
Qed.

(** What [digit_groups] returns: a prefix of its argument made of
    digits followed by groups of a dash and digits; after a digit the
    leading digits may be missing. *)
Lemma digit_groups_shape (s : str) :
  forall after_digit,
    let m := digit_groups after_digit s in
    (exists post, s = m +++ post)
    /\ (m = EmptyString
        \/ digits m
        \/ (exists a g, m = a +++ g /\ digits a /\ dash_groups g)
        \/ (after_digit = true /\ dash_groups m)).
Proof.
  induction s as [|c s IH]; intros b; cbn zeta.
  - cbn [digit_groups]. split; [now exists EmptyString|now left].
  - cbn [digit_groups].
    destruct (is_digit c) eqn:Hc.
    + destruct (IH true) as [[post Hpost] Hm]. cbn zeta in Hpost, Hm.
      split; [exists post; cbn [String.append]; now rewrite <- Hpost|].
      right.
      destruct Hm as [Hm|[Hm|[(a & g & Hm & Ha & Hg)|[_ Hm]]]].
      * left. rewrite Hm. now constructor.
      * left. now constructor.
      * right. left. exists (String c a), g. rewrite Hm.
        split; [reflexivity|]. split; [now constructor|exact Hg].
      * right. left. exists (String c EmptyString), (digit_groups true s).
        split; [reflexivity|]. split; [now constructor|exact Hm].
    + destruct (Ascii.eqb_spec c "-"%char) as [->|_]; cbn [andb];
        [|split; [now exists (String c s)|now left]].
      destruct b; [|split; [now exists (String "-" s)|now left]].
      destruct s as [|d s']; [split; [now exists "-"|now left]|].
      destruct (is_digit d) eqn:Hd; [|split; [now exists (String "-" (String d s'))|now left]].
      destruct (IH false) as [[post Hpost] Hm]. cbn zeta in Hpost, Hm.
      split; [exists post; cbn [String.append]; now rewrite <- Hpost|].
      right. right. right. split; [reflexivity|].
      destruct Hm as [Hm|[Hm|[(a & g & Hm & Ha & Hg)|[Hf _]]]].
      * cbn [digit_groups] in Hm. rewrite Hd in Hm. discriminate Hm.
      * now apply dash_groups_one.
      * rewrite Hm. now apply dash_groups_more.
      * discriminate Hf.
Qed.

Lemma match_sid_here_sound (s m : str) :
  match_sid_here s = Some m ->
  sid_shaped m /\ exists post, s = m +++ post.
Proof.
  unfold match_sid_here.
  destruct s as [|c1 [|c2 [|c3 [|c4 [|d [|c6 rest]]]]]]; try discriminate;
    repeat match goal with
           | |- match ?c with Ascii _ _ _ _ _ _ _ _ => _ end = _ -> _ =>
               destruct c as [[] [] [] [] [] [] [] []]; try discriminate
           end.
  destruct (is_digit d) eqn:Hd; [|discriminate].
  destruct (contains "-" (digit_groups false rest)) eqn:Hdash; [|discriminate].
  intros [= <-].
  destruct (digit_groups_shape rest false) as [[post Hpost] Hm]. cbn zeta in Hpost, Hm.
  split.
  - destruct Hm as [Hm|[Hm|[(a & g & Hm & Ha & Hg)|[Hf _]]]].
    + rewrite Hm in Hdash. discriminate Hdash.
    + rewrite (digits_no_dash _ Hm) in Hdash. discriminate Hdash.
    + exists d, a, g. rewrite Hm. repeat split; assumption.
    + discriminate Hf.
  - exists post. cbn [String.append]. now rewrite <- Hpost.
Qed.

(** The SID [re.search] finds stands in the text and has the shape of
    the pattern. *)
Lemma search_sid_sound (out sid : str) :
  search_sid out = Some sid ->
  sid_shaped sid /\ exists pre post, out = pre +++ sid +++ post.
Proof.
  induction out as [|c out IH].
  - cbn. discriminate.
  - cbn [search_sid].
    destruct (match_sid_here (String c out)) as [m|] eqn:E.
    + intros [= <-]. destruct (match_sid_here_sound _ _ E) as [H [post Hp]].
      split; [exact H|]. now exists EmptyString, post.
    + intros H. destruct (IH H) as [Hs (pre & post & Hp)].
      split; [exact Hs|]. exists (String c pre), post.
      cbn [String.append]. now rewrite <- Hp.
Qed.

Lemma is_digit_not_dash (c : ascii) : is_digit c = true -> Ascii.eqb c "-" = false.
Proof.
  intros H. destruct (Ascii.eqb_spec c "-"%char) as [->|_]; [discriminate H|reflexivity].
Qed.

Lemma digit_groups_digits (a r : str) (after_digit : bool) :
  digits a ->
  digit_groups after_digit (a +++ r) = a +++ digit_groups true r.
Proof.
  intros H. revert after_digit.
  induction H as [c Hc|c a Hc _ IH]; intros b;
    cbn [String.append digit_groups]; rewrite Hc.
  - reflexivity.
  - now rewrite IH.
Qed.

Lemma digit_groups_dash (a r : str) :
  digits a ->
  digit_groups true ("-" +++ a +++ r) = "-" +++ a +++ digit_groups true r.
Proof.
  intros Ha.
  destruct Ha as [c Hc|c a Hc Ha];
    cbn [String.append digit_groups andb Ascii.eqb Bool.eqb];
    cbn [is_digit code nat_of_ascii]; rewrite Hc.
  - reflexivity.
  - now rewrite (digit_groups_digits a r true Ha).
Qed.

Lemma digit_groups_dash_groups (g r : str) :
  dash_groups g ->
  digit_groups true (g +++ r) = g +++ digit_groups true r.
Proof.
  intros H.
  induction H as [a Ha|a g Ha _ IH]; rewrite !append_assoc.
  - now apply digit_groups_dash.
  - rewrite digit_groups_dash by exact Ha. now rewrite IH.
Qed.

Lemma dash_groups_dash (g : str) : dash_groups g -> contains "-" g = true.
Proof.
  destruct 1; cbn [String.append contains String.prefix];
    (destruct (ascii_dec "-" "-") as [_|N]; [|now elim N]);
    match goal with |- String.prefix _ ?x || _ = _ => now destruct x end.
Qed.

Lemma contains_app_r (sub a b : str) :
  contains sub b = true -> contains sub (a +++ b) = true.
Proof.
  intros H. induction a as [|c a IH]; [exact H|].
  cbn [String.append contains]. rewrite IH. apply orb_true_r.
Qed.

Lemma contains_app_l (sub a b : str) :
  contains sub a = true -> contains sub (a +++ b) = true.
Proof.
  induction a as [|c a IH]; cbn [String.append contains].
  - destruct sub; [intros _; now destruct b|discriminate].
  - intros H. apply orb_true_iff in H. destruct H as [H|H].
    + apply orb_true_iff. left.
      change (String c (a +++ b)) with (String c a +++ b).
      now apply prefix_weaken.
    + rewrite (IH H). apply orb_true_r.
Qed.

Lemma match_sid_here_complete (m post : str) :
  sid_shaped m -> exists m', match_sid_here (m +++ post) = Some m'.
Proof.
  intros (d & a & g & -> & Hd & Ha & Hg).
  cbn [String.append]. rewrite !append_assoc.
  unfold match_sid_here. rewrite Hd.
  rewrite (digit_groups_digits a (g +++ post) false Ha).
  rewrite (digit_groups_dash_groups g post Hg).
  rewrite contains_app_r; [now eexists|].
  apply contains_app_l. now apply dash_groups_dash.
Qed.

Lemma search_sid_from (pre x m : str) :
  match_sid_here x = Some m -> exists sid, search_sid (pre +++ x) = Some sid.
Proof.
  intros H. induction pre as [|c pre IH]; cbn [String.append].
  - destruct x as [|c x]; [discriminate H|].
    cbn [search_sid]. rewrite H. now eexists.
  - cbn [search_sid].
    destruct (match_sid_here (String c (pre +++ x))); [now eexists|exact IH].
Qed.

(** X4.  [re.search] finds a SID exactly when the text holds a piece of
    the shape [S-1-[0-9]-[0-9]+(?:-[0-9]+)+]; what it finds is such a
    piece of the text. *)
Theorem search_sid_finds (out : str) :
  (exists sid, search_sid out = Some sid)
  <-> (exists pre m post, out = pre +++ m +++ post /\ sid_shaped m).
Proof.
  split.
  - intros [sid H]. destruct (search_sid_sound _ _ H) as [Hs (pre & post & Hp)].
    now exists pre, sid, post.
  - intros (pre & m & post & -> & Hm).
    destruct (match_sid_here_complete m post Hm) as [m' H].
    exact (search_sid_from pre _ m' H).
Qed.

(** X5.  [get_user_sid] makes one call, [whoami /user].  It returns only a
    SID found in the output of a [whoami] that exited with status 0:
    a piece of that output of the shape
    [S-1-[0-9]-[0-9]+(?:-[0-9]+)+].  The only [Exception] it raises is
    its own [RuntimeError]. *)
Theorem get_user_sid_outcome (S : Type) (env : environment S) (s : S) :
  let whoami := Subprocess ["whoami"; "/user"] in
  let x := run env get_user_sid s in
  trace x = [(whoami, answer_of whoami (fst (env whoami s)))]
  /\ (forall sid,
        result x = Returned sid ->
        exists cp pre post,
          fst (env whoami s) = inr cp
          /\ returncode cp = 0%Z
          /\ stdout cp = pre +++ sid +++ post
          /\ sid_shaped sid)
  /\ (forall e,
        result x = Raised e ->
        e = RuntimeError "Could not determine user SID."
        \/ is_Exception e = false).
Proof.
  cbv zeta. unfold get_user_sid, subprocess_run.
  cbn [try_except bind run].
  destruct (env (Subprocess ["whoami"; "/user"]) s) as [[e|cp] s1];
    cbn [lift bind try_except run fst answer_of answer_or_exn].
  - unfold except_Exception.
    destruct (is_Exception e) eqn:He; cbn [bind run result trace fst snd].
    + split; [reflexivity|]. split; [discriminate|].
      intros e' [= <-]. now left.
    + split; [reflexivity|]. split; [discriminate|].
      intros e' [= <-]. now right.
  - cbn [andb]. destruct (returncode cp =? 0)%Z eqn:Hrc; cbn [negb].
    + cbn [try_except bind run].
      destruct (search_sid (stdout cp)) as [sid|] eqn:Hsid;
        cbn [run result trace fst snd].
      * split; [reflexivity|]. split; [|discriminate].
        intros sid' [= <-].
        destruct (search_sid_sound _ _ Hsid) as [Hshape (pre & post & Hout)].
        exists cp, pre, post. repeat split; trivial. now apply Z.eqb_eq.
      * split; [reflexivity|]. split; [discriminate|].
        intros e' [= <-]. now left.
    + cbn [try_except]. unfold except_Exception. cbn [is_Exception bind run result trace fst snd].
      split; [reflexivity|]. split; [discriminate|].
      intros e' [= <-]. now left.
Qed.

(** A SID in the output of [whoami] is returned. *)
Example get_user_sid_ex :
  run (world_env no_snapshot_world) get_user_sid tt
  = (Returned demo_sid, tt,
     [(Subprocess ["whoami"; "/user"],
       AProcess {| returncode := 0; stdout := "desktop\player " +++ demo_sid |})]).
Proof. reflexivity. Qed.

(* ================================================================== *)
(** * [backup_live_hkcu_key], [reg_load] and [reg_unload] *)
(* ================================================================== *)

Ltac same_answers :=
  repeat match goal with
  | H : inr _ = inr _ |- _ => injection H as H; try subst
  | H : inl _ = inl _ |- _ => injection H as H; try subst
  | H : Returned _ = Returned _ |- _ => injection H as H; try subst
  | H : Raised _ = Raised _ |- _ => injection H as H; try subst
  | H : Some _ = Some _ |- _ => injection H as H; try subst
  | H : _ = _ |- _ => discriminate H
  end.

Ltac leaf3 :=
  repeat match goal with
  | |- _ /\ _ => split
  | |- forall _, _ => intro
  | H : negb _ = false |- _ => apply negb_false_iff in H
  | H : negb _ = true |- _ => apply negb_true_iff in H
  | H : ?a = true, H' : ?a = false |- _ => rewrite H in H'; discriminate H'
  | H : ?b = _ |- context [if ?b then _ else _] => rewrite H
  | |- _ = _ => reflexivity
  | |- _ => assumption
  | _ => progress same_answers
  end.

(** X6.  [backup_live_hkcu_key] does not stop the script when the backup
    fails.  Its first call is the [reg export] of the live key; when
    that command ran, whatever its exit status, the function prints
    one message, success or failure by the status, and returns.  It
    raises only what the call itself raised, and never a
    [CalledProcessError]. *)
Theorem backup_live_hkcu_key_outcome (P : platform) (S : Type)
    (env : environment S) (s : S) :
  let x := run env (backup_live_hkcu_key P) s in
  (forall cp,
     fst (env (export_live_key P) s) = inr cp ->
     result x = Returned tt
     /\ trace x
        = [(export_live_key P, AProcess cp);
           (Print (if (returncode cp =? 0)%Z
                   then "Live registry key backed up to " +++ LIVE_BACKUP_FILE P
                   else "Failed to backup live key: "
                        +++ str_exn P (CalledProcessError
                                         ["reg"; "export";
                                          "HKCU\Software\KLab\BleachBraveSouls";
                                          LIVE_BACKUP_FILE P; "/y"]
                                         (returncode cp))), Done)])
  /\ (forall e,
        result x = Raised e ->
        is_CalledProcessError e = false
        /\ trace x = [(export_live_key P, Fails e)]).
Proof.
  cbv zeta. unfold backup_live_hkcu_key, export_live_key.
  run_paths env.
  all: leaf3.
Qed.

(** [reg_load] sleeps once after a [reg load] that exited with status
    0 and returns; after any other exit status it raises
    [CalledProcessError] with the command and the status, without
    sleeping. *)
Lemma reg_load_outcome (hive_path mount_name : str) (S : Type)
    (env : environment S) (s : S) (cp : completed_process) :
  let x := run env (reg_load hive_path mount_name) s in
  fst (env (load_hive hive_path mount_name) s) = inr cp ->
  if (returncode cp =? 0)%Z then
    result x = Returned tt
    /\ trace x = [(load_hive hive_path mount_name, AProcess cp); (Sleep, Done)]
  else
    result x = Raised (CalledProcessError
                         ["reg"; "load"; "HKU" +++ bs +++ mount_name; hive_path]
                         (returncode cp))
    /\ trace x = [(load_hive hive_path mount_name, AProcess cp)].
Proof.
  cbv zeta. unfold reg_load, load_hive.
  run_paths env.
  all: leaf3.
Qed.

(* ================================================================== *)
(** * [find_restore_point_snapshot_dirs] and [find_user_hive_in_snapshot] *)
(* ================================================================== *)

Section Find.
Context {S : Type} (env : environment S).

Lemma is_candidate_app (t0 tr t1 : list event) (t : str * str) :
  is_candidate tr t -> is_candidate (t0 ++ tr ++ t1) t.
Proof.
  intros (H1 & H2 & H3). repeat split; trivial;
    apply in_or_app; right; apply in_or_app; now left.
Qed.

Lemma collect_snapshot_dirs_sound (rp_dirs : list str) (s : S) :
  let x := run env (collect_snapshot_dirs rp_dirs) s in
  exists candidates,
    result x = Returned candidates
    /\ subsequence (List.map fst candidates) rp_dirs
    /\ Forall (is_candidate (trace x)) candidates.
Proof.
  revert s. induction rp_dirs as [|rp_dir more IH]; intros s; cbv zeta.
  - exists []. repeat constructor.
  - cbn [collect_snapshot_dirs bind run].
    destruct (env (IsDir rp_dir) s) as [[|] s1]; cbn [bind run].
    + destruct (env (IsDir (path_join rp_dir "snapshot")) s1) as [is_snap s2].
      cbn [bind run]. rewrite run_bind.
      destruct (IH s2) as (candidates & Hr & Hsub & Hall). cbv zeta in Hr, Hsub, Hall.
      destruct (run env (collect_snapshot_dirs more) s2) as [[o s3] tr].
      cbn [result trace fst snd] in *. subst o. cbn [run].
      assert (Hall' : forall ev1 ev2,
                Forall (is_candidate (ev1 :: ev2 :: tr ++ [])) candidates).
      { intros ev1 ev2. eapply Forall_impl; [|exact Hall].
        intros t Ht. exact (is_candidate_app [ev1; ev2] tr [] t Ht). }
      destruct is_snap.
      * exists ((rp_dir, path_join rp_dir "snapshot") :: candidates).
        cbn [result trace fst snd answer_of List.map].
        split; [reflexivity|]. split; [now constructor|].
        constructor; [|apply Hall'].
        repeat split; cbn [fst snd]; [now left|right; now left].
      * exists candidates. cbn [result trace fst snd answer_of].
        split; [reflexivity|]. split; [now constructor|apply Hall'].
    + destruct (IH s1) as (candidates & Hr & Hsub & Hall). cbv zeta in Hr, Hsub, Hall.
      destruct (run env (collect_snapshot_dirs more) s1) as [[o s3] tr].
      cbn [result trace fst snd] in *. subst o.
      exists candidates. split; [reflexivity|]. split; [now constructor|].
      eapply Forall_impl; [|exact Hall].
      intros t Ht. rewrite <- (app_nil_r tr).
      exact (is_candidate_app [_] tr [] t Ht).
Qed.

Lemma find_hive_entry_sound (snapshot_dir sid : str) (entries : list str) (s : S) :
  let x := run env (find_hive_entry snapshot_dir sid entries) s in
  match result x with
  | Returned (Some full) =>
      exists before entry after,
        entries = before ++ entry :: after
        /\ names_sid sid entry = true
        /\ full = path_join snapshot_dir entry
        /\ trace x = not_a_file snapshot_dir sid before ++ [(IsFile full, ABool true)]
  | Returned None => trace x = not_a_file snapshot_dir sid entries
  | Raised _ => False
  end.
Proof.
  revert s. induction entries as [|entry more IH]; intros s; cbv zeta.
  - reflexivity.
  - cbn [find_hive_entry]. unfold not_a_file. cbn [filter].
    fold (names_sid sid entry).
    destruct (names_sid sid entry) eqn:Hn.
    + cbn [bind run].
      destruct (env (IsFile (path_join snapshot_dir entry)) s) as [[|] s1];
        cbn [bind run result trace fst snd answer_of].
      * exists [], entry, more. repeat split; trivial.
      * specialize (IH s1). cbv zeta in IH.
        destruct (run env (find_hive_entry snapshot_dir sid more) s1)
          as [[[[full|]|e] s2] tr]; cbn [result trace fst snd] in *.
        -- destruct IH as (before & entry' & after & -> & Hn' & -> & ->).
           exists (entry :: before), entry', after.
           repeat split; trivial.
           unfold not_a_file. cbn [filter]. now rewrite Hn.
        -- cbn [List.map]. now rewrite IH.
        -- exact IH.
    + specialize (IH s). cbv zeta in IH.
      destruct (run env (find_hive_entry snapshot_dir sid more) s)
        as [[[[full|]|e] s2] tr]; cbn [result trace fst snd] in *.
      * destruct IH as (before & entry' & after & -> & Hn' & -> & ->).
        exists (entry :: before), entry', after.
        repeat split; trivial.
        unfold not_a_file. cbn [filter]. now rewrite Hn.
      * exact IH.
      * exact IH.
Qed.

End Find.

(** X7.  [find_restore_point_snapshot_dirs] asks [glob] once and returns:
    it never raises.  The directories of the pairs it returns are
    among the paths [glob] listed, in the order of the listing; every
    pair is a path with its [snapshot] subdirectory, and
    [os.path.isdir] answered [True] for both. *)
Theorem find_restore_point_snapshot_dirs_sound (S : Type)
    (env : environment S) (s : S) :
  let x := run env find_restore_point_snapshot_dirs s in
  exists rp_dirs candidates more,
    trace x = (Glob restore_point_pattern, ANames rp_dirs) :: more
    /\ result x = Returned candidates
    /\ subsequence (List.map fst candidates) rp_dirs
    /\ Forall (fun t =>
                 snd t = path_join (fst t) "snapshot"
                 /\ In (IsDir (fst t), ABool true) more
                 /\ In (IsDir (snd t), ABool true) more) candidates.
Proof.
  cbv zeta. unfold find_restore_point_snapshot_dirs.
  change (os_path_join "C:\System Volume Information" ["**"; "RP*"])
    with restore_point_pattern.
  cbn [bind run].
  destruct (env (Glob restore_point_pattern) s) as [rp_dirs s1].
  destruct (collect_snapshot_dirs_sound env rp_dirs s1)
    as (candidates & Hr & Hsub & Hall).
  cbv zeta in Hr, Hsub, Hall.
  destruct (run env (collect_snapshot_dirs rp_dirs) s1) as [[o s2] tr].
  cbn [result trace fst snd answer_of] in *.
  exists rp_dirs, candidates, tr. repeat split; trivial.
Qed.

(** X8.  [find_user_hive_in_snapshot] lists the directory and tests with
    [os.path.isfile], in the order of the listing, the entries whose
    name contains the SID in any case of letters.  It returns the
    path of the first one answered to be a file, and makes no call
    after that answer; it returns [None] when every such entry was
    answered not to be a file.  It raises exactly when [os.listdir]
    raises. *)
Theorem find_user_hive_in_snapshot_sound (snapshot_dir sid : str) (S : Type)
    (env : environment S) (s : S) :
  let x := run env (find_user_hive_in_snapshot snapshot_dir sid) s in
  match result x with
  | Returned (Some full) =>
      exists before entry after,
        names_sid sid entry = true
        /\ full = path_join snapshot_dir entry
        /\ trace x
           = (ListDir snapshot_dir, ANames (before ++ entry :: after))
             :: not_a_file snapshot_dir sid before
             ++ [(IsFile full, ABool true)]
  | Returned None =>
      exists entries,
        trace x
        = (ListDir snapshot_dir, ANames entries)
          :: not_a_file snapshot_dir sid entries
  | Raised e => trace x = [(ListDir snapshot_dir, Fails e)]
  end.
Proof.
  cbv zeta. unfold find_user_hive_in_snapshot. cbn [bind run].
  destruct (env (ListDir snapshot_dir) s) as [[e|entries] s1];
    cbn [lift bind run result trace fst snd answer_of answer_or_exn].
  - reflexivity.
  - pose proof (find_hive_entry_sound env snapshot_dir sid entries s1) as H.
    cbv zeta in H.
    destruct (run env (find_hive_entry snapshot_dir sid entries) s1)
      as [[[[full|]|e] s2] tr]; cbn [result trace fst snd] in *.
    + destruct H as (before & entry & after & -> & Hn & -> & ->).
      now exists before, entry, after.
    + exists entries. now rewrite H.
    + destruct H.
Qed.

(* ================================================================== *)
(** * More on [modify_hive_value] and [export_and_save] *)
(* ================================================================== *)

(** X9.  [modify_hive_value] writes nothing but a copy of what it read.
    Every [SetValueEx] it calls is made in live mode, on the key it
    opened under the mount, and sets the new value name to the data
    and the type that [QueryValueEx] answered for the old name.  The
    key it opened is closed on every way out. *)
Theorem modify_hive_value_copies_value (P : platform) (SIMULATION_MODE : bool)
    (mount : str) (S : Type) (env : environment S) (s : S) :
  let x := run env (modify_hive_value P SIMULATION_MODE mount) s in
  (forall key name vtype val,
     In (SetValueEx key name vtype val) (calls (trace x)) ->
     SIMULATION_MODE = false
     /\ name = NEW_VALUE_NAME
     /\ In (OpenKey (hive_key_path mount), AInt key) (trace x)
     /\ In (QueryValueEx key OLD_VALUE_NAME, AValue val vtype) (trace x))
  /\ (forall key_path key,
        In (OpenKey key_path, AInt key) (trace x) ->
        key_path = hive_key_path mount
        /\ In (CloseKey key) (calls (trace x))).
Proof.
  cbv zeta. unfold modify_hive_value, hive_key_path.
  run_cases env.
  all: try (destruct SIMULATION_MODE; run_cases env).
  all: repeat match goal with
       | |- _ /\ _ => split
       | |- forall _, _ => intro
       | H : In _ _ |- _ => progress in_trace
       | H : @eq call _ _ |- _ =>
           first [discriminate H | injection H as H; try subst]
       | H : _ = _ |- _ => progress subst
       | |- _ = _ => reflexivity
       | |- In _ _ => solve [in_list]
       end.
Qed.

Ltac leaf4 :=
  repeat match goal with
  | |- _ /\ _ => split
  | |- forall _, _ => intro
  | H : exists _, _ |- _ => destruct H
  | H : _ /\ _ |- _ => destruct H
  | H : In _ _ |- _ => progress in_trace
  | H : negb _ = false |- _ => apply negb_false_iff in H
  | H : negb _ = true |- _ => apply negb_true_iff in H
  | H : ?a = true, H' : ?a = false |- _ => rewrite H in H'; discriminate H'
  | H : @eq call _ _ |- _ =>
      first [discriminate H | injection H as H; try subst]
  | |- _ = _ => reflexivity
  | |- _ => assumption
  | _ => progress same_answers
  | |- exists _, _ => eexists
  | |- In _ _ => solve [in_list]
  | H : (_ =? _)%Z = true |- _ => apply Z.eqb_eq in H
  end.

(** X10.  How [export_and_save] ends.  When [reg export] exits with a
    non-zero status it prints the failure and returns [False], having
    read and written nothing.  It raises only when the [reg export]
    call itself raises something other than [CalledProcessError], or
    on an exception that is no [Exception]: every [Exception] after
    the export makes it return [False].  When it returns [True], the
    exported text was read and the fixed text written, and in live
    mode [reg import] of the fixed file exited with status 0.
    [reg import] is called in live mode only, and only after the
    fixed file was written. *)
Theorem export_and_save_outcome (P : platform) (SIMULATION_MODE : bool)
    (mount : str) (S : Type) (env : environment S) (s : S) :
  let x := run env (export_and_save P SIMULATION_MODE mount) s in
  (forall cp,
     fst (env (export_hive_key P mount) s) = inr cp ->
     (returncode cp =? 0)%Z = false ->
     result x = Returned false
     /\ trace x
        = [(export_hive_key P mount, AProcess cp);
           (Print ("Failed to export snapshot/VSS hive: "
                   +++ str_exn P (CalledProcessError
                                    ["reg"; "export";
                                     "HKU" +++ bs +++ mount +++ bs +++ TARGET_REL_PATH;
                                     SNAPSHOT_EXPORT_FILE P; "/y"]
                                    (returncode cp))), Done)])
  /\ (forall e,
        result x = Raised e ->
        is_CalledProcessError e = false
        /\ (is_Exception e = true ->
            trace x = [(export_hive_key P mount, Fails e)]))
  /\ (result x = Returned true ->
      exists data,
        In (ReadText (SNAPSHOT_EXPORT_FILE P) "utf-16", AText data) (trace x)
        /\ In (WriteText (OUTPUT_REG_FILE P) "utf-16" (export_fixed_text mount data),
               Done) (trace x)
        /\ (SIMULATION_MODE = false ->
            exists cp,
              In (import_fixed_file P, AProcess cp) (trace x)
              /\ returncode cp = 0%Z))
  /\ (In (import_fixed_file P) (calls (trace x)) ->
      SIMULATION_MODE = false
      /\ exists data,
           In (WriteText (OUTPUT_REG_FILE P) "utf-16" data, Done) (trace x)).
Proof.
  cbv zeta. unfold export_and_save, export_hive_key, import_fixed_file.
  run_paths env.
  all: leaf4.
  all: match goal with
       | H : is_Exception ?e = false |- is_CalledProcessError ?e = false =>
           destruct e; first [reflexivity | discriminate H]
       end.
Qed.

(* ================================================================== *)
(** * The footprint of [main] *)
(* ================================================================== *)

Ltac within :=
  first [ exact I
        | reflexivity
        | solve [cbn [within_footprint]; unfold script_command;
                 repeat first [ reflexivity
                              | split
                              | left; reflexivity
                              | left; eexists; reflexivity
                              | right ]] ].

Ltac footprint := repeat always_step; try within.

Section Footprint.
Context (P : platform) (sim : bool).

Let Q := within_footprint P.

Lemma is_admin_within : always Q is_admin.
Proof. unfold is_admin. footprint. Qed.

Lemma get_user_sid_within : always Q get_user_sid.
Proof. unfold get_user_sid. footprint. Qed.

Lemma backup_within : always Q (backup_live_hkcu_key P).
Proof. unfold backup_live_hkcu_key. footprint. Qed.

Lemma process_regfile_within path : always Q (process_regfile P sim path).
Proof. unfold process_regfile. footprint. all: apply backup_within. Qed.

Lemma collect_snapshot_dirs_within l : always Q (collect_snapshot_dirs l).
Proof. induction l as [|d more IH]; cbn [collect_snapshot_dirs]; footprint; exact IH. Qed.

Lemma find_restore_point_snapshot_dirs_within :
  always Q find_restore_point_snapshot_dirs.
Proof.
  unfold find_restore_point_snapshot_dirs. footprint.
  apply collect_snapshot_dirs_within.
Qed.

Lemma rp_is_before_cutoff_within d : always Q (rp_is_before_cutoff P d).
Proof. unfold rp_is_before_cutoff. footprint. Qed.

Lemma filter_before_cutoff_within l : always Q (filter_before_cutoff P l).
Proof.
  induction l as [|t more IH]; cbn [filter_before_cutoff]; footprint.
  - apply rp_is_before_cutoff_within.
  - exact IH.
Qed.

Lemma mtime_keys_within l : always Q (mtime_keys l).
Proof. induction l as [|t more IH]; cbn [mtime_keys]; footprint. exact IH. Qed.

Lemma sort_rps_newest_first_within l : always Q (sort_rps_newest_first l).
Proof. unfold sort_rps_newest_first. footprint. apply mtime_keys_within. Qed.

Lemma find_hive_entry_within d sid l : always Q (find_hive_entry d sid l).
Proof. induction l as [|t more IH]; cbn [find_hive_entry]; footprint; exact IH. Qed.

Lemma find_user_hive_in_snapshot_within d sid :
  always Q (find_user_hive_in_snapshot d sid).
Proof. unfold find_user_hive_in_snapshot. footprint. apply find_hive_entry_within. Qed.

Lemma reg_load_within h : always Q (reg_load h TEMP_MOUNT_NAME).
Proof. unfold reg_load. footprint. Qed.

Lemma reg_unload_within : always Q (reg_unload TEMP_MOUNT_NAME).
Proof. unfold reg_unload. footprint. Qed.

Lemma modify_hive_value_within : always Q (modify_hive_value P sim TEMP_MOUNT_NAME).
Proof. unfold modify_hive_value. footprint. Qed.

Lemma export_and_save_within : always Q (export_and_save P sim TEMP_MOUNT_NAME).
Proof. unfold export_and_save. footprint. Qed.

Ltac parts :=
  first [ apply find_user_hive_in_snapshot_within | apply reg_load_within
        | apply reg_unload_within | apply modify_hive_value_within
        | apply export_and_save_within ].

Lemma try_restore_point_within sid t : always Q (try_restore_point P sim sid t).
Proof.
  unfold try_restore_point. destruct t as [rp_dir snapshot_dir].
  footprint. all: parts.
Qed.

Lemma restore_point_loop_within sid l : always Q (restore_point_loop P sim sid l).
Proof.
  induction l as [|t more IH]; cbn [restore_point_loop]; footprint.
  - apply try_restore_point_within.
  - exact IH.
Qed.

Lemma search_old_restore_points_within sid :
  always Q (search_old_restore_points P sim sid).
Proof.
  unfold search_old_restore_points. footprint.
  all: first [ apply find_restore_point_snapshot_dirs_within
             | apply filter_before_cutoff_within
             | apply sort_rps_newest_first_within
             | apply restore_point_loop_within ].
Qed.

Lemma vss_scan_within lines cur shadows : always Q (vss_scan P lines cur shadows).
Proof.
  revert cur shadows. induction lines as [|l more IH]; intros cur shadows;
    cbn [vss_scan]; footprint; apply IH.
Qed.

Lemma list_vss_snapshots_before_cutoff_within :
  always Q (list_vss_snapshots_before_cutoff P).
Proof. unfold list_vss_snapshots_before_cutoff. footprint. apply vss_scan_within. Qed.

Lemma vss_error_handler_within shadow e : always Q (vss_error_handler P shadow e).
Proof. unfold vss_error_handler. footprint. apply reg_unload_within. Qed.

Lemma try_vss_snapshot_within username found shadow :
  always Q (try_vss_snapshot P sim username found shadow).
Proof.
  unfold try_vss_snapshot. footprint.
  all: first [ parts | apply vss_error_handler_within ].
Qed.

Lemma vss_snapshot_loop_within username found l :
  always Q (vss_snapshot_loop P sim username found l).
Proof.
  revert found. induction l as [|t more IH]; intros found;
    cbn [vss_snapshot_loop]; footprint.
  - apply try_vss_snapshot_within.
  - apply IH.
Qed.

Lemma search_vss_snapshots_within : always Q (search_vss_snapshots P sim).
Proof.
  unfold search_vss_snapshots. footprint.
  all: first [ apply list_vss_snapshots_before_cutoff_within
             | apply vss_snapshot_loop_within ].
Qed.

Lemma search_snapshots_within sid : always Q (search_snapshots P sim sid).
Proof.
  unfold search_snapshots. footprint.
  all: first [ apply backup_within
             | apply search_old_restore_points_within
             | apply search_vss_snapshots_within ].
Qed.

Lemma remove_leftovers_within files :
  Forall (fun f => f = SNAPSHOT_EXPORT_FILE P \/ f = OUTPUT_REG_FILE P) files ->
  always Q (remove_leftovers files).
Proof.
  induction 1 as [|f more Hf _ IH]; cbn [remove_leftovers]; footprint.
  all: first [exact Hf | exact IH].
Qed.

End Footprint.

Lemma main_within (P : platform) : always (within_footprint P) (main P).
Proof.
  unfold main. footprint.
  all: first [ apply is_admin_within
             | apply get_user_sid_within
             | apply process_regfile_within
             | apply search_snapshots_within
             | apply remove_leftovers_within; repeat constructor; tauto ].
Qed.

(** X11.  Whatever the machine answers, and in both modes, every call of
    [main] stays within the footprint of the script: it removes no
    file but its two leftover exports, writes no file but the two
    fixed [.reg] files, in UTF-16, runs no command but [whoami],
    [vssadmin list shadows] and [reg export], [import], [load] and
    [unload] on its own key, mount and files, opens no registry key
    but the target key under the mount [TempHive], reads no registry
    value but the old name and sets none but the new name. *)
Theorem main_footprint (P : platform) (S : Type) (env : environment S) (s : S) :
  Forall (within_footprint P) (calls (trace (run env (main P) s))).
Proof. apply always_run. apply main_within. Qed.

(* ================================================================== *)
(** * Every [reg load] is followed by a [reg unload] *)
(* ================================================================== *)

Section Unloads.
Context {S : Type} (env : environment S).

Lemma unloads_run {A : Type} (p : prog A) (pending : bool)
    (Qr : A -> bool -> Prop) (Qe : exn -> bool -> Prop) (s : S) :
  unloads p pending Qr Qe ->
  let x := run env p s in
  exists pending',
    hive_pending (calls (trace x)) pending = Some pending'
    /\ match result x with
       | Returned a => Qr a pending'
       | Raised e => Qe e pending'
       end.
Proof.
  revert pending s. induction p as [a|e|c k IH]; intros pending s H; cbn [run].
  - now exists pending.
  - now exists pending.
  - destruct H as [Hc Hk]. destruct (env c s) as [r s1].
    destruct (IH r _ s1 (Hk r)) as (m & Hm & Hres).
    destruct (run env (k r) s1) as [[o s2] tr].
    cbn [calls trace result fst snd List.map hive_pending] in *.
    rewrite Hc. now exists m.
Qed.

End Unloads.

Lemma unloads_weaken {A : Type} (p : prog A) (pending : bool)
    (Qr Qr' : A -> bool -> Prop) (Qe Qe' : exn -> bool -> Prop) :
  (forall a m, Qr a m -> Qr' a m) -> (forall e m, Qe e m -> Qe' e m) ->
  unloads p pending Qr Qe -> unloads p pending Qr' Qe'.
Proof.
  intros Hr He. revert pending.
  induction p as [a|e|c k IH]; intros pending; cbn [unloads]; auto.
  intros [Hc Hk]. split; auto.
Qed.

Lemma unloads_bind {A B : Type} (p : prog A) (f : A -> prog B) (pending : bool)
    (Qr : B -> bool -> Prop) (Qe : exn -> bool -> Prop) :
  unloads p pending (fun a m => unloads (f a) m Qr Qe) Qe ->
  unloads (bind p f) pending Qr Qe.
Proof.
  revert pending. induction p as [a|e|c k IH]; intros pending; cbn [bind unloads]; auto.
  intros [Hc Hk]. split; auto.
Qed.

Lemma unloads_try_except {A : Type} (p : prog A) (h : exn -> option (prog A))
    (pending : bool) (Qr : A -> bool -> Prop) (Qe : exn -> bool -> Prop) :
  unloads p pending Qr
    (fun e m => match h e with
                | Some q => unloads q m Qr Qe
                | None => Qe e m
                end) ->
  unloads (try_except p h) pending Qr Qe.
Proof.
  revert pending. induction p as [a|e|c k IH]; intros pending;
    cbn [try_except unloads]; auto.
  - destruct (h e); auto.
  - intros [Hc Hk]. split; auto.
Qed.

(** A program without [reg load] and [reg unload] leaves the state as
    it is. *)
Lemma unloads_neutral {A : Type} (p : prog A) (pending : bool) :
  always no_mount_call p ->
  unloads p pending (fun _ m => m = pending) (fun _ m => m = pending).
Proof.
  induction p as [a|e|c k IH]; cbn [always unloads]; auto.
  intros [[Hl Hu] Hk]. unfold pending_after. rewrite Hl, Hu. split; auto.
Qed.

Lemma unloads_bind_neutral {A B : Type} (p : prog A) (f : A -> prog B)
    (pending : bool) (Qr : B -> bool -> Prop) (Qe : exn -> bool -> Prop) :
  always no_mount_call p ->
  (forall a, unloads (f a) pending Qr Qe) ->
  (forall e, Qe e pending) ->
  unloads (bind p f) pending Qr Qe.
Proof.
  intros Hp Hf He. apply unloads_bind.
  apply (unloads_weaken p pending (fun _ m => m = pending) _ (fun _ m => m = pending) _).
  - intros a m ->. apply Hf.
  - intros e m ->. apply He.
  - now apply unloads_neutral.
Qed.

Lemma unloads_bind_with {A B : Type} (p : prog A) (f : A -> prog B)
    (pending : bool) (Q1 : A -> bool -> Prop) (Q2 : exn -> bool -> Prop)
    (Qr : B -> bool -> Prop) (Qe : exn -> bool -> Prop) :
  unloads p pending Q1 Q2 ->
  (forall a m, Q1 a m -> unloads (f a) m Qr Qe) ->
  (forall e m, Q2 e m -> Qe e m) ->
  unloads (bind p f) pending Qr Qe.
Proof.
  intros Hp Hf He. apply unloads_bind.
  now apply (unloads_weaken p pending Q1 _ Q2 _).
Qed.

(** ** The functions that neither load nor unload *)

Ltac quiet := repeat always_step; try (split; reflexivity).

Section NoMountCall.
Context (P : platform) (sim : bool).

Let Q := no_mount_call.

Lemma backup_quiet : always Q (backup_live_hkcu_key P).
Proof. unfold backup_live_hkcu_key. quiet. Qed.

Lemma collect_snapshot_dirs_quiet l : always Q (collect_snapshot_dirs l).
Proof. induction l as [|d more IH]; cbn [collect_snapshot_dirs]; quiet; exact IH. Qed.

Lemma find_restore_point_snapshot_dirs_quiet :
  always Q find_restore_point_snapshot_dirs.
Proof.
  unfold find_restore_point_snapshot_dirs. quiet. apply collect_snapshot_dirs_quiet.
Qed.

Lemma rp_is_before_cutoff_quiet d : always Q (rp_is_before_cutoff P d).
Proof. unfold rp_is_before_cutoff. quiet. Qed.

Lemma filter_before_cutoff_quiet l : always Q (filter_before_cutoff P l).
Proof.
  induction l as [|t more IH]; cbn [filter_before_cutoff]; quiet.
  - apply rp_is_before_cutoff_quiet.
  - exact IH.
Qed.

Lemma mtime_keys_quiet l : always Q (mtime_keys l).
Proof. induction l as [|t more IH]; cbn [mtime_keys]; quiet. exact IH. Qed.

Lemma sort_rps_newest_first_quiet l : always Q (sort_rps_newest_first l).
Proof. unfold sort_rps_newest_first. quiet. apply mtime_keys_quiet. Qed.

Lemma find_hive_entry_quiet d sid l : always Q (find_hive_entry d sid l).
Proof. induction l as [|t more IH]; cbn [find_hive_entry]; quiet; exact IH. Qed.

Lemma find_user_hive_in_snapshot_quiet d sid :
  always Q (find_user_hive_in_snapshot d sid).
Proof. unfold find_user_hive_in_snapshot. quiet. apply find_hive_entry_quiet. Qed.

Lemma modify_hive_value_quiet m : always Q (modify_hive_value P sim m).
Proof. unfold modify_hive_value. quiet. Qed.

Lemma export_and_save_quiet m : always Q (export_and_save P sim m).
Proof. unfold export_and_save. quiet. Qed.

Lemma vss_scan_quiet lines cur shadows : always Q (vss_scan P lines cur shadows).
Proof.
  revert cur shadows. induction lines as [|l more IH]; intros cur shadows;
    cbn [vss_scan]; quiet; apply IH.
Qed.

Lemma list_vss_snapshots_before_cutoff_quiet :
  always Q (list_vss_snapshots_before_cutoff P).
Proof. unfold list_vss_snapshots_before_cutoff. quiet. apply vss_scan_quiet. Qed.

End NoMountCall.

Ltac quiet_part :=
  first [ apply find_user_hive_in_snapshot_quiet
        | apply modify_hive_value_quiet
        | apply export_and_save_quiet
        | apply find_restore_point_snapshot_dirs_quiet
        | apply filter_before_cutoff_quiet
        | apply sort_rps_newest_first_quiet
        | apply list_vss_snapshots_before_cutoff_quiet
        | apply backup_quiet ].

Ltac unloads_step :=
  match goal with
  | |- unloads (bind (Call _ _) _) _ _ _ => cbn [bind]
  | |- unloads (bind (Ret _) _) _ _ _ => cbn [bind]
  | |- unloads (bind (Raise _) _) _ _ _ => cbn [bind]
  | |- unloads (bind (bind _ _) _) _ _ _ => apply unloads_bind
  | |- unloads (bind (try_except _ _) _) _ _ _ => apply unloads_bind
  | |- unloads (bind (lift ?r) _) _ _ _ => destruct r; cbn [lift bind]
  | |- unloads (bind (if ?b then _ else _) _) _ _ _ => destruct b
  | |- unloads (bind _ _) _ _ _ =>
      apply unloads_bind_neutral; [quiet_part|intro|intro]
  | |- unloads (try_except _ _) _ _ _ => apply unloads_try_except
  | |- unloads (lift ?r) _ _ _ => destruct r; cbn [lift]
  | |- unloads (if ?b then _ else _) _ _ _ => destruct b
  | |- unloads (Call _ _) _ _ _ =>
      cbn [unloads]; split; [reflexivity|intro]
  | |- unloads (Ret _) _ _ _ => cbn [unloads]
  | |- _ && _ = false /\ _ => split; [reflexivity|intro]
  | |- unloads (Raise _) _ _ _ => cbn [unloads]
  | |- match (if ?b then _ else _) with Some _ => _ | None => _ end =>
      let E := fresh "E" in destruct b eqn:E
  | |- unloads _ (pending_after _ _) _ _ =>
      progress (cbv [pending_after is_reg_load is_reg_unload effect_of
                     subprocess_effect String.eqb Ascii.eqb Bool.eqb])
  end.

Ltac unloads_tac :=
  repeat first
    [ unloads_step
    | progress unfold reg_load, reg_unload, subprocess_run, print,
        vss_error_handler, except_Exception, except_all ].

Section UnloadsSearch.
Context (P : platform) (sim : bool).

Lemma try_restore_point_unloads (sid : str) (t : str * str) :
  unloads (try_restore_point P sim sid t) false
    (fun _ m => m = false) (fun _ m => m = false).
Proof.
  unfold try_restore_point. destruct t as [rp_dir snapshot_dir].
  apply unloads_bind_neutral; [quiet_part| |reflexivity].
  intros [hive_file|]; [|reflexivity].
  unloads_tac.
  all: try reflexivity.
Qed.

Lemma restore_point_loop_unloads (sid : str) (l : list (str * str)) :
  unloads (restore_point_loop P sim sid l) false
    (fun _ m => m = false) (fun _ m => m = false).
Proof.
  induction l as [|t more IH]; cbn [restore_point_loop]; [reflexivity|].
  eapply unloads_bind_with; [apply try_restore_point_unloads| |auto].
  intros [|] m ->; [reflexivity|exact IH].
Qed.

Lemma search_old_restore_points_keeps (sid : str) :
  unloads (search_old_restore_points P sim sid) false
    (fun _ m => m = false) (fun _ m => m = false).
Proof.
  unfold search_old_restore_points.
  apply unloads_bind_neutral; [quiet_part|intros rps|reflexivity].
  apply unloads_bind_neutral; [quiet_part|intros rps_filtered|reflexivity].
  apply unloads_bind_neutral; [quiet_part|intros rps_sorted|reflexivity].
  destruct rps_sorted as [|t more]; [unloads_tac; reflexivity|].
  eapply unloads_bind_with; [apply restore_point_loop_unloads| |auto].
  intros [|] m ->; unloads_tac; reflexivity.
Qed.




End UnloadsSearch.

(** X12.  In [search_old_restore_points] every [reg load] is followed by a
    [reg unload]: whatever the machine answers and however the search
    ends, [reg load] is never called while an earlier one has not
    been followed by a call of [reg unload], and at the end none is
    left without one. *)
Theorem search_old_restore_points_unloads (P : platform) (SIMULATION_MODE : bool)
    (sid : str) (S : Type) (env : environment S) (s : S) :
  hive_pending
    (calls (trace (run env (search_old_restore_points P SIMULATION_MODE sid) s)))
    false
  = Some false.
Proof.
  destruct (unloads_run env _ false _ _ s
              (search_old_restore_points_keeps P SIMULATION_MODE sid))
    as (m & Hm & Hres).
  rewrite Hm.
  destruct (result (run env (search_old_restore_points P SIMULATION_MODE sid) s));
    now rewrite Hres.
Qed.


(* ================================================================== *)
(** * More on [sort_rps_newest_first] *)
(* ================================================================== *)

Lemma mtime_keys_trace {S : Type} (env : environment S) (l : list (str * str)) :
  forall s keyed s' tr,
    run env (mtime_keys l) s = (Returned keyed, s', tr) ->
    List.map snd keyed = l /\ tr = mtime_reads keyed.
Proof.
  induction l as [|t more IH]; intros s keyed s' tr H.
  - cbn in H. injection H as <- <- <-. split; reflexivity.
  - cbn [mtime_keys bind run lift] in H.
    destruct (env (GetMTime (fst t)) s) as [[e|k] s1];
      cbn [lift bind run answer_of answer_or_exn] in H; [discriminate|].
    rewrite run_bind in H.
    destruct (run env (mtime_keys more) s1) as [[[rest|e] s2] t2] eqn:E2;
      [|discriminate].
    cbn [run] in H. injection H as <- <- <-.
    destruct (IH _ _ _ _ E2) as [Hmap ->].
    split; [cbn; now rewrite Hmap|].
    cbn [mtime_reads List.map fst snd]. now rewrite app_nil_r.
Qed.

(** X14.  [sort_rps_newest_first] reads the modification time of every
    restore point of its list once, in the order of the list, and
    makes no other call.  What it returns is a rearrangement of the
    list, nothing lost and nothing added, in descending order of the
    times read, in which restore points with equal times keep the
    order they had in the list. *)
Theorem sort_rps_newest_first_stable (rp_list sorted : list (str * str))
    (S : Type) (env : environment S) (s : S) :
  let x := run env (sort_rps_newest_first rp_list) s in
  result x = Returned sorted ->
  exists keyed sorted_keyed,
    List.map snd keyed = rp_list
    /\ trace x = mtime_reads keyed
    /\ List.map snd sorted_keyed = sorted
    /\ Permutation sorted_keyed keyed
    /\ StronglySorted newer_or_equal sorted_keyed
    /\ forall k, with_key k sorted_keyed = with_key k keyed.
Proof.
  cbv zeta. unfold sort_rps_newest_first. rewrite run_bind.
  destruct (run env (mtime_keys rp_list) s) as [[[keyed|e] s1] t1] eqn:E1;
    [|discriminate].
  cbn [run result trace fst snd]. intros [= <-].
  destruct (mtime_keys_trace env _ _ _ _ _ E1) as [Hmap ->].
  exists keyed, (sort_desc keyed).
  split; [exact Hmap|]. split; [now rewrite app_nil_r|].
  split; [reflexivity|]. split; [apply sort_desc_perm|].
  split; [apply sort_desc_sorted|]. intros k. apply sort_desc_stable.
Qed.

Lemma sort_rps_newest_first_stable_witness :
  result (run (world_env rp_world)
            (sort_rps_newest_first [(rp1, "a"); (rp2, "b"); (rp1, "c")]) tt)
  = Returned [(rp2, "b"); (rp1, "a"); (rp1, "c")]
  /\ exists keyed sorted_keyed,
       List.map snd keyed = [(rp1, "a"); (rp2, "b"); (rp1, "c")]
       /\ trace (run (world_env rp_world)
                   (sort_rps_newest_first [(rp1, "a"); (rp2, "b"); (rp1, "c")]) tt)
          = mtime_reads keyed
       /\ List.map snd sorted_keyed = [(rp2, "b"); (rp1, "a"); (rp1, "c")]
       /\ Permutation sorted_keyed keyed
       /\ StronglySorted newer_or_equal sorted_keyed
       /\ forall k, with_key k sorted_keyed = with_key k keyed.
Proof.
  split; [reflexivity|].
  exact (sort_rps_newest_first_stable
           [(rp1, "a"); (rp2, "b"); (rp1, "c")]
           [(rp2, "b"); (rp1, "a"); (rp1, "c")]
           unit (world_env rp_world) tt eq_refl).
Defined.

(* ================================================================== *)
(** * Rules on the order of calls *)
(* ================================================================== *)

Section Obeys.
Context (ok : list event -> call -> Prop).

Lemma obeys_run {S A : Type} (env : environment S) (p : prog A)
    (before : list event) (Qr : A -> list event -> Prop)
    (Qe : exn -> list event -> Prop) (s : S) :
  obeys ok p before Qr Qe ->
  let x := run env p s in
  (forall pre c a post,
     trace x = pre ++ (c, a) :: post -> ok (before ++ pre) c)
  /\ match result x with
     | Returned a => Qr a (before ++ trace x)
     | Raised e => Qe e (before ++ trace x)
     end.
Proof.
  revert before s. induction p as [a|e|c k IH]; intros before s H; cbn [run].
  - cbn [trace result fst snd]. rewrite app_nil_r. split; [|exact H].
    intros [|? ?] ? ? ? E; discriminate E.
  - cbn [trace result fst snd]. rewrite app_nil_r. split; [|exact H].
    intros [|? ?] ? ? ? E; discriminate E.
  - destruct H as [Hc Hk]. destruct (env c s) as [r s1].
    destruct (IH r _ s1 (Hk r)) as [Hcalls Hres].
    destruct (run env (k r) s1) as [[o s2] tr].
    cbn [trace result fst snd] in *. split.
    + intros [|ev pre] c' a' post E; cbn [app] in E.
      * injection E as <- _ _. now rewrite app_nil_r.
      * injection E as <- E.
        specialize (Hcalls pre c' a' post E).
        now rewrite <- app_assoc in Hcalls.
    + now rewrite <- app_assoc in Hres.
Qed.

Lemma obeys_weaken {A : Type} (p : prog A) (before : list event)
    (Qr Qr' : A -> list event -> Prop) (Qe Qe' : exn -> list event -> Prop) :
  (forall a h, Qr a h -> Qr' a h) -> (forall e h, Qe e h -> Qe' e h) ->
  obeys ok p before Qr Qe -> obeys ok p before Qr' Qe'.
Proof.
  intros Hr He. revert before.
  induction p as [a|e|c k IH]; intros before; cbn [obeys]; auto.
  intros [Hc Hk]. split; auto.
Qed.

Lemma obeys_bind {A B : Type} (p : prog A) (f : A -> prog B) (before : list event)
    (Qr : B -> list event -> Prop) (Qe : exn -> list event -> Prop) :
  obeys ok p before (fun a h => obeys ok (f a) h Qr Qe) Qe ->
  obeys ok (bind p f) before Qr Qe.
Proof.
  revert before. induction p as [a|e|c k IH]; intros before; cbn [bind obeys]; auto.
  intros [Hc Hk]. split; auto.
Qed.

Lemma obeys_try_except {A : Type} (p : prog A) (h : exn -> option (prog A))
    (before : list event) (Qr : A -> list event -> Prop)
    (Qe : exn -> list event -> Prop) :
  obeys ok p before Qr
    (fun e h' => match h e with
                 | Some q => obeys ok q h' Qr Qe
                 | None => Qe e h'
                 end) ->
  obeys ok (try_except p h) before Qr Qe.
Proof.
  revert before. induction p as [a|e|c k IH]; intros before;
    cbn [try_except obeys]; auto.
  - destruct (h e); auto.
  - intros [Hc Hk]. split; auto.
Qed.

Lemma obeys_bind_with {A B : Type} (p : prog A) (f : A -> prog B)
    (before : list event) (Q1 : A -> list event -> Prop)
    (Q2 : exn -> list event -> Prop)
    (Qr : B -> list event -> Prop) (Qe : exn -> list event -> Prop) :
  obeys ok p before Q1 Q2 ->
  (forall a h, Q1 a h -> obeys ok (f a) h Qr Qe) ->
  (forall e h, Q2 e h -> Qe e h) ->
  obeys ok (bind p f) before Qr Qe.
Proof.
  intros Hp Hf He. apply obeys_bind.
  now apply (obeys_weaken p before Q1 _ Q2 _).
Qed.

End Obeys.

(** ** The backup comes first *)

Section BackupFirst.
Context (P : platform).

Let anything {A : Type} : A -> list event -> Prop := fun _ _ => True.

(** Once the backup was called, every program obeys the rule. *)
Lemma backup_first_done {A : Type} (p : prog A) (before : list event)
    (Qr : A -> list event -> Prop) (Qe : exn -> list event -> Prop) :
  In (export_live_key P) (calls before) ->
  (forall a h, In (export_live_key P) (calls h) -> Qr a h) ->
  (forall e h, In (export_live_key P) (calls h) -> Qe e h) ->
  obeys (backup_first P) p before Qr Qe.
Proof.
  intros H Hr He. revert before H.
  induction p as [a|e|c k IH]; intros before H; cbn [obeys].
  - now apply Hr.
  - now apply He.
  - split; [intros _; exact H|]. intros r. apply IH.
    unfold calls. rewrite map_app. apply in_or_app. now left.
Qed.

(** A program that changes nothing obeys the rule. *)
Lemma backup_first_nlc {A : Type} (p : prog A) (before : list event) :
  always no_live_change p ->
  obeys (backup_first P) p before anything anything.
Proof.
  revert before. induction p as [a|e|c k IH]; intros before; cbn [always obeys].
  - intros _. exact I.
  - intros _. exact I.
  - intros [[H1 H2] Hk]. split; [|auto].
    unfold backup_first, changes_registry. rewrite H1, H2. discriminate.
Qed.

Lemma backup_first_then {A B : Type} (p : prog A) (f : A -> prog B)
    (before : list event) :
  always no_live_change p ->
  (forall a h, obeys (backup_first P) (f a) h anything anything) ->
  obeys (backup_first P) (bind p f) before anything anything.
Proof.
  intros Hp Hf.
  eapply obeys_bind_with; [now apply backup_first_nlc| |auto].
  intros a h _. apply Hf.
Qed.

(** After [backup_live_hkcu_key], anything goes. *)
Lemma backup_first_backup {B : Type} (f : unit -> prog B) (before : list event)
    (Qr : B -> list event -> Prop) (Qe : exn -> list event -> Prop) :
  (forall a h, In (export_live_key P) (calls h) -> Qr a h) ->
  (forall e h, In (export_live_key P) (calls h) -> Qe e h) ->
  obeys (backup_first P) (bind (backup_live_hkcu_key P) f) before Qr Qe.
Proof.
  intros Hr He.
  unfold backup_live_hkcu_key, subprocess_run. cbn [bind try_except obeys].
  split; [discriminate|]. intros r.
  apply backup_first_done; trivial. unfold calls. rewrite map_app.
  apply in_or_app. right. now left.
Qed.

Lemma process_regfile_backup_first {B : Type} (sim : bool) (path : str)
    (f : bool -> prog B) (before : list event) :
  (forall a h, obeys (backup_first P) (f a) h anything anything) ->
  obeys (backup_first P) (bind (process_regfile P sim path) f) before
    anything anything.
Proof.
  intros Hf. unfold process_regfile. cbn [bind obeys].
  split; [discriminate|]. intros isfile.
  destruct (negb isfile).
  { cbn [bind print obeys]. split; [discriminate|]. intros ?. apply Hf. }
  apply obeys_bind. apply obeys_bind.
  eapply obeys_weaken with (Qr := anything) (Qe := anything);
    [| |apply backup_first_nlc].
  - intros data h _.
    destruct (negb (contains target_key_line data)).
    + cbn [bind print obeys]. split; [discriminate|]. intros ?. apply Hf.
    + apply backup_first_backup; [|intros; exact I]. intros a h' _. apply Hf.
  - auto.
  - nlc.
Qed.

Lemma main_backup_first (before : list event) :
  obeys (backup_first P) (main P) before anything anything.
Proof.
  unfold main.
  destruct (negb (os_name P =? "nt")%string); [now apply backup_first_nlc; nlc|].
  apply backup_first_then; [apply is_admin_nlc|]. intros admin h1.
  destruct (negb admin); [now apply backup_first_nlc; nlc|].
  apply backup_first_then; [apply remove_leftovers_nlc|]. intros _ h2.
  apply backup_first_then; [nlc|]. intros a h3.
  apply backup_first_then; [nlc|]. intros _ h4.
  apply backup_first_then; [nlc; apply get_user_sid_nlc|]. intros [sid|] h5;
    [|exact I].
  destruct (regfile_given a) as [path|].
  - apply process_regfile_backup_first. intros [|] h6; [exact I|].
    unfold search_snapshots. apply backup_first_backup; intros; exact I.
  - cbn [bind]. unfold search_snapshots. apply backup_first_backup; intros; exact I.
Qed.

End BackupFirst.

(** X15.  [main] changes no registry before it has called the backup of
    the live key: in every run, in both modes, every
    [winreg.SetValueEx] and every [reg import] comes after the call
    of [reg export] of [HKCU\Software\KLab\BleachBraveSouls] to the
    backup file. *)
Theorem main_backs_up_first (P : platform) (S : Type) (env : environment S)
    (s : S) :
  forall pre c a post,
    trace (run env (main P) s) = pre ++ (c, a) :: post ->
    changes_registry c = true ->
    In (export_live_key P) (calls pre).
Proof.
  intros pre c a post H.
  destruct (obeys_run (backup_first P) env (main P) [] _ _ s (main_backup_first P []))
    as [Hcalls _].
  exact (Hcalls pre c a post H).
Qed.

(** On [live_rp_world] the new value is set after the backup. *)
Lemma main_backs_up_first_witness :
  live_rp_run
  = firstn 27 live_rp_run
    ++ (SetValueEx 7%Z NEW_VALUE_NAME 3%Z (RegBytes "01"), Done)
    :: skipn 28 live_rp_run
  /\ changes_registry (SetValueEx 7%Z NEW_VALUE_NAME 3%Z (RegBytes "01")) = true
  /\ In (export_live_key demo_platform) (calls (firstn 27 live_rp_run)).
Proof.
  assert (H : live_rp_run
              = firstn 27 live_rp_run
                ++ (SetValueEx 7%Z NEW_VALUE_NAME 3%Z (RegBytes "01"), Done)
                :: skipn 28 live_rp_run) by (vm_compute; reflexivity).
  split; [exact H|]. split; [reflexivity|].
  exact (main_backs_up_first demo_platform unit (world_env live_rp_world) tt
           _ _ _ _ H eq_refl).
Defined.

(* ================================================================== *)
(** * Exceptions [search_old_restore_points] does not catch *)
(* ================================================================== *)

Ltac calm := repeat always_step; try reflexivity.

Section Calm.
Context (P : platform) (sim : bool).

Let Q := fun c => reads_directory c = false.

Lemma collect_snapshot_dirs_calm l : always Q (collect_snapshot_dirs l).
Proof. induction l as [|d more IH]; cbn [collect_snapshot_dirs]; calm; exact IH. Qed.

Lemma find_restore_point_snapshot_dirs_calm :
  always Q find_restore_point_snapshot_dirs.
Proof.
  unfold find_restore_point_snapshot_dirs. calm. apply collect_snapshot_dirs_calm.
Qed.

Lemma find_hive_entry_calm d sid l : always Q (find_hive_entry d sid l).
Proof. induction l as [|t more IH]; cbn [find_hive_entry]; calm; exact IH. Qed.

Lemma reg_load_calm h m : always Q (reg_load h m).
Proof. unfold reg_load. calm. Qed.

Lemma reg_unload_calm m : always Q (reg_unload m).
Proof. unfold reg_unload. calm. Qed.

Lemma modify_hive_value_calm m : always Q (modify_hive_value P sim m).
Proof. unfold modify_hive_value. calm. Qed.

Lemma export_and_save_calm m : always Q (export_and_save P sim m).
Proof. unfold export_and_save. calm. Qed.

End Calm.

Section DirectoryErrors.
Context (P : platform) (sim : bool).

Let ok := stops_at_directory_error.
Let Qr {A : Type} : A -> list event -> Prop := fun _ h => directories_read h.
Let Qe : exn -> list event -> Prop :=
  fun e h => directories_read h \/ ends_with_directory_error e h.

Lemma directories_read_snoc (h : list event) (ev : event) :
  directories_read h -> directory_error ev = None -> directories_read (h ++ [ev]).
Proof.
  intros H1 H2. apply Forall_app. split; [exact H1|]. now constructor.
Qed.

(** A program that reads no directory goes on as it started. *)
Lemma obeys_calm {A : Type} (p : prog A) (before : list event) :
  always (fun c => reads_directory c = false) p ->
  directories_read before ->
  obeys ok p before Qr Qe.
Proof.
  revert before. induction p as [a|e|c k IH]; intros before; cbn [always obeys].
  - intros _ H. exact H.
  - intros _ H. now left.
  - intros [Hc Hk] H. split; [exact H|]. intros r. apply IH; [apply Hk|].
    apply directories_read_snoc; [exact H|].
    unfold directory_error. cbn [fst]. now rewrite Hc.
Qed.

Ltac read_on H :=
  first [ exact H
        | apply directories_read_snoc; [read_on H|reflexivity] ].

Ltac read_fails H :=
  right; eexists; eexists; split; [reflexivity|]; split; [reflexivity|read_on H].

Lemma rp_is_before_cutoff_stops (rp_dir : str) (before : list event) :
  directories_read before ->
  obeys ok (rp_is_before_cutoff P rp_dir) before Qr Qe.
Proof.
  intros H. unfold rp_is_before_cutoff. cbn [bind obeys].
  split; [exact H|].
  intros [e|mtime]; cbn [lift bind answer_of answer_or_exn obeys].
  - read_fails H.
  - destruct (fromtimestamp_utc P mtime) as [e|rp_dt]; cbn [lift bind obeys].
    + left. read_on H.
    + destruct (CUTOFF_DATETIME <=? rp_dt)%Z; cbn [bind print obeys answer_of].
      * split; [read_on H|]. intros ?. read_on H.
      * read_on H.
Qed.

Lemma filter_before_cutoff_stops (rps : list (str * str)) (before : list event) :
  directories_read before ->
  obeys ok (filter_before_cutoff P rps) before Qr Qe.
Proof.
  revert before. induction rps as [|t more IH]; intros before H;
    cbn [filter_before_cutoff]; [exact H|].
  eapply obeys_bind_with; [now apply rp_is_before_cutoff_stops| |auto].
  intros keep h Hh.
  eapply obeys_bind_with; [now apply IH| |auto].
  intros rest h' Hh'. exact Hh'.
Qed.

Lemma mtime_keys_stops (l : list (str * str)) (before : list event) :
  directories_read before ->
  obeys ok (mtime_keys l) before Qr Qe.
Proof.
  revert before. induction l as [|t more IH]; intros before H;
    cbn [mtime_keys]; [exact H|].
  cbn [bind obeys]. split; [exact H|].
  intros [e|k]; cbn [lift bind answer_of answer_or_exn obeys].
  - read_fails H.
  - eapply obeys_bind_with; [apply IH; read_on H| |auto].
    intros rest h' Hh'. exact Hh'.
Qed.

Lemma sort_rps_newest_first_stops (l : list (str * str)) (before : list event) :
  directories_read before ->
  obeys ok (sort_rps_newest_first l) before Qr Qe.
Proof.
  intros H. unfold sort_rps_newest_first.
  eapply obeys_bind_with; [now apply mtime_keys_stops| |auto].
  intros keyed h Hh. exact Hh.
Qed.

Lemma try_restore_point_stops (sid : str) (t : str * str) (before : list event) :
  directories_read before ->
  obeys ok (try_restore_point P sim sid t) before Qr Qe.
Proof.
  intros H. destruct t as [rp_dir snapshot_dir].
  unfold try_restore_point, find_user_hive_in_snapshot. cbn [bind obeys].
  split; [exact H|].
  intros [e|entries]; cbn [lift bind answer_of answer_or_exn obeys].
  - read_fails H.
  - apply obeys_calm; [|read_on H].
    calm.
    all: first [ apply find_hive_entry_calm | apply reg_load_calm
               | apply reg_unload_calm | apply modify_hive_value_calm
               | apply export_and_save_calm ].
Qed.

Lemma restore_point_loop_stops (sid : str) (l : list (str * str))
    (before : list event) :
  directories_read before ->
  obeys ok (restore_point_loop P sim sid l) before Qr Qe.
Proof.
  revert before. induction l as [|t more IH]; intros before H;
    cbn [restore_point_loop]; [exact H|].
  eapply obeys_bind_with; [now apply try_restore_point_stops| |auto].
  intros [|] h Hh; [exact Hh|now apply IH].
Qed.

Lemma search_old_restore_points_stops (sid : str) :
  obeys ok (search_old_restore_points P sim sid) [] Qr Qe.
Proof.
  unfold search_old_restore_points.
  eapply obeys_bind_with;
    [apply obeys_calm; [apply find_restore_point_snapshot_dirs_calm|constructor]
    | |auto].
  intros rps h1 H1.
  eapply obeys_bind_with; [now apply filter_before_cutoff_stops| |auto].
  intros rps_filtered h2 H2.
  eapply obeys_bind_with; [now apply sort_rps_newest_first_stops| |auto].
  intros [|t more] h3 H3.
  - cbn [bind print obeys]. split; [exact H3|]. intros ?. read_on H3.
  - eapply obeys_bind_with; [now apply restore_point_loop_stops| |auto].
    intros [|] h4 H4; [exact H4|].
    cbn [bind print obeys]. split; [exact H4|]. intros ?. read_on H4.
Qed.

End DirectoryErrors.

(** X16.  [search_old_restore_points] catches no exception of [os.listdir]
    and of [os.path.getmtime]: when one of these calls raises, the
    search makes no further call and raises that exception; no older
    restore point is tried. *)
Theorem search_old_restore_points_directory_error (P : platform)
    (SIMULATION_MODE : bool) (sid : str) (S : Type) (env : environment S)
    (s : S) (c : call) (e : exn) :
  let x := run env (search_old_restore_points P SIMULATION_MODE sid) s in
  reads_directory c = true ->
  In (c, Fails e) (trace x) ->
  result x = Raised e
  /\ exists pre, trace x = pre ++ [(c, Fails e)].
Proof.
  cbv zeta. intros Hc Hin.
  destruct (obeys_run _ env _ [] _ _ s
              (search_old_restore_points_stops P SIMULATION_MODE sid))
    as [Hcalls Hres].
  cbn [app] in Hres.
  assert (Hbad : directory_error (c, Fails e) = Some e).
  { unfold directory_error. cbn [fst snd]. now rewrite Hc. }
  assert (Hnot : ~ directories_read
                     (trace (run env (search_old_restore_points P SIMULATION_MODE sid) s))).
  { intros H. unfold directories_read in H. rewrite Forall_forall in H.
    specialize (H _ Hin). congruence. }
  destruct (result (run env (search_old_restore_points P SIMULATION_MODE sid) s))
    as [found|e'].
  - contradiction.
  - destruct Hres as [Hres|(pre & ev & Htr & Hev & Hpre)]; [contradiction|].
    rewrite Htr in Hin. apply in_app_or in Hin. destruct Hin as [Hin|[Heq|[]]].
    + unfold directories_read in Hpre. rewrite Forall_forall in Hpre.
      specialize (Hpre _ Hin). congruence.
    + subst ev. assert (He : e' = e) by congruence. subst e'.
      split; [reflexivity|]. now exists pre.
Qed.

(** On [rp_locked_world] the newest restore point before the cutoff
    cannot be listed, and the search ends there. *)
Lemma search_old_restore_points_directory_error_witness :
  In (ListDir (path_join rp2 "snapshot"), Fails access_denied)
    (trace (run (world_env rp_locked_world)
              (search_old_restore_points demo_platform true demo_sid) tt))
  /\ result (run (world_env rp_locked_world)
               (search_old_restore_points demo_platform true demo_sid) tt)
     = Raised access_denied
  /\ exists pre,
       trace (run (world_env rp_locked_world)
                (search_old_restore_points demo_platform true demo_sid) tt)
       = pre ++ [(ListDir (path_join rp2 "snapshot"), Fails access_denied)].
Proof.
  assert (H : In (ListDir (path_join rp2 "snapshot"), Fails access_denied)
                (trace (run (world_env rp_locked_world)
                          (search_old_restore_points demo_platform true demo_sid) tt))).
  { vm_compute. repeat first [left; reflexivity | right]. }
  split; [exact H|].
  exact (search_old_restore_points_directory_error demo_platform true demo_sid
           unit (world_env rp_locked_world) tt
           (ListDir (path_join rp2 "snapshot")) access_denied eq_refl H).
Defined.

(* ================================================================== *)
(** * More on [process_regfile] *)
(* ================================================================== *)

Lemma replace_from_absent (s old new : str) :
  contains old s = false -> replace_from 0 s old new = s.
Proof.
  induction s as [|c s IH]; cbn [contains replace_from]; [reflexivity|].
  intros H. apply orb_false_iff in H. destruct H as [H1 H2].
  rewrite H1. now rewrite IH.
Qed.

(** A text without the old value name is left as it is. *)
Lemma regfile_fixed_text_absent (data : str) :
  contains OLD_VALUE_NAME data = false -> regfile_fixed_text data = data.
Proof. intros H. unfold regfile_fixed_text. now apply replace_from_absent. Qed.

(** X17.  The corners of [process_regfile].  A failure of the second read,
    as UTF-8, is not caught.  The exit status of [reg import] does not
    change the result: once [reg import] has run, the function
    returns [True].  When it returns [True], the backup of the live
    key was called and, in live mode, [reg import].  A file that
    does not hold the old value name is written back as it was read,
    and the function still returns [True]. *)
Theorem process_regfile_corners (P : platform) (SIMULATION_MODE : bool)
    (regfile_path : str) (S : Type) (env : environment S) (s : S) :
  let x := run env (process_regfile P SIMULATION_MODE regfile_path) s in
  (forall e,
     In (ReadText regfile_path "utf-8", Fails e) (trace x) ->
     result x = Raised e)
  /\ (forall cp,
        In (import_regfile_output P, AProcess cp) (trace x) ->
        result x = Returned true)
  /\ (result x = Returned true ->
      In (export_live_key P) (calls (trace x))
      /\ (SIMULATION_MODE = false ->
          In (import_regfile_output P) (calls (trace x))))
  /\ (forall encoding data,
        In (ReadText regfile_path encoding, AText data) (trace x) ->
        contains OLD_VALUE_NAME data = false ->
        result x = Returned true ->
        In (WriteText (REGFILE_OUTPUT_FILE P) "utf-16" data, Done) (trace x)).
Proof.
  cbv zeta.
  unfold process_regfile, backup_live_hkcu_key, import_regfile_output,
    export_live_key.
  run_paths env.
  all: leaf4.
  all: try (rewrite regfile_fixed_text_absent by assumption; in_list).
Qed.

(** A backup without the old value is imported unchanged, and
    reported as used. *)
Example process_regfile_plain_ex :
  run (world_env plain_regfile_world)
    (process_regfile demo_platform false "C:\backup.reg") tt
  = (Returned true, tt,
     [(IsFile "C:\backup.reg", ABool true);
      (ReadText "C:\backup.reg" "utf-16", AText plain_regfile_text);
      (export_live_key demo_platform,
       AProcess {| returncode := 0; stdout := "" |});
      (Print ("Live registry key backed up to " +++ LIVE_BACKUP_FILE demo_platform),
       Done);
      (WriteText (REGFILE_OUTPUT_FILE demo_platform) "utf-16" plain_regfile_text,
       Done);
      (Print ("Fixed REG exported to " +++ REGFILE_OUTPUT_FILE demo_platform), Done);
      (import_regfile_output demo_platform,
       AProcess {| returncode := 0; stdout := "" |});
      (Print ("Merged modified REG into live registry: "
              +++ REGFILE_OUTPUT_FILE demo_platform), Done)]).
Proof. vm_compute. reflexivity. Qed.

(* ================================================================== *)
(** * [main] after the arguments *)
(* ================================================================== *)

(** A run of [main] that gets past the administrator check, the
    removal of the leftover files and the parsing of the arguments
    goes on as [main_after_args]. *)
Lemma main_run_after_args (P : platform) (S : Type) (env : environment S)
    (s : S) (a : args) :
  let admin := run env is_admin s in
  let removal :=
    run env (remove_leftovers [SNAPSHOT_EXPORT_FILE P; OUTPUT_REG_FILE P])
      (final admin) in
  let s3 := snd (env ParseArgs (final removal)) in
  let s4 := snd (env (Print (mode_message a)) s3) in
  let rest := run env (main_after_args P a) s4 in
  String.eqb (os_name P) "nt" = true ->
  result admin = Returned true ->
  result removal = Returned tt ->
  fst (env ParseArgs (final removal)) = inr a ->
  run env (main P) s
  = (result rest, final rest,
     trace admin ++ main_opening a (trace removal) ++ trace rest).
Proof.
  cbv zeta. intros Hnt Hadmin Hremoval Hargs.
  unfold main. rewrite Hnt. cbn [negb]. rewrite run_bind.
  destruct (run env is_admin s) as [[o1 s1] t1].
  cbn [result final trace fst snd] in *. subst o1. cbn [negb].
  rewrite run_bind.
  destruct (run env (remove_leftovers [SNAPSHOT_EXPORT_FILE P; OUTPUT_REG_FILE P]) s1)
    as [[o2 s2] t2].
  cbn [result final trace fst snd] in *. subst o2.
  cbn [bind run].
  destruct (env ParseArgs s2) as [r s3]. cbn [fst snd] in *. subst r.
  cbn [lift bind answer_of answer_or_exn].
  rewrite run_bind, run_print.
  fold (simulation_mode_of a). fold (mode_message a).
  change (run env _ (snd (env (Print (mode_message a)) s3)))
    with (run env (main_after_args P a) (snd (env (Print (mode_message a)) s3))).
  destruct (run env (main_after_args P a) (snd (env (Print (mode_message a)) s3)))
    as [[o s5] t5].
  cbn [result final trace fst snd]. unfold main_opening.
  now rewrite <- !app_assoc.
Qed.

(** X18.  When [get_user_sid] raises its [RuntimeError], [main] prints the
    error and returns: the message is its last call, and no backup,
    no [.reg] file and no snapshot is touched. *)
Theorem main_without_sid (P : platform) (S : Type) (env : environment S)
    (s : S) (a : args) (msg : str) :
  let admin := run env is_admin s in
  let removal :=
    run env (remove_leftovers [SNAPSHOT_EXPORT_FILE P; OUTPUT_REG_FILE P])
      (final admin) in
  let s3 := snd (env ParseArgs (final removal)) in
  let s4 := snd (env (Print (mode_message a)) s3) in
  let sid := run env get_user_sid s4 in
  String.eqb (os_name P) "nt" = true ->
  result admin = Returned true ->
  result removal = Returned tt ->
  fst (env ParseArgs (final removal)) = inr a ->
  result sid = Raised (RuntimeError msg) ->
  result (run env (main P) s) = Returned tt
  /\ trace (run env (main P) s)
     = trace admin ++ main_opening a (trace removal) ++ trace sid
       ++ [(Print ("ERROR: " +++ str_exn P (RuntimeError msg)), Done)].
Proof.
  cbv zeta. intros Hnt Hadmin Hremoval Hargs Hsid.
  rewrite (main_run_after_args P S env s a Hnt Hadmin Hremoval Hargs).
  cbn [result trace fst snd].
  unfold main_after_args. rewrite run_bind, run_try_except, run_bind.
  destruct (run env get_user_sid _) as [[o s5] t5].
  cbn [result fst] in Hsid. subst o. cbn [is_RuntimeError].
  rewrite run_bind, run_print. cbn [run result trace fst snd].
  split; [reflexivity|]. now rewrite !app_nil_r.
Qed.

(** On [quiet_world], where [whoami] prints nothing, [main] ends with
    the error message. *)
Lemma main_without_sid_witness :
  result (run (world_env quiet_world) (main demo_platform) tt) = Returned tt
  /\ trace (run (world_env quiet_world) (main demo_platform) tt)
     = [(IsUserAnAdmin, AInt 1);
        (PathExists (SNAPSHOT_EXPORT_FILE demo_platform), ABool false);
        (PathExists (OUTPUT_REG_FILE demo_platform), ABool false);
        (ParseArgs, AArgs {| mode := simulation; regfile := None |});
        (Print "Running in SIMULATION mode", Done);
        (Subprocess ["whoami"; "/user"],
         AProcess {| returncode := 0; stdout := "" |});
        (Print "ERROR: Could not determine user SID.", Done)].
Proof.
  exact (main_without_sid demo_platform unit (world_env quiet_world) tt
           {| mode := simulation; regfile := None |}
           "Could not determine user SID."
           eq_refl eq_refl eq_refl eq_refl eq_refl).
Defined.

(** X19.  When a [.reg] file is given and [process_regfile] returns [True],
    [main] returns at once: the calls of [process_regfile] are its
    last, and no restore point and no shadow copy is searched. *)
Theorem main_regfile_used (P : platform) (S : Type) (env : environment S)
    (s : S) (a : args) (user_sid regfile_path : str) :
  let admin := run env is_admin s in
  let removal :=
    run env (remove_leftovers [SNAPSHOT_EXPORT_FILE P; OUTPUT_REG_FILE P])
      (final admin) in
  let s3 := snd (env ParseArgs (final removal)) in
  let s4 := snd (env (Print (mode_message a)) s3) in
  let sid := run env get_user_sid s4 in
  let used :=
    run env (process_regfile P (simulation_mode_of a) regfile_path) (final sid) in
  String.eqb (os_name P) "nt" = true ->
  result admin = Returned true ->
  result removal = Returned tt ->
  fst (env ParseArgs (final removal)) = inr a ->
  result sid = Returned user_sid ->
  regfile_given a = Some regfile_path ->
  result used = Returned true ->
  result (run env (main P) s) = Returned tt
  /\ trace (run env (main P) s)
     = trace admin ++ main_opening a (trace removal) ++ trace sid ++ trace used.
Proof.
  cbv zeta. intros Hnt Hadmin Hremoval Hargs Hsid Hgiven Hused.
  rewrite (main_run_after_args P S env s a Hnt Hadmin Hremoval Hargs).
  cbn [result trace fst snd].
  unfold main_after_args. rewrite run_bind, run_try_except, run_bind.
  destruct (run env get_user_sid _) as [[o s5] t5].
  cbn [result final trace fst snd] in Hsid, Hused |- *. subst o.
  cbn [run]. rewrite Hgiven, run_bind.
  destruct (run env (process_regfile P (simulation_mode_of a) regfile_path) s5)
    as [[o s6] t6].
  cbn [result trace fst snd] in Hused |- *. subst o.
  cbn [run result trace fst snd].
  split; [reflexivity|]. now rewrite !app_nil_r.
Qed.

(** On [regfile_given_world] the run of [main] ends with the message
    of [process_regfile]. *)
Lemma main_regfile_used_witness :
  result (run (world_env regfile_given_world) (main demo_platform) tt) = Returned tt
  /\ trace (run (world_env regfile_given_world) (main demo_platform) tt)
     = [(IsUserAnAdmin, AInt 1);
        (PathExists (SNAPSHOT_EXPORT_FILE demo_platform), ABool false);
        (PathExists (OUTPUT_REG_FILE demo_platform), ABool false);
        (ParseArgs, AArgs {| mode := simulation; regfile := Some "C:\backup.reg" |});
        (Print "Running in SIMULATION mode", Done);
        (Subprocess ["whoami"; "/user"],
         AProcess {| returncode := 0; stdout := "desktop\player " +++ demo_sid |});
        (IsFile "C:\backup.reg", ABool true);
        (ReadText "C:\backup.reg" "utf-16", AText regfile_text);
        (export_live_key demo_platform,
         AProcess {| returncode := 0; stdout := "" |});
        (Print ("Live registry key backed up to " +++ LIVE_BACKUP_FILE demo_platform),
         Done);
        (WriteText (REGFILE_OUTPUT_FILE demo_platform) "utf-16"
           (regfile_fixed_text regfile_text), Done);
        (Print ("Fixed REG exported to " +++ REGFILE_OUTPUT_FILE demo_platform),
         Done)].
Proof.
  exact (main_regfile_used demo_platform unit (world_env regfile_given_world) tt
           {| mode := simulation; regfile := Some "C:\backup.reg" |}
           demo_sid "C:\backup.reg"
           eq_refl eq_refl eq_refl eq_refl eq_refl eq_refl eq_refl).
Defined.

(* ================================================================== *)
(** * More on [search_vss_snapshots] *)
(* ================================================================== *)

(** A property of the calls made that every call of [p] keeps holds
    when [p] ends. *)
Lemma obeys_invariant {A : Type} (Q : call -> Prop) (Inv : list event -> Prop)
    (p : prog A) (before : list event) :
  always Q p ->
  (forall h c r, Inv h -> Q c -> Inv (h ++ [(c, answer_of c r)])) ->
  Inv before ->
  obeys any_call p before (fun _ h => Inv h) (fun _ h => Inv h).
Proof.
  intros Hp Hstep. revert before Hp.
  induction p as [a|e|c k IH]; intros before Hp H; cbn [always obeys] in *.
  - exact H.
  - exact H.
  - destruct Hp as [Hc Hk]. split; [exact I|]. intros r.
    apply IH; [apply Hk|]. now apply Hstep.
Qed.

Lemma always_True {A : Type} (p : prog A) : always (fun _ => True) p.
Proof. induction p as [a|e|c k IH]; cbn [always]; auto. Qed.

(** A property that more calls do not undo holds when [p] ends. *)
Lemma obeys_monotone {A : Type} (Inv : list event -> Prop) (p : prog A)
    (before : list event) :
  (forall h t, Inv h -> Inv (h ++ t)) ->
  Inv before ->
  obeys any_call p before (fun _ h => Inv h) (fun _ h => Inv h).
Proof.
  intros Hmono H.
  apply (obeys_invariant (fun _ => True)); [apply always_True| |exact H].
  intros h c r Hh _. now apply Hmono.
Qed.

(** ** The hives are looked for in the order of the list *)

Lemma tested_app (t1 t2 : list event) :
  tested (t1 ++ t2) = tested t1 ++ tested t2.
Proof.
  induction t1 as [|[c a] t1 IH]; cbn [app tested]; [reflexivity|].
  destruct c; cbn [app]; now rewrite IH.
Qed.

Lemma tested_snoc (h : list event) (c : call) (a : answer) :
  is_PathExists c = false -> tested (h ++ [(c, a)]) = tested h.
Proof.
  intros H. rewrite tested_app. destruct c; try discriminate H;
    cbn [tested]; apply app_nil_r.
Qed.

Ltac untested := repeat always_step; try reflexivity.

Section Untested.
Context (P : platform) (sim : bool).

Let Q := fun c => is_PathExists c = false.

Lemma untested_of_core {A : Type} (p : prog A) :
  always (fun c => core_call c = true) p -> always Q p.
Proof. apply always_weaken. intros c H. now destruct c. Qed.

Lemma vss_scan_untested lines cur shadows :
  always Q (vss_scan P lines cur shadows).
Proof.
  revert cur shadows. induction lines as [|l more IH]; intros cur shadows;
    cbn [vss_scan]; untested; apply IH.
Qed.

Lemma list_vss_snapshots_before_cutoff_untested :
  always Q (list_vss_snapshots_before_cutoff P).
Proof.
  unfold list_vss_snapshots_before_cutoff. untested. apply vss_scan_untested.
Qed.

(** An iteration of the loop looks for one hive, first of all. *)
Lemma try_vss_snapshot_tests (username : str) (found : bool) (shadow : str)
    (before : list event) :
  obeys any_call (try_vss_snapshot P sim (Some username) found shadow) before
    (fun _ h => tested h = tested before ++ [ntuser_path username shadow])
    (fun _ h => tested h = tested before ++ [ntuser_path username shadow]).
Proof.
  unfold try_vss_snapshot. fold (ntuser_path username shadow).
  cbn [bind obeys]. split; [exact I|]. intros present.
  apply (obeys_invariant Q).
  - destruct present; untested.
    all: apply untested_of_core.
    all: first [ apply reg_load_core | apply reg_unload_core
               | apply modify_hive_value_core | apply export_and_save_core ].
  - intros h c r Hh Hc. now rewrite tested_snoc.
  - rewrite tested_app. reflexivity.
Qed.

Lemma vss_snapshot_loop_tests (username : str) (found : bool)
    (shadows : list str) (before : list event) :
  obeys any_call (vss_snapshot_loop P sim (Some username) found shadows) before
    (fun _ h => exists n,
       tested h = tested before
                  ++ firstn n (List.map (ntuser_path username) shadows))
    (fun _ h => exists n,
       tested h = tested before
                  ++ firstn n (List.map (ntuser_path username) shadows)).
Proof.
  revert found before.
  induction shadows as [|shadow more IH]; intros found before;
    cbn [vss_snapshot_loop].
  - exists 0. cbn. now rewrite app_nil_r.
  - eapply obeys_bind_with; [apply try_vss_snapshot_tests| |].
    + intros [found' [|]] h Hh.
      * exists 1. exact Hh.
      * eapply obeys_weaken; [| |apply IH].
        -- intros ? h' [n Hn]. exists (Datatypes.S n).
           rewrite Hn, Hh, <- app_assoc. reflexivity.
        -- intros ? h' [n Hn]. exists (Datatypes.S n).
           rewrite Hn, Hh, <- app_assoc. reflexivity.
    + intros e h Hh. exists 1. exact Hh.
Qed.

End Untested.

(** ** What a search that returns [True] has done *)

Lemma obeys_both {A : Type} (ok : list event -> call -> Prop) (p : prog A)
    (before : list event) (Q1 Q2 : A -> list event -> Prop)
    (E1 E2 : exn -> list event -> Prop) :
  obeys ok p before Q1 E1 -> obeys ok p before Q2 E2 ->
  obeys ok p before (fun a h => Q1 a h /\ Q2 a h) (fun e h => E1 e h /\ E2 e h).
Proof.
  revert before. induction p as [a|e|c k IH]; intros before; cbn [obeys]; auto.
  intros [Hc1 Hk1] [_ Hk2]. split; auto.
Qed.

Lemma old_value_read_more (h t : list event) :
  old_value_read h -> old_value_read (h ++ t).
Proof.
  intros (key & val & vtype & H). exists key, val, vtype.
  apply in_or_app. now left.
Qed.

Lemma new_value_written_more (h t : list event) :
  new_value_written h -> new_value_written (h ++ t).
Proof.
  intros (key & val & vtype & H). exists key, val, vtype.
  apply in_or_app. now left.
Qed.

Lemma value_found_more (sim found : bool) (h t : list event) :
  value_found sim found h -> value_found sim found (h ++ t).
Proof.
  intros H Hf. destruct (H Hf) as [H1 H2]. split.
  - now apply old_value_read_more.
  - intros Hs. now apply new_value_written_more, H2.
Qed.

Ltac in_history :=
  repeat (apply in_or_app; first [right; left; reflexivity | left]).

Section ValueFound.
Context (P : platform) (sim : bool).

(** [modify_hive_value] returns [True] only when it has read the old
    value and, in live mode, written the new one. *)
Lemma modify_hive_value_found (mount : str) (before : list event) :
  obeys any_call (modify_hive_value P sim mount) before
    (fun modified h => value_found sim modified h) (fun _ _ => True).
Proof.
  unfold modify_hive_value.
  destruct sim;
    repeat first
      [ progress cbn [obeys bind try_except finally lift print negb
                      answer_of answer_or_exn]
      | match goal with
        | |- _ /\ _ => split
        | |- any_call _ _ => exact I
        | |- True => exact I
        | |- forall r : _, _ =>
            let r := fresh "r" in
            intro r; cbn in r;
            try match type of r with
                | (_ + _)%type => destruct r as [?|?]
                end
        | |- context [let '(_, _) := ?q in _] => destruct q
        | |- context [is_FileNotFoundError ?e] => destruct (is_FileNotFoundError e)
        | |- context [is_Exception ?e] => destruct (is_Exception e)
        | |- value_found _ false _ => intros H; discriminate H
        | |- value_found _ true _ =>
            intros _; split;
            [ do 3 eexists; in_history
            | intros H; first [discriminate H | do 3 eexists; in_history] ]
        end ].
Qed.

Lemma try_vss_snapshot_found (username : option str) (found : bool)
    (shadow : str) (before : list event) :
  value_found sim found before ->
  obeys any_call (try_vss_snapshot P sim username found shadow) before
    (fun step h => value_found sim (fst step) h) (fun _ _ => True).
Proof.
  intros H. unfold try_vss_snapshot. destruct username as [username|]; [|exact I].
  cbn [bind obeys]. split; [exact I|]. intros present.
  destruct present; [|cbn [obeys fst]; now apply value_found_more].
  cbn [bind print obeys]. split; [exact I|]. intros ?.
  apply obeys_try_except.
  (* reg_load *)
  eapply obeys_bind_with;
    [apply (obeys_monotone (value_found sim found));
     [apply value_found_more|now do 2 apply value_found_more]| |].
  2: { intros e h Hh. unfold except_Exception. destruct (is_Exception e); [|exact I].
       eapply obeys_bind_with;
         [apply (obeys_monotone (value_found sim found));
          [apply value_found_more|exact Hh]| |auto].
       intros ? h' Hh'. exact Hh'. }
  intros ? h1 H1.
  (* modify_hive_value *)
  eapply obeys_bind_with;
    [apply obeys_both;
     [apply modify_hive_value_found
     |apply (obeys_monotone (value_found sim found));
      [apply value_found_more|exact H1]]| |].
  2: { intros e h [_ Hh]. unfold except_Exception. destruct (is_Exception e); [|exact I].
       eapply obeys_bind_with;
         [apply (obeys_monotone (value_found sim found));
          [apply value_found_more|exact Hh]| |auto].
       intros ? h' Hh'. exact Hh'. }
  intros modified h2 [Hm H2].
  (* export_and_save and the new value of found *)
  assert (Hhandler : forall (found' : bool) e h,
            value_found sim found h ->
            match except_Exception
                    (fun e0 => vss_error_handler P shadow e0 ;; Ret (found, false)) e
            with
            | Some q => obeys any_call q h
                          (fun step h' => value_found sim (fst step) h')
                          (fun _ _ => True)
            | None => True
            end).
  { intros _ e h Hh. unfold except_Exception. destruct (is_Exception e); [|exact I].
    eapply obeys_bind_with;
      [apply (obeys_monotone (value_found sim found));
       [apply value_found_more|exact Hh]| |auto].
    intros ? h' Hh'. exact Hh'. }
  eapply obeys_bind_with with
    (Q1 := fun found' h => value_found sim found' h /\ value_found sim found h)
    (Q2 := fun _ h => value_found sim found h).
  - destruct modified.
    + eapply obeys_bind_with;
        [apply (obeys_monotone (fun h => value_found sim true h /\ value_found sim found h));
         [intros h t [Ha Hb]; split; now apply value_found_more|now split]| |].
      * intros ? h3 H3. exact H3.
      * intros e h3 [_ H3]. exact H3.
    + cbn [obeys]. now split.
  - intros found' h3 H3.
    assert (Hmore : forall h t,
              value_found sim found' h /\ value_found sim found h ->
              value_found sim found' (h ++ t) /\ value_found sim found (h ++ t)).
    { intros h t [Ha Hb]. split; now apply value_found_more. }
    apply obeys_try_except.
    eapply obeys_bind_with; [apply (obeys_monotone _ _ _ Hmore H3)| |].
    + intros ? h4 [H4 _]. exact H4.
    + intros e h4 H4. unfold except_Exception at 1.
      destruct (is_Exception e) eqn:He.
      * eapply obeys_bind_with; [apply (obeys_monotone _ _ _ Hmore H4)| |].
        -- intros ? h5 [H5 _]. exact H5.
        -- intros e' h5 [_ H5]. exact (Hhandler found e' h5 H5).
      * unfold except_Exception. now rewrite He.
  - intros e h Hh. exact (Hhandler found e h Hh).
Qed.

Lemma vss_snapshot_loop_found (username : option str) (found : bool)
    (shadows : list str) (before : list event) :
  value_found sim found before ->
  obeys any_call (vss_snapshot_loop P sim username found shadows) before
    (fun found' h => value_found sim found' h) (fun _ _ => True).
Proof.
  revert found before.
  induction shadows as [|shadow more IH]; intros found before H;
    cbn [vss_snapshot_loop]; [exact H|].
  eapply obeys_bind_with; [now apply try_vss_snapshot_found| |auto].
  intros [found' [|]] h Hh; cbn [fst] in Hh; [exact Hh|now apply IH].
Qed.

Lemma search_vss_snapshots_found_obeys :
  obeys any_call (search_vss_snapshots P sim) []
    (fun found h => value_found sim found h) (fun _ _ => True).
Proof.
  unfold search_vss_snapshots.
  eapply obeys_bind_with;
    [apply (obeys_monotone (fun _ => True)); auto| |auto].
  intros [|shadow more] h _; [intros H; discriminate H|].
  cbn [bind obeys]. split; [exact I|]. intros username.
  apply obeys_bind.
  eapply obeys_weaken; [| |apply vss_snapshot_loop_found].
  - intros found h' Hf. destruct found; cbn [negb bind print obeys].
    + exact Hf.
    + split; [exact I|]. intros ? H; discriminate H.
  - auto.
  - intros H; discriminate H.
Qed.

End ValueFound.

Lemma tested_untested (tr : list event) :
  Forall (fun c => is_PathExists c = false) (calls tr) -> tested tr = [].
Proof.
  induction tr as [|[c a] tr IH]; cbn [calls List.map fst tested]; [reflexivity|].
  intros H. inversion H as [|c' l Hc Hl]; subst.
  destruct c; try discriminate Hc; now apply IH.
Qed.

(** X20.  [search_vss_snapshots] returns [True] only when the old value was
    read from a mounted hive and, in live mode, the new value was
    written to it. *)
Theorem search_vss_snapshots_found (P : platform) (SIMULATION_MODE : bool)
    (S : Type) (env : environment S) (s : S) :
  let x := run env (search_vss_snapshots P SIMULATION_MODE) s in
  result x = Returned true ->
  old_value_read (trace x)
  /\ (SIMULATION_MODE = false -> new_value_written (trace x)).
Proof.
  cbv zeta. intros H.
  destruct (obeys_run any_call env _ [] _ _ s
              (search_vss_snapshots_found_obeys P SIMULATION_MODE))
    as [_ Hres].
  rewrite H in Hres. cbn [app] in Hres. now apply Hres.
Qed.

(** On [two_shadows_world] with the hive of the user in the shadow
    copy, the simulated search returns [True] after reading the old
    value. *)
Lemma search_vss_snapshots_found_witness :
  result (run (world_env shadow_hive_world)
            (search_vss_snapshots demo_platform true) tt)
  = Returned true
  /\ old_value_read
       (trace (run (world_env shadow_hive_world)
                 (search_vss_snapshots demo_platform true) tt)).
Proof.
  assert (H : result (run (world_env shadow_hive_world)
                        (search_vss_snapshots demo_platform true) tt)
              = Returned true) by (vm_compute; reflexivity).
  split; [exact H|].
  exact (proj1 (search_vss_snapshots_found demo_platform true unit
                  (world_env shadow_hive_world) tt H)).
Defined.

(** X21.  [search_vss_snapshots] looks for the hive of the user in the
    shadow copies in the order in which
    [list_vss_snapshots_before_cutoff] returned them, and stops at
    some point of the list: the paths it tests with [os.path.exists]
    are, in order, [os.path.join(shadow, "Users", USERNAME,
    "NTUSER.DAT")] for the first shadow copies of the list, whatever
    the variable [USERNAME] holds. *)
Theorem search_vss_snapshots_order (P : platform) (SIMULATION_MODE : bool)
    (S : Type) (env : environment S) (s : S) (shadows : list str)
    (username : str) :
  let listed := run env (list_vss_snapshots_before_cutoff P) s in
  let x := run env (search_vss_snapshots P SIMULATION_MODE) s in
  result listed = Returned shadows ->
  fst (env (GetEnv "USERNAME") (final listed)) = Some username ->
  exists n,
    tested (trace x) = firstn n (List.map (ntuser_path username) shadows).
Proof.
  cbv zeta. intros Hl Hu. unfold search_vss_snapshots. rewrite run_bind.
  pose proof (always_run env _ _ s (list_vss_snapshots_before_cutoff_untested P)) as H1.
  apply tested_untested in H1.
  destruct (run env (list_vss_snapshots_before_cutoff P) s) as [[o s1] t1].
  cbn [result final trace fst snd] in *. subst o.
  destruct shadows as [|shadow more].
  - exists 0. cbn [run trace snd]. now rewrite app_nil_r.
  - cbn [bind run].
    destruct (env (GetEnv "USERNAME") s1) as [u s2]. cbn [fst] in Hu. subst u.
    rewrite run_bind.
    destruct (obeys_run any_call env _ [] _ _ s2
                (vss_snapshot_loop_tests P SIMULATION_MODE username false
                   (shadow :: more) []))
      as [_ Hres].
    destruct (run env (vss_snapshot_loop P SIMULATION_MODE (Some username) false
                         (shadow :: more)) s2) as [[[found|e] s3] t3];
      cbn [result trace fst snd app tested] in Hres; cbn [result trace fst snd].
    + destruct Hres as [n Hn]. exists n.
      destruct found; cbn [negb bind run]; rewrite ?run_bind, ?run_print;
        cbn [run trace snd];
        rewrite tested_app, H1; cbn [app tested]; rewrite !tested_app;
        cbn [tested]; rewrite ?app_nil_r; exact Hn.
    + destruct Hres as [n Hn]. exists n.
      rewrite tested_app, H1. cbn [app tested]. exact Hn.
Qed.

Lemma search_vss_snapshots_order_witness :
  result (run (world_env shadow_hive_world)
            (list_vss_snapshots_before_cutoff demo_platform) tt)
  = Returned ["\\?\GLOBALROOT\Device\HarddiskVolumeShadowCopy1"]
  /\ exists n,
       tested (trace (run (world_env shadow_hive_world)
                        (search_vss_snapshots demo_platform true) tt))
       = firstn n
           ["\\?\GLOBALROOT\Device\HarddiskVolumeShadowCopy1\Users\player\NTUSER.DAT"].
Proof.
  assert (H : result (run (world_env shadow_hive_world)
                        (list_vss_snapshots_before_cutoff demo_platform) tt)
              = Returned ["\\?\GLOBALROOT\Device\HarddiskVolumeShadowCopy1"])
    by (vm_compute; reflexivity).
  split; [exact H|].
  exact (search_vss_snapshots_order demo_platform true unit
           (world_env shadow_hive_world) tt _ "player" H eq_refl).
Defined.

(** X22.  The corners of [search_vss_snapshots].  Without a shadow copy
    before the cutoff it returns [False] after the calls of
    [list_vss_snapshots_before_cutoff] and makes no other call: it
    does not read [USERNAME] and touches no hive.  With a shadow copy
    and no [USERNAME] in the environment it raises an [Exception] of
    a class it does not catch, the [TypeError] of [os.path.join],
    right after reading the variable. *)
Theorem search_vss_snapshots_corners (P : platform) (SIMULATION_MODE : bool)
    (S : Type) (env : environment S) (s : S) :
  let listed := run env (list_vss_snapshots_before_cutoff P) s in
  let x := run env (search_vss_snapshots P SIMULATION_MODE) s in
  (result listed = Returned [] -> x = (Returned false, final listed, trace listed))
  /\ (forall shadow more,
        result listed = Returned (shadow :: more) ->
        fst (env (GetEnv "USERNAME") (final listed)) = None ->
        (exists msg, result x = Raised (OtherException msg))
        /\ trace x = trace listed ++ [(GetEnv "USERNAME", AEnv None)])
  /\ (forall e,
        result listed = Raised e ->
        result x = Raised e /\ trace x = trace listed).
Proof.
  cbv zeta. unfold search_vss_snapshots. rewrite run_bind.
  destruct (run env (list_vss_snapshots_before_cutoff P) s) as [[o s1] t1].
  cbn [result final trace fst snd].
  split; [|split].
  - intros ->. cbn [run]. now rewrite app_nil_r.
  - intros shadow more -> Hu. cbn [bind run].
    destruct (env (GetEnv "USERNAME") s1) as [u s2]. cbn [fst] in Hu. subst u.
    cbn [vss_snapshot_loop try_vss_snapshot bind run result trace fst snd answer_of].
    split; [now eexists|reflexivity].
  - intros e ->. now split.
Qed.

(* ================================================================== *)
(** * [list_vss_snapshots_before_cutoff] misses no shadow copy *)
(* ================================================================== *)

Section VssComplete.
Context (P : platform) {S : Type} (env : environment S).

(** A line that is neither a creation-time line nor a volume line
    is passed over. *)
Lemma created_skip (raw : str) (more : list str) (path : str) :
  is_ctime_line (strip raw) = false ->
  created_before_cutoff P (raw :: more) path ->
  created_before_cutoff P more path.
Proof.
  intros Hd (before & date_line & between & volume_line & after & utc
             & Hl & H1 & H2 & H3 & H4 & H5 & H6).
  destruct before as [|b before]; cbn [app] in Hl; injection Hl as -> Hl.
  - congruence.
  - now exists before, date_line, between, volume_line, after, utc.
Qed.

Lemma expected_skip (raw : str) (more : list str) (current current' : vss_current)
    (path : str) :
  is_volume_line (strip raw) = false ->
  cur_ctime current' = cur_ctime current ->
  volume_expected P (raw :: more) current path ->
  volume_expected P more current' path.
Proof.
  intros Hv Hc (utc & between & volume_line & after & H1 & H2 & Hl & H3 & H4 & H5).
  destruct between as [|b between]; cbn [app] in Hl; injection Hl as -> Hl.
  - congruence.
  - inversion H3 as [|x l Hx Hl']; subst.
    exists utc, between, volume_line, after. rewrite Hc. repeat split; trivial.
Qed.

Lemma vss_scan_complete :
  forall lines current shadows s res,
    result (run env (vss_scan P lines current shadows) s) = Returned res ->
    (forall path, In path shadows -> In path res)
    /\ (forall path, created_before_cutoff P lines path -> In path res)
    /\ (forall path, volume_expected P lines current path -> In path res).
Proof.
  induction lines as [|raw more IH]; intros current shadows s res Hr.
  - cbn in Hr. injection Hr as <-. split; [auto|]. split.
    + intros path (before & date_line & between & volume_line & after & utc
                   & Hl & _).
      destruct before; discriminate Hl.
    + intros path (utc & between & volume_line & after & _ & _ & Hl & _).
      destruct between; discriminate Hl.
  - cbn [vss_scan] in Hr.
    destruct (startswith (strip raw) "Shadow Copy ID:") eqn:Hid.
    { (* Shadow Copy ID *)
      assert (Hd : is_ctime_line (strip raw) = false)
        by (unfold is_ctime_line, is_id_line; now rewrite Hid).
      assert (Hv : is_volume_line (strip raw) = false)
        by (unfold is_volume_line, is_id_line; now rewrite Hid).
      destruct (IH _ _ _ _ Hr) as (I1 & I2 & I3).
      split; [exact I1|]. split.
      - intros path Hp. apply I2. now apply (created_skip raw).
      - intros path Hp. apply I3. now apply (expected_skip raw more current). }
    destruct (contains "at creation time:" (strip raw)) eqn:Hct.
    { (* creation time *)
      assert (Hd : is_ctime_line (strip raw) = true)
        by (unfold is_ctime_line, is_id_line; now rewrite Hid, Hct).
      assert (Hv : is_volume_line (strip raw) = false)
        by (unfold is_volume_line; now rewrite Hct, andb_false_r).
      assert (Hexp : forall path,
                ~ volume_expected P (raw :: more) current path).
      { intros path (utc & between & volume_line & after & _ & _ & Hl & H3 & H4 & _).
        destruct between as [|b between]; cbn [app] in Hl; injection Hl as -> Hl.
        - congruence.
        - inversion H3 as [|x l [Hx _] Hl']; subst. congruence. }
      destruct (parse_creation_time P (creation_date_str (strip raw)))
        as [e|utc] eqn:Hp.
      - destruct (is_Exception e); [|discriminate Hr].
        rewrite run_bind, run_print in Hr.
        match type of Hr with
        | context [run env (vss_scan P more ?c ?sh) ?s1] =>
            pose proof (IH c sh s1) as IH';
            destruct (run env (vss_scan P more c sh) s1) as [[[r|e'] s2] t2]
        end; [|discriminate Hr].
        cbn in Hr. injection Hr as <-.
        destruct (IH' r eq_refl) as (I1 & I2 & I3).
        split; [exact I1|]. split.
        + intros path (before & date_line & between & volume_line & after & utc
                       & Hl & H1 & H2 & H3 & H4 & H5 & H6).
          destruct before as [|b before]; cbn [app] in Hl; injection Hl as -> Hl.
          * congruence.
          * apply I2. now exists before, date_line, between, volume_line, after, utc.
        + intros path Hp'. now destruct (Hexp path).
      - destruct (IH _ _ _ _ Hr) as (I1 & I2 & I3).
        split; [exact I1|]. split.
        + intros path (before & date_line & between & volume_line & after & utc'
                       & Hl & H1 & H2 & H3 & H4 & H5 & H6).
          destruct before as [|b before]; cbn [app] in Hl; injection Hl as -> Hl.
          * apply I3. exists utc, between, volume_line, after.
            cbn [cur_ctime]. repeat split; trivial; congruence.
          * apply I2. now exists before, date_line, between, volume_line, after, utc'.
        + intros path Hp'. now destruct (Hexp path). }
    destruct (startswith (strip raw) "Shadow Copy Volume:") eqn:Hvol.
    { (* Shadow Copy Volume *)
      assert (Hd : is_ctime_line (strip raw) = false)
        by (unfold is_ctime_line; now rewrite Hct, andb_false_r).
      assert (Hv : is_volume_line (strip raw) = true)
        by (unfold is_volume_line, is_id_line; now rewrite Hid, Hct, Hvol).
      assert (Hexp : forall path utc,
                volume_expected P (raw :: more) current path ->
                cur_ctime current = Some (Some utc) ->
                (utc < CUTOFF_DATETIME)%Z
                /\ path = after_last_colon (strip raw)).
      { intros path utc (utc' & between & volume_line & after
                         & H1 & H2 & Hl & H3 & H4 & H5) Hc.
        destruct between as [|b between]; cbn [app] in Hl; injection Hl as -> Hl.
        - split; [congruence|exact H5].
        - inversion H3 as [|x l [_ Hx] Hl']; subst. congruence. }
      destruct (cur_ctime current) as [[ctime|]|] eqn:Hc.
      - rewrite run_bind, run_print in Hr.
        match type of Hr with
        | context [run env (vss_scan P more ?c ?sh) ?s1] =>
            pose proof (IH c sh s1) as IH';
            destruct (run env (vss_scan P more c sh) s1) as [[[r|e'] s2] t2]
        end; [|discriminate Hr].
        cbn in Hr. injection Hr as <-.
        destruct (IH' r eq_refl) as (I1 & I2 & I3).
        split; [|split].
        + intros path Hp. apply I1.
          destruct (ctime <? CUTOFF_DATETIME)%Z; [|exact Hp].
          apply in_or_app. now left.
        + intros path Hp. apply I2. now apply (created_skip raw).
        + intros path Hp. destruct (Hexp path ctime Hp eq_refl) as [Hlt ->].
          apply I1. apply Z.ltb_lt in Hlt. rewrite Hlt.
          apply in_or_app. right. now left.
      - destruct (IH _ _ _ _ Hr) as (I1 & I2 & I3).
        split; [exact I1|]. split.
        + intros path Hp. apply I2. now apply (created_skip raw).
        + intros path (utc & _ & _ & _ & Hc' & _). congruence.
      - destruct (IH _ _ _ _ Hr) as (I1 & I2 & I3).
        split; [exact I1|]. split.
        + intros path Hp. apply I2. now apply (created_skip raw).
        + intros path (utc & _ & _ & _ & Hc' & _). congruence. }
    (* any other line *)
    assert (Hd : is_ctime_line (strip raw) = false)
      by (unfold is_ctime_line; now rewrite Hct, andb_false_r).
    assert (Hv : is_volume_line (strip raw) = false)
      by (unfold is_volume_line; now rewrite Hvol, andb_false_r).
    destruct (IH _ _ _ _ Hr) as (I1 & I2 & I3).
    split; [exact I1|]. split.
    + intros path Hp. apply I2. now apply (created_skip raw).
    + intros path Hp. apply I3. now apply (expected_skip raw more current).
Qed.

End VssComplete.

(** X23.  [list_vss_snapshots_before_cutoff] misses no shadow copy.  When
    it returns, every volume line of the [vssadmin] output that
    follows a creation-time line whose date was parsed and lies, in
    UTC, strictly before the cutoff, with no other creation-time or
    volume line in between, has its path in the list returned. *)
Theorem list_vss_snapshots_before_cutoff_complete (P : platform) (S : Type)
    (env : environment S) (s : S) (shadows : list str)
    (cp : completed_process) (path : str) :
  let x := run env (list_vss_snapshots_before_cutoff P) s in
  result x = Returned shadows ->
  fst (env vssadmin_list_shadows s) = inr cp ->
  created_before_cutoff P (splitlines (stdout cp)) path ->
  In path shadows.
Proof.
  cbv zeta. unfold list_vss_snapshots_before_cutoff, vssadmin_list_shadows.
  rewrite run_bind. unfold subprocess_run. cbn [run bind lift andb].
  destruct (env (Subprocess ["vssadmin"; "list"; "shadows"]) s) as [[e|cp'] s1];
    cbn [lift bind run answer_of answer_or_exn result trace fst snd];
    [discriminate|].
  rewrite run_bind.
  pose proof (vss_scan_complete P env (splitlines (stdout cp')) empty_current [] s1)
    as Hscan.
  destruct (run env (vss_scan P (splitlines (stdout cp')) empty_current []) s1)
    as [[[found|e] s2] t2]; cbn [result trace fst snd] in *; [|discriminate].
  destruct (Hscan found eq_refl) as (_ & Hall & _).
  intros Hr [= <-] Hpath.
  destruct found as [|p ps].
  - rewrite run_bind, run_print in Hr. cbn [run result fst] in Hr.
    injection Hr as <-. now apply Hall.
  - cbn [run result fst] in Hr. injection Hr as <-. now apply Hall.
Qed.

(** The first shadow copy of [two_shadows_output] was created before
    the cutoff, and is returned. *)
Lemma list_vss_snapshots_before_cutoff_complete_witness :
  created_before_cutoff demo_platform (splitlines two_shadows_output)
    "\\?\GLOBALROOT\Device\HarddiskVolumeShadowCopy1"
  /\ result (run (world_env two_shadows_world)
               (list_vss_snapshots_before_cutoff demo_platform) tt)
     = Returned ["\\?\GLOBALROOT\Device\HarddiskVolumeShadowCopy1"]
  /\ In "\\?\GLOBALROOT\Device\HarddiskVolumeShadowCopy1"
       ["\\?\GLOBALROOT\Device\HarddiskVolumeShadowCopy1"].
Proof.
  assert (Hc : created_before_cutoff demo_platform (splitlines two_shadows_output)
                 "\\?\GLOBALROOT\Device\HarddiskVolumeShadowCopy1").
  { exists ["Contents of shadow copy set ID: {0a}"],
      "   Contained 1 shadow copies at creation time: 10/01/2025 12:11:45 PM",
      ["      Shadow Copy ID: {0b}";
       "         Original Volume: (C:)\\?\Volume{0c}\"],
      "         Shadow Copy Volume: \\?\GLOBALROOT\Device\HarddiskVolumeShadowCopy1",
      (skipn 5 (splitlines two_shadows_output)),
      (datetime_utc 2025 10 1 0 0 0).
    split; [vm_compute; reflexivity|].
    split; [vm_compute; reflexivity|].
    split; [vm_compute; reflexivity|].
    split; [vm_compute; reflexivity|].
    split; [repeat constructor|].
    split; vm_compute; reflexivity. }
  assert (Hr : result (run (world_env two_shadows_world)
                         (list_vss_snapshots_before_cutoff demo_platform) tt)
               = Returned ["\\?\GLOBALROOT\Device\HarddiskVolumeShadowCopy1"])
    by (vm_compute; reflexivity).
  split; [exact Hc|]. split; [exact Hr|].
  exact (list_vss_snapshots_before_cutoff_complete demo_platform unit
           (world_env two_shadows_world) tt _
           {| returncode := 0; stdout := two_shadows_output |} _
           Hr eq_refl Hc).
Defined.

(* ================================================================== *)
(** * [list_vss_snapshots] and [vss_is_before_cutoff] *)
(* ================================================================== *)

Lemma shadow_volumes_filter (lines shadows : list str) :
  shadow_volumes lines shadows
  = shadows
    ++ List.map after_last_colon (filter (contains "Shadow Copy Volume") lines).
Proof.
  revert shadows. induction lines as [|line more IH]; intros shadows;
    cbn [shadow_volumes filter List.map].
  - now rewrite app_nil_r.
  - destruct (contains "Shadow Copy Volume" line); cbn [List.map].
    + rewrite IH, <- app_assoc. reflexivity.
    + apply IH.
Qed.

(** X24.  [list_vss_snapshots] makes one call, [vssadmin list shadows], and
    does not look at its exit status.  It returns, in the order of
    the output, the text after the last colon, stripped, of every
    line that contains [Shadow Copy Volume]; it raises only what the
    call itself raises. *)
Theorem list_vss_snapshots_outcome (S : Type) (env : environment S) (s : S) :
  let x := run env list_vss_snapshots s in
  match fst (env vssadmin_list_shadows s) with
  | inr cp =>
      result x
      = Returned (List.map after_last_colon
                    (filter (contains "Shadow Copy Volume")
                       (splitlines (stdout cp))))
      /\ trace x = [(vssadmin_list_shadows, AProcess cp)]
  | inl e =>
      result x = Raised e /\ trace x = [(vssadmin_list_shadows, Fails e)]
  end.
Proof.
  cbv zeta. unfold list_vss_snapshots, vssadmin_list_shadows, subprocess_run.
  cbn [bind run].
  destruct (env (Subprocess ["vssadmin"; "list"; "shadows"]) s) as [[e|cp] s1];
    cbn [fst lift bind andb run result trace fst snd answer_of answer_or_exn].
  - now split.
  - rewrite shadow_volumes_filter. now split.
Qed.

(** On the output of [two_shadows_world] both shadow copies are
    listed, the one created after the cutoff too. *)
Example list_vss_snapshots_ex :
  result (run (world_env two_shadows_world) list_vss_snapshots tt)
  = Returned ["\\?\GLOBALROOT\Device\HarddiskVolumeShadowCopy1";
              "\\?\GLOBALROOT\Device\HarddiskVolumeShadowCopy2"].
Proof. vm_compute. reflexivity. Qed.

(** X25.  [vss_is_before_cutoff] raises no [Exception]: a failure to read
    or to convert the creation time makes it return [False].  It
    returns [True] exactly when the creation time was read and
    converted to a datetime that is not 1970-01-01 00:00:00 UTC and
    lies strictly before the cutoff. *)
Theorem vss_is_before_cutoff_outcome (P : platform)
    (getctime : str -> prog float) (shadow_path : str) (S : Type)
    (env : environment S) (s : S) :
  let read := run env (getctime shadow_path) s in
  let x := run env (vss_is_before_cutoff P getctime shadow_path) s in
  (forall e, result x = Raised e -> is_Exception e = false)
  /\ (result x = Returned true <->
      exists ctime dt,
        result read = Returned ctime
        /\ fromtimestamp_utc P ctime = inr dt
        /\ dt <> EPOCH
        /\ (dt < CUTOFF_DATETIME)%Z).
Proof.
  cbv zeta. unfold vss_is_before_cutoff.
  rewrite run_try_except, run_bind.
  destruct (run env (getctime shadow_path) s) as [[[ctime|e] s1] t1];
    cbn [result fst].
  - destruct (fromtimestamp_utc P ctime) as [e|dt] eqn:Hdt; cbn [lift bind run].
    + unfold except_Exception. destruct (is_Exception e) eqn:He.
      * rewrite run_bind, run_print. cbn [run result fst].
        split; [discriminate|]. split; [discriminate|].
        intros (c & d & [= <-] & Hd & _). congruence.
      * cbn [result fst]. split; [now intros e' [= <-]|].
        split; [discriminate|].
        intros (c & d & [= <-] & Hd & _). congruence.
    + destruct (dt =? EPOCH)%Z eqn:Hepoch.
      * rewrite run_bind, run_print. cbn [run result fst].
        split; [discriminate|]. split; [discriminate|].
        intros (c & d & [= <-] & Hd & Hne & _).
        apply Z.eqb_eq in Hepoch. congruence.
      * destruct (CUTOFF_DATETIME <=? dt)%Z eqn:Hcut.
        -- rewrite run_bind, run_print. cbn [run result fst].
           split; [discriminate|]. split; [discriminate|].
           intros (c & d & [= <-] & Hd & _ & Hlt).
           apply Z.leb_le in Hcut. assert (d = dt) by congruence. lia.
        -- cbn [run result fst]. split; [discriminate|].
           split; [|reflexivity]. intros _. exists ctime, dt.
           repeat split; trivial.
           ++ now apply Z.eqb_neq.
           ++ apply Z.leb_gt in Hcut. exact Hcut.
  - unfold except_Exception. destruct (is_Exception e) eqn:He.
    + rewrite run_bind, run_print. cbn [run result fst].
      split; [discriminate|]. split; [discriminate|].
      intros (c & d & H & _). discriminate H.
    + cbn [result fst]. split; [now intros e' [= <-]|].
      split; [discriminate|]. intros (c & d & H & _). discriminate H.
Qed.

(** A shadow copy created on 2025-09-01 is before the cutoff. *)
Example vss_is_before_cutoff_ex :
  result (run (world_env quiet_world)
            (vss_is_before_cutoff demo_platform getctime_september "\\?\shadow") tt)
  = Returned true.
Proof. vm_compute. reflexivity. Qed.

(* ================================================================== *)
(** * [process_regfile] leaves no old value name behind *)
(* ================================================================== *)

Section ReplaceAll.
Context (old new : str) (o n : ascii) (old' new' : str).
Hypothesis Hold : old = String o old'.
Hypothesis Hnew : new = String n new'.
Hypothesis Hfresh : no_char n old = true.
Hypothesis Hclean : starts_no_occurrence old new = true.

Lemma prefix_nil_r (w : str) : String.prefix w EmptyString = true -> w = EmptyString.
Proof. now destruct w. Qed.

Lemma prefix_comparable (p u t : str) :
  String.prefix p (u +++ t) = true ->
  u = EmptyString \/ String.prefix u p = true \/ String.prefix p u = true.
Proof.
  revert p. induction u as [|c u IH]; intros p H; [now left|right].
  destruct p as [|d p]; [now right|].
  cbn [String.append String.prefix] in *.
  destruct (ascii_dec d c) as [<-|Hn]; [|discriminate H].
  destruct (ascii_dec d d) as [_|Hn]; [|now elim Hn].
  destruct (IH p H) as [->|[H1|H1]].
  - left. now destruct p.
  - now left.
  - now right.
Qed.

(** The replaced text starts as the original where the start holds
    no first character of [new]. *)
Lemma prefix_of_replaced (t w : str) :
  no_char n w = true ->
  String.prefix w (replace_from 0 t old new) = true ->
  String.prefix w t = true.
Proof.
  revert w. induction t as [|c t IH]; intros w Hw H.
  - cbn in H. now rewrite (prefix_nil_r w H).
  - destruct w as [|d w]; [reflexivity|].
    cbn [no_char] in Hw. apply andb_true_iff in Hw. destruct Hw as [Hd Hw].
    cbn [replace_from] in H.
    destruct (String.prefix old (String c t)).
    + rewrite Hnew in H. cbn [String.append String.prefix] in H.
      destruct (ascii_dec d n) as [->|_]; [|discriminate H].
      now rewrite Ascii.eqb_refl in Hd.
    + cbn [String.prefix] in *.
      destruct (ascii_dec d c) as [_|_]; [|discriminate H].
      now apply IH.
Qed.

Lemma contains_after_new (u r : str) :
  starts_no_occurrence old u = true ->
  contains old r = false ->
  contains old (u +++ r) = false.
Proof.
  intros Hu Hr. induction u as [|c u IH]; [exact Hr|].
  cbn [starts_no_occurrence] in Hu.
  apply andb_true_iff in Hu. destruct Hu as [Hu Hu'].
  apply andb_true_iff in Hu. destruct Hu as [H1 H2].
  change (String c u +++ r) with (String c (u +++ r)).
  cbn [contains]. rewrite (IH Hu'), orb_false_r.
  destruct (String.prefix old (String c (u +++ r))) eqn:E; [|reflexivity].
  change (String c (u +++ r)) with (String c u +++ r) in E.
  destruct (prefix_comparable _ _ _ E) as [H|[H|H]].
  - discriminate H.
  - rewrite H in H1. discriminate H1.
  - rewrite H in H2. discriminate H2.
Qed.

(** No occurrence of [old] is left in the replaced text. *)
Lemma replace_from_all (s : str) :
  contains old (replace_from 0 s old new) = false.
Proof.
  remember (String.length s) as k eqn:Hk. revert s Hk.
  induction k as [k IH] using lt_wf_ind. intros s Hk.
  destruct s as [|c s]; [cbn; rewrite Hold; reflexivity|].
  destruct (String.prefix old (String c s)) eqn:E.
  - destruct (prefix_split _ _ E) as [t Ht]. rewrite Ht.
    rewrite Hold. rewrite replace_from_match. rewrite <- Hold.
    apply contains_after_new; [exact Hclean|].
    apply (IH (String.length t)); [|reflexivity].
    subst k. rewrite Ht, length_append, Hold. cbn [String.length]. lia.
  - cbn [replace_from]. rewrite E. cbn [contains].
    rewrite (IH (String.length s)); [|subst k; cbn [String.length]; lia|reflexivity].
    rewrite orb_false_r.
    destruct (String.prefix old (String c (replace_from 0 s old new))) eqn:E';
      [|reflexivity].
    rewrite Hold in E, E', Hfresh. cbn [String.prefix no_char] in *.
    apply andb_true_iff in Hfresh. destruct Hfresh as [_ Hfresh'].
    destruct (ascii_dec o c) as [_|_]; [|discriminate E'].
    rewrite <- Hold in E'.
    rewrite (prefix_of_replaced s old' Hfresh' E') in E. discriminate E.
Qed.

End ReplaceAll.

(** The text [process_regfile] makes of the text it read holds the
    old value name nowhere. *)
Lemma regfile_fixed_text_all (data : str) :
  contains OLD_VALUE_NAME (regfile_fixed_text data) = false.
Proof.
  unfold regfile_fixed_text.
  exact (replace_from_all OLD_VALUE_NAME NEW_VALUE_NAME _ _ _ _
           eq_refl eq_refl eq_refl eq_refl data).
Qed.

Lemma process_regfile_writes (P : platform) (sim : bool) (path : str) :
  always writes_no_old_name (process_regfile P sim path).
Proof.
  unfold process_regfile, backup_live_hkcu_key.
  repeat always_step.
  all: try exact I.
  all: apply regfile_fixed_text_all.
Qed.

(** X26.  [process_regfile] leaves no old value name behind: whatever file
    it is given and in both modes, no text it writes holds
    [224515408_h90860828] anywhere. *)
Theorem process_regfile_replaces_all (P : platform) (SIMULATION_MODE : bool)
    (regfile_path : str) (S : Type) (env : environment S) (s : S) :
  Forall writes_no_old_name
    (calls (trace (run env (process_regfile P SIMULATION_MODE regfile_path) s))).
Proof. apply always_run. apply process_regfile_writes. Qed.

(* ================================================================== *)
(** * The removal of the leftover files in [main] *)
(* ================================================================== *)

(** X27.  The loop over the leftover files tests every file of its list,
    in order, and removes a file only after [os.path.exists] answered
    [True] for it.  It catches nothing: when [os.remove] raises, the
    loop raises that exception and leaves the later files alone. *)
Theorem remove_leftovers_outcome (files : list str) (S : Type)
    (env : environment S) (s : S) :
  let x := run env (remove_leftovers files) s in
  (forall f,
     In (Remove f) (calls (trace x)) ->
     In f files /\ In (PathExists f, ABool true) (trace x))
  /\ (forall f e,
        In (Remove f, Fails e) (trace x) ->
        result x = Raised e
        /\ exists pre, trace x = pre ++ [(Remove f, Fails e)])
  /\ (result x = Returned tt -> tested (trace x) = files).
Proof.
  cbv zeta. revert s. induction files as [|file more IH]; intros s.
  - cbn. repeat split; trivial; intros; contradiction.
  - cbn [remove_leftovers bind run].
    destruct (env (PathExists file) s) as [[|] s1]; cbn [bind run].
    + destruct (env (Remove file) s1) as [[e|[]] s2];
        cbn [lift bind run result trace fst snd answer_of answer_or_exn calls
             List.map tested].
      * split; [|split].
        -- intros f [H|[H|[]]]; [discriminate H|].
           injection H as <-. split; [now left|now left].
        -- intros f e' [H|[H|[]]]; [discriminate H|].
           injection H as <- <-. split; [reflexivity|].
           now exists [(PathExists file, ABool true)].
        -- discriminate.
      * destruct (IH s2) as (I1 & I2 & I3).
        destruct (run env (remove_leftovers more) s2) as [[o s3] tr].
        cbn [result trace fst snd calls List.map tested answer_of] in *.
        split; [|split].
        -- intros f [H|[H|H]]; [discriminate H| |].
           ++ injection H as <-. split; [now left|now left].
           ++ destruct (I1 f H) as [H1 H2]. split; [now right|now do 2 right].
        -- intros f e [H|[H|H]]; [discriminate H|discriminate H|].
           destruct (I2 f e H) as [H1 [pre H2]]. split; [exact H1|].
           exists ((PathExists file, ABool true) :: (Remove file, Done) :: pre).
           now rewrite H2.
        -- intros H. now rewrite (I3 H).
    + destruct (IH s1) as (I1 & I2 & I3).
      destruct (run env (remove_leftovers more) s1) as [[o s3] tr].
      cbn [result trace fst snd calls List.map tested answer_of] in *.
      split; [|split].
      * intros f [H|H]; [discriminate H|].
        destruct (I1 f H) as [H1 H2]. split; [now right|now right].
      * intros f e [H|H]; [discriminate H|].
        destruct (I2 f e H) as [H1 [pre H2]]. split; [exact H1|].
        exists ((PathExists file, ABool false) :: pre). now rewrite H2.
      * intros H. now rewrite (I3 H).
Qed.

(* ================================================================== *)
(** * The restore points kept by the cutoff *)
(* ================================================================== *)

(** X28.  The filter of [search_old_restore_points] reads the modification
    time of every restore point once, in the order of the list, and
    prints a message for each one it skips.  What it returns are the
    restore points whose time as read, converted to UTC, lies
    strictly before the cutoff, all of them and in the order of the
    list. *)
Theorem filter_before_cutoff_keeps (P : platform) (rps kept : list (str * str))
    (S : Type) (env : environment S) (s : S) :
  let x := run env (filter_before_cutoff P rps) s in
  result x = Returned kept ->
  exists keyed,
    List.map snd keyed = rps
    /\ trace x = flat_map (cutoff_check P) keyed
    /\ kept = List.map snd (filter (fun kt => mtime_before_cutoff P (fst kt)) keyed).
Proof.
  cbv zeta. revert kept s. induction rps as [|t more IH]; intros kept s.
  - cbn. intros [= <-]. now exists [].
  - cbn [filter_before_cutoff]. rewrite run_bind.
    unfold rp_is_before_cutoff. cbn [bind run].
    destruct (env (GetMTime (fst t)) s) as [[e|mtime] s1];
      cbn [lift bind run answer_of answer_or_exn]; [discriminate|].
    destruct (fromtimestamp_utc P mtime) as [e|rp_dt] eqn:Hdt;
      cbn [lift bind run]; [discriminate|].
    destruct (CUTOFF_DATETIME <=? rp_dt)%Z eqn:Hcut.
    + rewrite run_bind, run_print. cbn [run]. rewrite run_bind.
      match goal with
      | |- context [run env (filter_before_cutoff P more) ?s2] =>
          specialize (IH) ; pose proof (fun k => IH k s2) as IH';
          destruct (run env (filter_before_cutoff P more) s2) as [[[rest|e] s3] t3]
      end; cbn [run result trace fst snd] in *; [|discriminate].
      intros [= <-]. destruct (IH' rest eq_refl) as (keyed & Hmap & Htr & Hkept).
      exists ((mtime, t) :: keyed). cbn [List.map flat_map filter fst snd].
      unfold mtime_before_cutoff at 1, cutoff_check at 1. cbn [fst snd].
      rewrite Hdt, Hcut.
      assert (Hlt : (rp_dt <? CUTOFF_DATETIME)%Z = false)
        by (apply Z.ltb_ge; now apply Z.leb_le).
      rewrite Hlt, Hmap, Htr, Hkept. rewrite ?app_nil_r. repeat split.
    + cbn [run]. rewrite run_bind.
      match goal with
      | |- context [run env (filter_before_cutoff P more) ?s2] =>
          pose proof (fun k => IH k s2) as IH';
          destruct (run env (filter_before_cutoff P more) s2) as [[[rest|e] s3] t3]
      end; cbn [run result trace fst snd] in *; [|discriminate].
      intros [= <-]. destruct (IH' rest eq_refl) as (keyed & Hmap & Htr & Hkept).
      exists ((mtime, t) :: keyed). cbn [List.map flat_map filter fst snd].
      unfold mtime_before_cutoff at 1, cutoff_check at 1. cbn [fst snd].
      rewrite Hdt, Hcut.
      assert (Hlt : (rp_dt <? CUTOFF_DATETIME)%Z = true)
        by (apply Z.ltb_lt; now apply Z.leb_gt).
      rewrite Hlt, Hmap, Htr, Hkept. rewrite ?app_nil_r. repeat split.
Qed.

(** On [rp_world], RP1 and RP2 are kept and RP3 is skipped. *)
Lemma filter_before_cutoff_keeps_witness :
  result (run (world_env rp_world)
            (filter_before_cutoff demo_platform
               [(rp1, "a"); (rp2, "b"); (rp3, "c")]) tt)
  = Returned [(rp1, "a"); (rp2, "b")]
  /\ exists keyed,
       List.map snd keyed = [(rp1, "a"); (rp2, "b"); (rp3, "c")]
       /\ trace (run (world_env rp_world)
                   (filter_before_cutoff demo_platform
                      [(rp1, "a"); (rp2, "b"); (rp3, "c")]) tt)
          = flat_map (cutoff_check demo_platform) keyed
       /\ [(rp1, "a"); (rp2, "b")]
          = List.map snd
              (filter (fun kt => mtime_before_cutoff demo_platform (fst kt)) keyed).
Proof.
  assert (H : result (run (world_env rp_world)
                        (filter_before_cutoff demo_platform
                           [(rp1, "a"); (rp2, "b"); (rp3, "c")]) tt)
              = Returned [(rp1, "a"); (rp2, "b")]) by (vm_compute; reflexivity).
  split; [exact H|].
  exact (filter_before_cutoff_keeps demo_platform _ _ unit (world_env rp_world) tt H).
Defined.

(* ================================================================== *)
(** * The result of [process_regfile] *)
(* ================================================================== *)

(** C7.  When [os.path.isfile] answers [False] for the path,
    [process_regfile] prints a message and returns [False]; when the
    text of the file, read as UTF-16 or, after an [Exception] of that
    read, as UTF-8, does not contain the line
    [[HKEY_CURRENT_USER\Software\KLab\BleachBraveSouls]], it prints a
    message and returns [False].  In both cases these are its only
    calls: it writes no file.  When it returns [True], it has read a
    text that contains the key line and has written to its output
    file that text with [224515408_h90860828] replaced by
    [-907038497_h2948477015], which holds the old name nowhere. *)
Theorem process_regfile_result (P : platform) (SIMULATION_MODE : bool)
    (regfile_path : str) (S : Type) (env : environment S) (s : S) :
  let x := run env (process_regfile P SIMULATION_MODE regfile_path) s in
  let key_line := "[HKEY_CURRENT_USER\Software\KLab\BleachBraveSouls]" in
  let retry :=
    Print ("Failed to read " +++ regfile_path +++ " as UTF-16. Trying UTF-8...") in
  let not_found :=
    Print (key_line +++ " not found in " +++ regfile_path
           +++ ". Proceeding to restore point/VSS search.") in
  let is_file := env (IsFile regfile_path) s in
  let utf16 := env (ReadText regfile_path "utf-16") (snd is_file) in
  let utf8 := env (ReadText regfile_path "utf-8") (snd (env retry (snd utf16))) in
  (fst is_file = false ->
   result x = Returned false
   /\ existsb writes_a_file (calls (trace x)) = false
   /\ trace x
      = [(IsFile regfile_path, ABool false);
         (Print ("REG file " +++ regfile_path +++ " does not exist."), Done)])
  /\ (forall data,
        fst is_file = true ->
        fst utf16 = inr data ->
        contains key_line data = false ->
        result x = Returned false
        /\ existsb writes_a_file (calls (trace x)) = false
        /\ trace x
           = [(IsFile regfile_path, ABool true);
              (ReadText regfile_path "utf-16", AText data);
              (not_found, Done)])
  /\ (forall e data,
        fst is_file = true ->
        fst utf16 = inl e ->
        is_Exception e = true ->
        fst utf8 = inr data ->
        contains key_line data = false ->
        result x = Returned false
        /\ existsb writes_a_file (calls (trace x)) = false
        /\ trace x
           = [(IsFile regfile_path, ABool true);
              (ReadText regfile_path "utf-16", Fails e);
              (retry, Done);
              (ReadText regfile_path "utf-8", AText data);
              (not_found, Done)])
  /\ (result x = Returned true ->
      exists encoding data,
        In (ReadText regfile_path encoding, AText data) (trace x)
        /\ contains key_line data = true
        /\ contains "224515408_h90860828"
             (replace data "224515408_h90860828" "-907038497_h2948477015")
           = false
        /\ In (WriteText (REGFILE_OUTPUT_FILE P) "utf-16"
                 (replace data "224515408_h90860828" "-907038497_h2948477015"),
               Done) (trace x)).
Proof.
  cbv zeta.
  change "[HKEY_CURRENT_USER\Software\KLab\BleachBraveSouls]" with target_key_line.
  change "224515408_h90860828" with OLD_VALUE_NAME.
  change "-907038497_h2948477015" with NEW_VALUE_NAME.
  split; [|split; [|split]].
  - unfold process_regfile. cbn [bind run].
    destruct (env (IsFile regfile_path) s) as [b s1]. cbn [fst].
    intros ->. cbn [negb bind run print].
    destruct (env (Print ("REG file " +++ regfile_path +++ " does not exist.")) s1)
      as [[] s2].
    repeat split.
  - unfold process_regfile. cbn [bind run].
    destruct (env (IsFile regfile_path) s) as [b s1]. cbn [fst snd].
    intros data ->. cbn [negb]. rewrite run_bind. cbn [try_except run].
    destruct (env (ReadText regfile_path "utf-16") s1) as [r s2]. cbn [fst].
    intros -> Hk. cbn [lift try_except run result trace final fst snd].
    rewrite Hk. cbn [negb bind run print].
    destruct (env (Print (target_key_line +++ " not found in " +++ regfile_path
                          +++ ". Proceeding to restore point/VSS search.")) s2)
      as [[] s3].
    repeat split.
  - unfold process_regfile. cbn [bind run].
    destruct (env (IsFile regfile_path) s) as [b s1]. cbn [fst snd].
    intros e data ->. cbn [negb]. rewrite run_bind. cbn [try_except run].
    destruct (env (ReadText regfile_path "utf-16") s1) as [r s2]. cbn [fst snd].
    intros -> He. cbn [lift try_except run]. unfold except_Exception. rewrite He.
    cbn [bind run print].
    destruct (env (Print ("Failed to read " +++ regfile_path
                          +++ " as UTF-16. Trying UTF-8...")) s2) as [[] s3].
    cbn [snd].
    destruct (env (ReadText regfile_path "utf-8") s3) as [r s4]. cbn [fst].
    intros -> Hk. cbn [lift run result trace final fst snd app].
    rewrite Hk. cbn [negb bind run print].
    destruct (env (Print (target_key_line +++ " not found in " +++ regfile_path
                          +++ ". Proceeding to restore point/VSS search.")) s4)
      as [[] s5].
    repeat split.
  - pose proof regfile_fixed_text_all as Hall. unfold regfile_fixed_text in Hall.
    unfold process_regfile, backup_live_hkcu_key, regfile_fixed_text.
    run_paths env.
    all: leaf2.
    all: first [ apply Hall | assumption ].
Qed.

(** The four parts on four machines, for the path [C:\backup.reg]: on
    [quiet_world] it is not a file; on [other_key_world] it is a file
    of another key; on [other_key_utf8_world] that file is read as
    UTF-8 after the UTF-16 read failed; on [regfile_world] it is a
    backup of the key, and the function returns [True]. *)
Lemma process_regfile_result_witness :
  (result (run (world_env quiet_world)
             (process_regfile demo_platform true "C:\backup.reg") tt)
   = Returned false
   /\ existsb writes_a_file
        (calls (trace (run (world_env quiet_world)
                         (process_regfile demo_platform true "C:\backup.reg") tt)))
      = false
   /\ trace (run (world_env quiet_world)
               (process_regfile demo_platform true "C:\backup.reg") tt)
      = [(IsFile "C:\backup.reg", ABool false);
         (Print "REG file C:\backup.reg does not exist.", Done)])
  /\ (result (run (world_env other_key_world)
                (process_regfile demo_platform true "C:\backup.reg") tt)
      = Returned false
      /\ existsb writes_a_file
           (calls (trace (run (world_env other_key_world)
                            (process_regfile demo_platform true "C:\backup.reg") tt)))
         = false
      /\ trace (run (world_env other_key_world)
                  (process_regfile demo_platform true "C:\backup.reg") tt)
         = [(IsFile "C:\backup.reg", ABool true);
            (ReadText "C:\backup.reg" "utf-16", AText other_key_text);
            (Print "[HKEY_CURRENT_USER\Software\KLab\BleachBraveSouls] not found in C:\backup.reg. Proceeding to restore point/VSS search.",
             Done)])
  /\ (result (run (world_env other_key_utf8_world)
                (process_regfile demo_platform true "C:\backup.reg") tt)
      = Returned false
      /\ existsb writes_a_file
           (calls (trace (run (world_env other_key_utf8_world)
                            (process_regfile demo_platform true "C:\backup.reg") tt)))
         = false
      /\ trace (run (world_env other_key_utf8_world)
                  (process_regfile demo_platform true "C:\backup.reg") tt)
         = [(IsFile "C:\backup.reg", ABool true);
            (ReadText "C:\backup.reg" "utf-16", Fails not_utf16);
            (Print "Failed to read C:\backup.reg as UTF-16. Trying UTF-8...", Done);
            (ReadText "C:\backup.reg" "utf-8", AText other_key_text);
            (Print "[HKEY_CURRENT_USER\Software\KLab\BleachBraveSouls] not found in C:\backup.reg. Proceeding to restore point/VSS search.",
             Done)])
  /\ (result (run (world_env regfile_world)
                (process_regfile demo_platform true "C:\backup.reg") tt)
      = Returned true
      /\ exists encoding data,
           In (ReadText "C:\backup.reg" encoding, AText data)
             (trace (run (world_env regfile_world)
                       (process_regfile demo_platform true "C:\backup.reg") tt))
           /\ contains "[HKEY_CURRENT_USER\Software\KLab\BleachBraveSouls]" data
              = true
           /\ contains "224515408_h90860828"
                (replace data "224515408_h90860828" "-907038497_h2948477015")
              = false
           /\ In (WriteText (REGFILE_OUTPUT_FILE demo_platform) "utf-16"
                    (replace data "224515408_h90860828" "-907038497_h2948477015"),
                  Done)
                (trace (run (world_env regfile_world)
                          (process_regfile demo_platform true "C:\backup.reg") tt))).
Proof.
  split; [|split; [|split]].
  - apply (proj1 (process_regfile_result demo_platform true "C:\backup.reg"
                    unit (world_env quiet_world) tt)).
    reflexivity.
  - apply (proj1 (proj2 (process_regfile_result demo_platform true
                           "C:\backup.reg" unit (world_env other_key_world) tt))
             other_key_text); reflexivity.
  - apply (proj1 (proj2 (proj2 (process_regfile_result demo_platform true
                                  "C:\backup.reg" unit
                                  (world_env other_key_utf8_world) tt)))
             not_utf16 other_key_text); reflexivity.
  - split; [vm_compute; reflexivity|].
    apply (proj2 (proj2 (proj2 (process_regfile_result demo_platform true
                                  "C:\backup.reg" unit
                                  (world_env regfile_world) tt)))).
    vm_compute. reflexivity.
Defined.

(* ================================================================== *)
(** * Simulation mode *)
(* ================================================================== *)

(** A call within the footprint of the script that changes no live
    registry value does what a simulation run may do. *)
Lemma simulation_effect_of_footprint (P : platform) (c : call) :
  within_footprint P c -> no_live_change c -> simulation_effect P c.
Proof.
  intros Hw [Hs Hi].
  destruct c; try exact I; try discriminate Hs.
  - cbn [within_footprint] in Hw. unfold script_command in Hw.
    destruct Hw as [->|[->|[->|[->|[->|[->|[[hive_path ->]| ->]]]]]]].
    + exact I.
    + exact I.
    + cbn. auto.
    + cbn. auto.
    + discriminate Hi.
    + discriminate Hi.
    + exists hive_path. reflexivity.
    + reflexivity.
  - exact Hw.
  - cbn [within_footprint] in Hw. destruct Hw as [[-> | ->] _]; cbn; auto.
Qed.

(** C2.  In simulation mode [modify_hive_value] reads the old value
    and never calls [SetValueEx]; [process_regfile] and
    [export_and_save] never run [reg import]; every call of the three
    either observes, prints, or writes one of the generated [.reg]
    files.  A run of [main] whose command line asks for simulation
    mode makes no [SetValueEx] and no [reg import] call at all; what
    it does besides observing, printing and writing the generated
    files is to remove its two leftover exports and to load and unload
    a hive under the mount [TempHive]. *)
Theorem simulation_mode_effects (P : platform) (mount path : str)
    (S : Type) (env : environment S) (s : S) :
  let m := trace (run env (modify_hive_value P true mount) s) in
  let r := trace (run env (process_regfile P true path) s) in
  let e := trace (run env (export_and_save P true mount) s) in
  let all := trace (run env (main P) s) in
  (forall key,
     In (OpenKey (hive_key_path mount), AInt key) m ->
     In (QueryValueEx key OLD_VALUE_NAME) (calls m))
  /\ existsb is_SetValueEx (calls m) = false
  /\ existsb is_reg_import (calls r) = false
  /\ existsb is_reg_import (calls e) = false
  /\ Forall (harmless P) (calls m ++ calls r ++ calls e)
  /\ (Forall (fun ev => simulation_requested (fst ev) (snd ev)) all ->
      Forall no_live_change (calls all)
      /\ Forall (simulation_effect P) (calls all)).
Proof.
  cbv zeta.
  pose proof (always_run env _ _ s (modify_hive_value_harmless P mount)) as Hm.
  pose proof (always_run env _ _ s (process_regfile_harmless P path)) as Hr.
  pose proof (always_run env _ _ s (export_and_save_harmless P mount)) as He.
  assert (Hnlc : forall l, Forall (harmless P) l ->
                 existsb is_SetValueEx l = false /\ existsb is_reg_import l = false).
  { intros l Hl. split; apply existsb_false_of_Forall;
      (eapply Forall_impl; [|exact Hl]); intros c Hc;
      apply (harmless_no_live_change P c Hc). }
  split; [intros key; apply modify_hive_value_queries|].
  split; [apply (Hnlc _ Hm)|].
  split; [apply (Hnlc _ Hr)|].
  split; [apply (Hnlc _ He)|].
  split; [now rewrite !Forall_app|].
  intros Hsim.
  pose proof (always_when_run env _ _ _ s (main_simulation_nlc P) Hsim) as Hn.
  split; [exact Hn|].
  pose proof (always_run env _ _ s (main_within P)) as Hw.
  rewrite Forall_forall in *. intros c Hc.
  apply simulation_effect_of_footprint; auto.
Qed.

(** On [simulation_rp_world] the command line asks for simulation
    mode and the hive of a restore point holds the old value: the run
    of [main] goes through [modify_hive_value] and [export_and_save],
    reads the old value and writes the fixed file, and changes no
    live registry value. *)
Lemma simulation_mode_effects_witness :
  let all :=
    trace (run (world_env simulation_rp_world) (main demo_platform) tt) in
  In (QueryValueEx 7%Z OLD_VALUE_NAME, AValue (RegBytes "01") 3%Z) all
  /\ In (WriteText (OUTPUT_REG_FILE demo_platform) "utf-16"
           (export_fixed_text TEMP_MOUNT_NAME hex_value_export), Done) all
  /\ Forall no_live_change (calls all)
  /\ Forall (simulation_effect demo_platform) (calls all).
Proof.
  cbv zeta.
  split; [vm_compute; repeat first [left; reflexivity | right]|].
  split; [vm_compute; repeat first [left; reflexivity | right]|].
  apply (proj2 (proj2 (proj2 (proj2 (proj2
           (simulation_mode_effects demo_platform TEMP_MOUNT_NAME
              "C:\backup.reg" unit (world_env simulation_rp_world) tt)))))).
  vm_compute. repeat constructor.
Defined.

(** C2 as stated fails for the run of [main]: on [simulation_rp_world],
    in simulation mode, [main] removes the two exports an earlier run
    left on disk and loads and unloads the hive of a restore point
    under [HKEY_USERS\TempHive]; none of these calls writes a backup
    or a generated [.reg] file. *)
Lemma simulation_run_removes_and_mounts :
  let all :=
    trace (run (world_env simulation_rp_world) (main demo_platform) tt) in
  let loaded := {| returncode := 0%Z; stdout := "" |} in
  In (ParseArgs, AArgs {| mode := simulation; regfile := None |}) all
  /\ In (Print "Running in SIMULATION mode", Done) all
  /\ In (Remove (SNAPSHOT_EXPORT_FILE demo_platform), Done) all
  /\ In (Remove (OUTPUT_REG_FILE demo_platform), Done) all
  /\ In (load_hive rp2_hive TEMP_MOUNT_NAME, AProcess loaded) all
  /\ In (unload_hive TEMP_MOUNT_NAME, AProcess loaded) all
  /\ effect_of (Remove (SNAPSHOT_EXPORT_FILE demo_platform))
     = RemovesFile (SNAPSHOT_EXPORT_FILE demo_platform)
  /\ effect_of (load_hive rp2_hive TEMP_MOUNT_NAME) = MountsHive
  /\ effect_of (unload_hive TEMP_MOUNT_NAME) = UnmountsHive
  /\ List.length
       (filter (fun c =>
                  match effect_of c with
                  | RemovesFile _ | MountsHive | UnmountsHive => true
                  | _ => false
                  end) (calls all)) = 4
  /\ ~ Forall (harmless demo_platform) (calls all).
Proof.
  cbv zeta.
  repeat match goal with
         | |- In _ _ /\ _ =>
             split; [vm_compute; repeat first [left; reflexivity | right]|]
         | |- _ = _ /\ _ => split; [vm_compute; reflexivity|]
         end.
  intros H. rewrite Forall_forall in H.
  apply (H (Remove (SNAPSHOT_EXPORT_FILE demo_platform))).
  vm_compute. repeat first [left; reflexivity | right].
Qed.
